(** * zorro.mysql: a shallow embedding of the MySQL wire-protocol client

    The development follows [zorro/mysql.py] top to bottom: the Python
    primitives the module relies on (indexing, slicing, [struct]), the
    length-coded codec, the field and result-set model, the capability
    record, the channel (constructor, handshake, receiver loop) and the
    [Mysql] front end.  Exceptions are modelled by an error monad, mutable
    objects by explicit state. *)

From Stdlib Require Import ZArith List Lia Bool String Ascii.
From Stdlib Require Import Strings.Byte.
Import ListNotations.
Open Scope Z_scope.

(** ** Exceptions and the error monad *)

Inductive exn : Type :=
| IndexError
| TypeError
| ValueError
| StructError
| AssertionError
| RuntimeError (type_code : Z)
| UnboundLocalError
| UnicodeEncodeError
| UnicodeDecodeError
| NameError
| EOFError
| PipeError
| AttributeError.

Inductive result (A : Type) : Type :=
| Ok (a : A)
| Err (e : exn).
Arguments Ok {A} a.
Arguments Err {A} e.

Definition bind {A B} (m : result A) (k : A -> result B) : result B :=
  match m with
  | Ok a => k a
  | Err e => Err e
  end.

Declare Scope py_scope.
Delimit Scope py_scope with py.
Notation "x <- m ;; k" := (bind m (fun x => k))
  (at level 61, m at next level, right associativity) : py_scope.
Notation "' pat <- m ;; k" := (bind m (fun v => match v with pat => k end))
  (at level 61, pat pattern, m at next level, right associativity) : py_scope.
Notation "m ;;; k" := (bind m (fun _ => k))
  (at level 61, right associativity) : py_scope.
Open Scope py_scope.

Definition py_assert (b : bool) : result unit :=
  if b then Ok tt else Err AssertionError.

Definition is_ok {A} (r : result A) : bool :=
  match r with Ok _ => true | Err _ => false end.

(** ** Python data: bytes, text, tuples *)

Definition bytes := list byte.

(** A [str] is a sequence of Unicode code points. *)
Definition pystr := list Z.

Definition str_of (s : string) : pystr :=
  map (fun a => Z.of_N (N_of_ascii a)) (list_ascii_of_string s).

#[local] Unset Elimination Schemes.
Inductive value : Type :=
| VNone
| VInt (z : Z)
| VBytes (b : bytes)
| VTuple (vs : list value).
#[local] Set Elimination Schemes.

Definition byte_val (b : byte) : Z := Z.of_N (Byte.to_N b).

Definition byte_of_Z (z : Z) : byte :=
  match Byte.of_N (Z.to_N (z mod 256)) with
  | Some b => b
  | None => x00
  end.

Definition len {A} (l : list A) : Z := Z.of_nat (List.length l).

(** [l[i]]: a negative index counts from the end, anything out of range
    raises IndexError. *)
Definition index {A} (l : list A) (i : Z) : result A :=
  let j := if i <? 0 then i + len l else i in
  if j <? 0 then Err IndexError
  else match nth_error l (Z.to_nat j) with
       | Some a => Ok a
       | None => Err IndexError
       end.

(** Slice bounds are clamped, never an error. *)
Definition clamp (n i : Z) : Z :=
  if i <? 0 then Z.max 0 (i + n) else Z.min i n.

(** [l[lo:hi]] *)
Definition slice {A} (l : list A) (lo hi : Z) : list A :=
  let a := clamp (len l) lo in
  let b := clamp (len l) hi in
  firstn (Z.to_nat (b - a)) (skipn (Z.to_nat a) l).

(** [l[lo:]] *)
Definition slice_from {A} (l : list A) (lo : Z) : list A :=
  skipn (Z.to_nat (clamp (len l) lo)) l.

(** ** The [struct] module, little-endian standard sizes *)

Inductive fmt_item : Type :=
| fB            (* unsigned char, 1 byte *)
| fH            (* unsigned short, 2 bytes *)
| fL            (* unsigned long, 4 bytes *)
| fQ            (* unsigned long long, 8 bytes *)
| fx            (* pad byte, no value *)
| fs (n : nat). (* n raw bytes *)

Definition item_size (it : fmt_item) : nat :=
  match it with
  | fB => 1 | fH => 2 | fL => 4 | fQ => 8 | fx => 1 | fs n => n
  end.

Definition calcsize (fmt : list fmt_item) : nat :=
  fold_right (fun it n => (item_size it + n)%nat) 0%nat fmt.

Fixpoint le_int (bs : bytes) : Z :=
  match bs with
  | [] => 0
  | b :: rest => byte_val b + 256 * le_int rest
  end.

Fixpoint unpack_items (fmt : list fmt_item) (bs : bytes) : list value :=
  match fmt with
  | [] => []
  | it :: rest =>
      let field := firstn (item_size it) bs in
      let tail := unpack_items rest (skipn (item_size it) bs) in
      match it with
      | fx => tail
      | fs _ => VBytes field :: tail
      | _ => VInt (le_int field) :: tail
      end
  end.

(** [struct.unpack_from(fmt, buf, offset)]: the result is always a tuple,
    also for a single item. *)
Definition unpack_from (fmt : list fmt_item) (buf : bytes) (offset : Z)
  : result (list value) :=
  let off := if offset <? 0 then offset + len buf else offset in
  if (off <? 0) || (len buf - off <? Z.of_nat (calcsize fmt))
  then Err StructError
  else Ok (unpack_items fmt (skipn (Z.to_nat off) buf)).

Fixpoint le_bytes (n : nat) (z : Z) : bytes :=
  match n with
  | O => []
  | S k => byte_of_Z z :: le_bytes k (Z.shiftr z 8)
  end.

(** ** Length-coded binary codec *)

Definition fmt_H := [fH].
Definition fmt_Q := [fQ].

(** [None] stands for falling off the end of the function. *)
Definition _read_lcb (buf : bytes) (pos : Z) : result (option (value * Z)) :=
  b <- index buf pos ;;
  let num := byte_val b in
  if num <? 251 then Ok (Some (VInt num, pos + 1))
  else if num =? 251 then Ok (Some (VNone, pos + 1))
  else if num =? 252 then
    t <- unpack_from fmt_H buf (pos + 1) ;;
    Ok (Some (VTuple t, pos + 3))
  else if num =? 253 then
    b1 <- index buf (pos + 1) ;;
    b2 <- index buf (pos + 2) ;;
    b3 <- index buf (pos + 3) ;;
    Ok (Some (VInt (byte_val b1 + Z.shiftl (byte_val b2) 8
                    + Z.shiftl (byte_val b3) 16), pos + 4))
  else if num =? 254 then
    t <- unpack_from fmt_Q buf (pos + 1) ;;
    Ok (Some (VTuple t, pos + 9))
  else Ok None.

(** [a, b = r]: unpacking the implicit None raises TypeError. *)
Definition unpack2 {A} (r : option A) : result A :=
  match r with
  | Some p => Ok p
  | None => Err TypeError
  end.

(** [pos + num] where [pos] is an int: only int + int is defined. *)
Definition add_int (pos : Z) (num : value) : result Z :=
  match num with
  | VInt n => Ok (pos + n)
  | _ => Err TypeError
  end.

(** The byte string is [Some], NULL is [None]. *)
Definition _read_lcbytes (buf : bytes) (pos : Z) : result (option bytes * Z) :=
  (* the last line: [return buf[pos:pos+num], pos+num] *)
  let finish (num : value) (pos : Z) :=
    stop <- add_int pos num ;;
    Ok (Some (slice buf pos stop), stop) in
  b <- index buf pos ;;
  let num := byte_val b in
  let pos := pos + 1 in
  if num <? 251 then Ok (Some (slice buf pos (pos + num)), pos + num)
  else if num =? 251 then Ok (None, pos)
  else if num =? 252 then
    t <- unpack_from fmt_H buf pos ;;
    finish (VTuple t) (pos + 2)
  else if num =? 253 then
    b0 <- index buf pos ;;
    b1 <- index buf (pos + 1) ;;
    b2 <- index buf (pos + 2) ;;
    finish (VInt (byte_val b0 + Z.shiftl (byte_val b1) 8
                  + Z.shiftl (byte_val b2) 16)) (pos + 3)
  else if num =? 254 then
    t <- unpack_from fmt_Q buf pos ;;
    finish (VTuple t) (pos + 8)
  else finish (VInt num) pos.

(** ** UTF-8 and ASCII codecs of [str] and [bytes] *)

Definition is_cont (b : byte) : bool :=
  (128 <=? byte_val b) && (byte_val b <=? 191).

Definition in_range (lo hi : Z) (b : byte) : bool :=
  (lo <=? byte_val b) && (byte_val b <=? hi).

Definition low6 (b : byte) : Z := Z.land (byte_val b) 63.

Fixpoint decode_utf8 (bs : bytes) : result pystr :=
  match bs with
  | [] => Ok []
  | b0 :: r0 =>
      let c0 := byte_val b0 in
      if c0 <? 128 then
        rest <- decode_utf8 r0 ;; Ok (c0 :: rest)
      else if in_range 194 223 b0 then
        match r0 with
        | b1 :: r1 =>
            if is_cont b1 then
              rest <- decode_utf8 r1 ;;
              Ok (Z.shiftl (Z.land c0 31) 6 + low6 b1 :: rest)
            else Err UnicodeDecodeError
        | _ => Err UnicodeDecodeError
        end
      else if in_range 224 239 b0 then
        match r0 with
        | b1 :: b2 :: r2 =>
            let lo := if c0 =? 224 then 160 else 128 in
            let hi := if c0 =? 237 then 159 else 191 in
            if in_range lo hi b1 && is_cont b2 then
              rest <- decode_utf8 r2 ;;
              Ok (Z.shiftl (Z.land c0 15) 12 + Z.shiftl (low6 b1) 6
                  + low6 b2 :: rest)
            else Err UnicodeDecodeError
        | _ => Err UnicodeDecodeError
        end
      else if in_range 240 244 b0 then
        match r0 with
        | b1 :: b2 :: b3 :: r3 =>
            let lo := if c0 =? 240 then 144 else 128 in
            let hi := if c0 =? 244 then 143 else 191 in
            if in_range lo hi b1 && is_cont b2 && is_cont b3 then
              rest <- decode_utf8 r3 ;;
              Ok (Z.shiftl (Z.land c0 7) 18 + Z.shiftl (low6 b1) 12
                  + Z.shiftl (low6 b2) 6 + low6 b3 :: rest)
            else Err UnicodeDecodeError
        | _ => Err UnicodeDecodeError
        end
      else Err UnicodeDecodeError
  end.

Definition cont_byte (c : Z) (shift : Z) : byte :=
  byte_of_Z (Z.lor 128 (Z.land (Z.shiftr c shift) 63)).

Definition encode_cp (c : Z) : result bytes :=
  if c <? 128 then Ok [byte_of_Z c]
  else if c <? 2048 then
    Ok [byte_of_Z (Z.lor 192 (Z.shiftr c 6)); cont_byte c 0]
  else if c <? 65536 then
    if (55296 <=? c) && (c <=? 57343) then Err UnicodeEncodeError
    else Ok [byte_of_Z (Z.lor 224 (Z.shiftr c 12)); cont_byte c 6;
             cont_byte c 0]
  else
    Ok [byte_of_Z (Z.lor 240 (Z.shiftr c 18)); cont_byte c 12;
        cont_byte c 6; cont_byte c 0].

Fixpoint encode_utf8 (s : pystr) : result bytes :=
  match s with
  | [] => Ok []
  | c :: rest =>
      h <- encode_cp c ;;
      t <- encode_utf8 rest ;;
      Ok (h ++ t)
  end.

Fixpoint encode_ascii (s : pystr) : result bytes :=
  match s with
  | [] => Ok []
  | c :: rest =>
      if c <? 128 then
        t <- encode_ascii rest ;; Ok (byte_of_Z c :: t)
      else Err UnicodeEncodeError
  end.

Definition _read_lcstr (buf : bytes) (pos : Z) : result (option pystr * Z) :=
  (* the last line: [return buf[pos:pos+num].decode('utf-8'), pos+num] *)
  let finish (num : value) (pos : Z) :=
    stop <- add_int pos num ;;
    s <- decode_utf8 (slice buf pos stop) ;;
    Ok (Some s, stop) in
  b <- index buf pos ;;
  let num := byte_val b in
  let pos := pos + 1 in
  if num <? 251 then finish (VInt num) pos
  else if num =? 251 then Ok (None, pos)
  else if num =? 252 then
    t <- unpack_from fmt_H buf pos ;;
    finish (VTuple t) (pos + 2)
  else if num =? 253 then
    b0 <- index buf pos ;;
    b1 <- index buf (pos + 1) ;;
    b2 <- index buf (pos + 2) ;;
    finish (VInt (byte_val b0 + Z.shiftl (byte_val b1) 8
                  + Z.shiftl (byte_val b2) 16)) (pos + 3)
  else if num =? 254 then
    t <- unpack_from fmt_Q buf pos ;;
    finish (VTuple t) (pos + 8)
  else finish (VInt num) pos.

(** ** Field descriptors *)

Definition FIELD_STR := [fH; fL; fB; fH; fB].

Module Field.

Record t : Type := mk {
  catalog : option pystr;
  db : option pystr;
  table : option pystr;
  org_table : option pystr;
  name : option pystr;
  org_name : option pystr;
  charsetnr : Z;
  length : Z;
  type : Z;
  flags : Z;
  decimals : Z;
  (* [_read_lcstr]'s whole result, a pair, or None *)
  default : option (option pystr * Z)
}.

Definition parse_packet (packet : bytes) (pos : Z) : result t :=
  '(catalog, pos) <- _read_lcstr packet pos ;;
  '(db, pos) <- _read_lcstr packet pos ;;
  '(table, pos) <- _read_lcstr packet pos ;;
  '(org_table, pos) <- _read_lcstr packet pos ;;
  '(name, pos) <- _read_lcstr packet pos ;;
  '(org_name, pos) <- _read_lcstr packet pos ;;
  let pos := pos + 1 in
  vs <- unpack_from FIELD_STR packet pos ;;
  match vs with
  | [VInt charset; VInt length; VInt type; VInt flags; VInt decimals] =>
      let pos := pos + Z.of_nat (calcsize FIELD_STR) + 2 in
      default <-
        (if len packet >? pos then
           d <- _read_lcstr packet pos ;; Ok (Some d)
         else Ok None) ;;
      Ok (mk catalog db table org_table name org_name
             charset length type flags decimals default)
  | _ => Err ValueError
  end.

End Field.

(** ** The type-dispatch table *)

Inductive converter : Type :=
| cvt_Decimal
| cvt_int
| cvt_float
| cvt_none      (* lambda a: None *)
| cvt_str       (* lambda a: str(a, 'utf-8') *)
| cvt_set       (* lambda a: set(s.decode('utf-8').split(',')) *)
| cvt_bytes.

(** [FIELD_MAPPING.get] *)
Definition FIELD_MAPPING (type : Z) : option converter :=
  if type =? 0 then Some cvt_Decimal
  else if type =? 1 then Some cvt_int
  else if type =? 2 then Some cvt_int
  else if type =? 3 then Some cvt_int
  else if type =? 4 then Some cvt_float
  else if type =? 5 then Some cvt_float
  else if type =? 6 then Some cvt_none
  else if type =? 9 then Some cvt_int
  else if type =? 13 then Some cvt_int
  else if type =? 15 then Some cvt_str
  else if type =? 246 then Some cvt_Decimal
  else if type =? 247 then Some cvt_str
  else if type =? 248 then Some cvt_set
  else if type =? 249 then Some cvt_bytes
  else if type =? 250 then Some cvt_bytes
  else if type =? 251 then Some cvt_bytes
  else if type =? 252 then Some cvt_bytes
  else if type =? 253 then Some cvt_str
  else if type =? 254 then Some cvt_str
  else None.

(** A type code outside the table. *)
Definition unsupported (f : Field.t) : Prop :=
  FIELD_MAPPING (Field.type f) = None.

(** ** Result sets

    The constructors [Decimal], [int], [float] and [bytes] are Python's
    own; row decoding is stated for any behaviour of theirs, over any type
    of column values. *)

Section Resultset.

Variable colvalue : Type.
Variable col_none : colvalue.
Variable col_str : pystr -> colvalue.
Variables py_Decimal py_int py_float py_bytes
  : option bytes -> result colvalue.

Definition call (cvt : converter) (col : option bytes) : result colvalue :=
  match cvt with
  | cvt_Decimal => py_Decimal col
  | cvt_int => py_int col
  | cvt_float => py_float col
  | cvt_none => Ok col_none
  | cvt_str =>
      match col with
      | Some a => s <- decode_utf8 a ;; Ok (col_str s)
      | None => Err TypeError
      end
  | cvt_set => Err NameError   (* [s] is not defined *)
  | cvt_bytes => py_bytes col
  end.

Record Resultset : Type := mkResultset {
  nfields : value;
  extra : value;
  fields : list Field.t;
  reply : list bytes
}.

Fixpoint parse_fields (packets : list bytes) : result (list Field.t) :=
  match packets with
  | [] => Ok []
  | fp :: rest =>
      f <- Field.parse_packet fp 0 ;;
      fs <- parse_fields rest ;;
      Ok (f :: fs)
  end.

(** [Resultset.__init__] *)
Definition Resultset_init (reply : list bytes) (nfields extra : value)
  : result Resultset :=
  stop <- add_int 1 nfields ;;
  fields <- parse_fields (slice reply 1 stop) ;;
  Ok (mkResultset nfields extra fields reply).

(** A dict with [str] or None keys, in insertion order. *)
Definition key_eqb (a b : option pystr) : bool :=
  match a, b with
  | None, None => true
  | Some x, Some y => if list_eq_dec Z.eq_dec x y then true else false
  | _, _ => false
  end.

Definition row := list (option pystr * colvalue).

Fixpoint setitem (d : row) (k : option pystr) (v : colvalue) : row :=
  match d with
  | [] => [(k, v)]
  | (k', v') :: rest =>
      if key_eqb k' k then (k', v) :: rest else (k', v') :: setitem rest k v
  end.

(** The inner [for f in self.fields] of [__iter__]. *)
Fixpoint iter_fields (fs : list Field.t) (rpacket : bytes) (pos : Z)
    (r : row) : result row :=
  match fs with
  | [] => Ok r
  | f :: rest =>
      '(col, pos) <- _read_lcbytes rpacket pos ;;
      match FIELD_MAPPING (Field.type f) with
      | None => Err (RuntimeError (Field.type f))
      | Some cvt =>
          v <- call cvt col ;;
          iter_fields rest rpacket pos (setitem r (Field.name f) v)
      end
  end.

(** The inner [for f in self.fields] of [tuples]. *)
Fixpoint tuples_fields (fs : list Field.t) (rpacket : bytes) (pos : Z)
    (buf : list colvalue) : result (list colvalue) :=
  match fs with
  | [] => Ok buf
  | f :: rest =>
      '(col, pos) <- _read_lcbytes rpacket pos ;;
      match FIELD_MAPPING (Field.type f) with
      | None => Err (RuntimeError (Field.type f))
      | Some cvt =>
          v <- call cvt col ;;
          tuples_fields rest rpacket pos (buf ++ [v])
      end
  end.

(** A traversal of a generator: what it yields, in order, and the
    exception that ends it, if one does. *)
Fixpoint generate {R} (body : bytes -> result R) (packets : list bytes)
  : list R * option exn :=
  match packets with
  | [] => ([], None)
  | rpacket :: rest =>
      match body rpacket with
      | Ok r => let (rs, e) := generate body rest in (r :: rs, e)
      | Err e => ([], Some e)
      end
  end.

(** [self.reply[self.nfields+2:-1]] *)
Definition row_packets (rs : Resultset) : result (list bytes) :=
  start <- add_int 2 (nfields rs) ;;
  Ok (slice (reply rs) start (-1)).

Definition Resultset_iter (rs : Resultset) : list row * option exn :=
  match row_packets rs with
  | Err e => ([], Some e)
  | Ok packets =>
      generate (fun rpacket => iter_fields (fields rs) rpacket 0 []) packets
  end.

(** [buf] is empty whenever a row starts: it is emptied after each
    [yield], and the tuple yielded is a copy. *)
Definition Resultset_tuples (rs : Resultset)
  : list (list colvalue) * option exn :=
  match row_packets rs with
  | Err e => ([], Some e)
  | Ok packets =>
      generate (fun rpacket => tuples_fields (fields rs) rpacket 0 []) packets
  end.

End Resultset.

(** ** Capabilities *)

(** [bool(num & mask)] *)
Definition has (num mask : Z) : bool := negb (Z.land num mask =? 0).

(** [if flag: num |= mask] *)
Definition set_if (flag : bool) (mask num : Z) : Z :=
  if flag then Z.lor num mask else num.

Module Capabilities.

(** The seventeen attributes [__init__] sets, and [multi_statement], an
    attribute an object has only once something assigns to it. *)
Record t : Type := mk {
  long_password : bool;
  found_rows : bool;
  long_flag : bool;
  connect_with_db : bool;
  no_schema : bool;
  compress : bool;
  odbc : bool;
  local_files : bool;
  ignore_space : bool;
  protocol_41 : bool;
  interactive : bool;
  ssl : bool;
  ignore_sigpipe : bool;
  transactions : bool;
  secure_connection : bool;
  multi_statements : bool;
  multi_results : bool;
  multi_statement : option bool
}.

Definition init (num : Z) : t :=
  {| long_password := has num 1;
     found_rows := has num 2;
     long_flag := has num 4;
     connect_with_db := has num 8;
     no_schema := has num 16;
     compress := has num 32;
     odbc := has num 64;
     local_files := has num 128;
     ignore_space := has num 256;
     protocol_41 := has num 512;
     interactive := has num 1024;
     ssl := has num 2048;
     ignore_sigpipe := has num 4096;
     transactions := has num 8192;
     secure_connection := has num 32768;
     multi_statements := has num 65536;
     multi_results := has num 131072;
     multi_statement := None |}.

Definition to_int (self : t) : Z :=
  let num := 0 in
  let num := set_if (long_password self) 1 num in
  let num := set_if (found_rows self) 2 num in
  let num := set_if (long_flag self) 4 num in
  let num := set_if (connect_with_db self) 8 num in
  let num := set_if (no_schema self) 16 num in
  let num := set_if (compress self) 32 num in
  let num := set_if (odbc self) 64 num in
  let num := set_if (local_files self) 128 num in
  let num := set_if (ignore_space self) 256 num in
  let num := set_if (protocol_41 self) 512 num in
  let num := set_if (interactive self) 1024 num in
  let num := set_if (ssl self) 2048 num in
  let num := set_if (ignore_sigpipe self) 4096 num in
  let num := set_if (transactions self) 8192 num in
  let num := set_if (secure_connection self) 32768 num in
  let num := set_if (multi_statements self) 65536 num in
  let num := set_if (multi_results self) 131072 num in
  num.

(** Attribute assignments made by the handshake. *)
Definition set_odbc (v : bool) (c : t) : t :=
  mk (long_password c) (found_rows c) (long_flag c) (connect_with_db c)
     (no_schema c) (compress c) v (local_files c) (ignore_space c)
     (protocol_41 c) (interactive c) (ssl c) (ignore_sigpipe c)
     (transactions c) (secure_connection c) (multi_statements c)
     (multi_results c) (multi_statement c).

Definition set_compress (v : bool) (c : t) : t :=
  mk (long_password c) (found_rows c) (long_flag c) (connect_with_db c)
     (no_schema c) v (odbc c) (local_files c) (ignore_space c)
     (protocol_41 c) (interactive c) (ssl c) (ignore_sigpipe c)
     (transactions c) (secure_connection c) (multi_statements c)
     (multi_results c) (multi_statement c).

Definition set_multi_statement (v : bool) (c : t) : t :=
  mk (long_password c) (found_rows c) (long_flag c) (connect_with_db c)
     (no_schema c) (compress c) (odbc c) (local_files c) (ignore_space c)
     (protocol_41 c) (interactive c) (ssl c) (ignore_sigpipe c)
     (transactions c) (secure_connection c) (multi_statements c)
     (multi_results c) (Some v).

Definition set_multi_results (v : bool) (c : t) : t :=
  mk (long_password c) (found_rows c) (long_flag c) (connect_with_db c)
     (no_schema c) (compress c) (odbc c) (local_files c) (ignore_space c)
     (protocol_41 c) (interactive c) (ssl c) (ignore_sigpipe c)
     (transactions c) (secure_connection c) (multi_statements c)
     v (multi_statement c).

Definition set_ssl (v : bool) (c : t) : t :=
  mk (long_password c) (found_rows c) (long_flag c) (connect_with_db c)
     (no_schema c) (compress c) (odbc c) (local_files c) (ignore_space c)
     (protocol_41 c) (interactive c) v (ignore_sigpipe c)
     (transactions c) (secure_connection c) (multi_statements c)
     (multi_results c) (multi_statement c).

Definition set_transactions (v : bool) (c : t) : t :=
  mk (long_password c) (found_rows c) (long_flag c) (connect_with_db c)
     (no_schema c) (compress c) (odbc c) (local_files c) (ignore_space c)
     (protocol_41 c) (interactive c) (ssl c) (ignore_sigpipe c)
     v (secure_connection c) (multi_statements c)
     (multi_results c) (multi_statement c).

(** The union of the seventeen masks. *)
Definition all_masks : Z :=
  1 + 2 + 4 + 8 + 16 + 32 + 64 + 128 + 256 + 512 + 1024 + 2048 + 4096 + 8192
  + 32768 + 65536 + 131072.

End Capabilities.

(** ** Stateful code: exceptions over a mutable object *)

Definition M (S A : Type) : Type := S -> result A * S.

Definition ret {S A} (a : A) : M S A := fun s => (Ok a, s).

Definition mbind {S A B} (m : M S A) (k : A -> M S B) : M S B :=
  fun s =>
    match m s with
    | (Ok a, s') => k a s'
    | (Err e, s') => (Err e, s')
    end.

Definition lift {S A} (r : result A) : M S A := fun s => (r, s).

Definition modify {S} (f : S -> S) : M S unit := fun s => (Ok tt, f s).

Definition get {S} : M S S := fun s => (Ok s, s).

Notation "x <~ m ;; k" := (mbind m (fun x => k))
  (at level 61, m at next level, right associativity) : py_scope.
Notation "' pat <~ m ;; k" := (mbind m (fun v => match v with pat => k end))
  (at level 61, pat pattern, m at next level, right associativity) : py_scope.
Notation "m ;;~ k" := (mbind m (fun _ => k))
  (at level 61, right associativity) : py_scope.

(** ** More of [struct] and [bytearray] *)

Fixpoint pack (fmt : list fmt_item) (vs : list value) : result bytes :=
  match fmt with
  | [] => match vs with [] => Ok [] | _ => Err StructError end
  | fx :: rest => t <- pack rest vs ;; Ok (x00 :: t)
  | fs n :: rest =>
      match vs with
      | VBytes s :: vs' =>
          t <- pack rest vs' ;; Ok (firstn n (s ++ repeat x00 n) ++ t)
      | _ => Err StructError
      end
  | it :: rest =>
      match vs with
      | VInt z :: vs' =>
          if (0 <=? z) && (z <? 2 ^ (8 * Z.of_nat (item_size it))) then
            t <- pack rest vs' ;; Ok (le_bytes (item_size it) z ++ t)
          else Err StructError
      | _ => Err StructError
      end
  end.

(** What may stand on the right of [buf += ...]. *)
Inductive operand : Type :=
| of_bytes (s : bytes)
| of_str (s : pystr).

(** [buf += x] for a bytearray [buf]: a [str] cannot be added. *)
Definition iadd (buf : bytes) (x : operand) : result bytes :=
  match x with
  | of_bytes s => Ok (buf ++ s)
  | of_str _ => Err TypeError
  end.

Fixpoint set_nth {A} (l : list A) (i : nat) (a : A) : option (list A) :=
  match l, i with
  | [], _ => None
  | _ :: rest, O => Some (a :: rest)
  | x :: rest, S j => option_map (cons x) (set_nth rest j a)
  end.

(** [buf[i] = z] for [i >= 0] *)
Definition store (buf : bytes) (i : nat) (z : Z) : result bytes :=
  if (0 <=? z) && (z <? 256) then
    match set_nth buf i (byte_of_Z z) with
    | Some buf' => Ok buf'
    | None => Err IndexError
    end
  else Err ValueError.

(** [haystack.split(b'\0', 1)] unpacked into two names. *)
Fixpoint split_nul (s : bytes) : result (bytes * bytes) :=
  match s with
  | [] => Err ValueError
  | c :: rest =>
      if Byte.eqb c x00 then Ok ([], rest)
      else '(p, q) <- split_nul rest ;; Ok (c :: p, q)
  end.

(** ** The channel *)

(** A reply is a tuple of packet payloads. *)
Definition Reply := list bytes.

Definition reply_eqb (a b : Reply) : bool :=
  if list_eq_dec (list_eq_dec Byte.byte_eq_dec) a b then true else false.

Definition OK_PACKET : Reply := [[x00; x00; x00; x02; x00; x00; x00]].

Inductive family : Type := AF_UNIX | AF_INET.

Inductive address : Type :=
| unix_address (path : pystr)
| inet_address (host : pystr) (port : Z).

Record socket : Type := { sock_family : family; blocking : bool }.

(** [sock.setblocking(flag)]; None has no such method. *)
Definition setblocking (sock : option socket) (flag : bool) : result socket :=
  match sock with
  | Some s => Ok {| sock_family := sock_family s; blocking := flag |}
  | None => Err AttributeError
  end.

(** A local variable of a function body. *)
Inductive local (A : Type) : Type :=
| Unbound
| Bound (a : A).
Arguments Unbound {A}.
Arguments Bound {A} a.

Definition read {A} (x : local A) : result A :=
  match x with
  | Unbound => Err UnboundLocalError
  | Bound a => Ok a
  end.

Definition str_eqb (a b : pystr) : bool :=
  if list_eq_dec Z.eq_dec a b then true else false.

Record Channel : Type := mkChannel {
  (* [channel.PipelinedReqChannel] *)
  _alive : bool;
  requests : list bytes;
  replies : list Reply;
  (* [Channel] *)
  _sock : socket;
  __addr : address;
  thread_id : option Z;
  language : option Z;
  status : option Z;
  capabilities : option Capabilities.t
}.

Definition set_alive (v : bool) (c : Channel) : Channel :=
  mkChannel v (requests c) (replies c) (_sock c) (__addr c) (thread_id c)
    (language c) (status c) (capabilities c).

Definition set_queues (rq : list bytes) (rp : list Reply) (c : Channel)
  : Channel :=
  mkChannel (_alive c) rq rp (_sock c) (__addr c) (thread_id c)
    (language c) (status c) (capabilities c).

Definition set_greeting (tid lang st : Z) (c : Channel) : Channel :=
  mkChannel (_alive c) (requests c) (replies c) (_sock c) (__addr c)
    (Some tid) (Some lang) (Some st) (capabilities c).

Definition set_capabilities (caps : Capabilities.t) (c : Channel) : Channel :=
  mkChannel (_alive c) (requests c) (replies c) (_sock c) (__addr c)
    (thread_id c) (language c) (status c) (Some caps).

(** Modelled from the spec: the base class [channel.PipelinedReqChannel]
    and [core.Future], which are not among the sources.  A request is
    queued for the sender, and the replies the receiver produces resolve
    the pending completions oldest first; [replies] holds the replies still
    to come, [requests] what was submitted.  A dead channel refuses a
    submission, and a connection that ends fails the channel. *)
Definition fut_get : M Channel Reply :=
  fun c =>
    match replies c with
    | r :: rest => (Ok r, set_queues (requests c) rest c)
    | [] => (Err EOFError, set_alive false c)
    end.

Definition request (buf : bytes) : M Channel unit :=
  fun c =>
    if _alive c then (Ok tt, set_queues (requests c ++ [buf]) (replies c) c)
    else (Err PipeError, c).

(** Modelled from the spec: the truth value of a channel object, which
    the base class [channel.PipelinedReqChannel] defines and which is not
    among the sources.  A client reuses its channel while the channel is
    live: a channel is true exactly while it is alive. *)
Definition Channel_bool (c : Channel) : bool := _alive c.

Definition xor_bytes (h1 h2 : bytes) : bytes :=
  map (fun p => byte_of_Z (Z.lxor (byte_val (fst p)) (byte_val (snd p))))
      (combine h1 h2).

Definition greeting_fmt := [fL; fs 8; fx; fH; fB; fH; fH; fB].

Definition auth_fmt := [fL; fs 4; fB; fs 23].

(** [execute_result(insert_id, affected_rows)], and whether
    [warnings.warn] was called. *)
Record execute_result : Type := {
  insert_id : value;
  affected_rows : value;
  warned : bool
}.

Record Mysql : Type := mkMysql {
  _channel : option Channel;
  host : pystr;
  port : Z;
  unixsock : pystr;
  user : pystr;
  password : pystr;
  database : pystr
}.

Definition set_channel (ch : Channel) (self : Mysql) : Mysql :=
  mkMysql (Some ch) (host self) (port self) (unixsock self) (user self)
    (password self) (database self).

(** The length of the payload written into the first three bytes of a
    packet, as [_connect], [execute] and [query] each do:
    [ln = len(buf)-4; buf[0] = ln & 0xFF; buf[1] = (ln >> 8) & 0xFF;
    buf[2] = (ln >> 16) & 0xFF]. *)
Definition set_length (buf : bytes) : result bytes :=
  let ln := len buf - 4 in
  buf <- store buf 0 (Z.land ln 255) ;;
  buf <- store buf 1 (Z.land (Z.shiftr ln 8) 255) ;;
  buf <- store buf 2 (Z.land (Z.shiftr ln 16) 255) ;;
  Ok buf.

(** The command packet of a text statement, built the same way by
    [execute] and [query]. *)
Definition command_packet (query : pystr) : result bytes :=
  let buf := [x00; x00; x00; x00] in
  buf <- iadd buf (of_bytes [x03]) ;;
  q <- encode_utf8 query ;;
  buf <- iadd buf (of_bytes q) ;;
  set_length buf.

(** The fields of an OK payload, read the way [execute] reads them
    (lines 393 to 397): the leading byte, the affected-row count, the
    last insert id, the server status and the warning count. *)
Definition ok_fields (reply : bytes) : result (Z * value * value * Z * Z) :=
  r0 <- index reply 0 ;;
  let pos := 1 in
  '(affected_rows, pos) <- (r <- _read_lcb reply pos ;; unpack2 r) ;;
  '(insert_id, pos) <- (r <- _read_lcb reply pos ;; unpack2 r) ;;
  vs <- unpack_from [fH; fH] reply pos ;;
  match vs with
  | [VInt server_status; VInt warning_count] =>
      Ok (byte_val r0, affected_rows, insert_id, server_status, warning_count)
  | _ => Err ValueError
  end.

(** What the six assignments of the handshake leave of the server's
    capabilities. *)
Definition negotiated (caps0 : Capabilities.t) : Capabilities.t :=
  Capabilities.set_transactions false
    (Capabilities.set_ssl false
       (Capabilities.set_multi_results false
          (Capabilities.set_multi_statement false
             (Capabilities.set_compress false
                (Capabilities.set_odbc false caps0))))).

(** The client once a statement [buf] was submitted on its channel [ch]
    and the reply taken, [rest] being the replies still to come. *)
Definition exchanged (self : Mysql) (ch : Channel) (buf : bytes)
    (rest : list Reply) : Mysql :=
  set_channel (set_queues (requests ch ++ [buf]) rest ch) self.

(** The file system ([os.path.exists]), [hashlib.sha1] and the replies the
    peer of a new connection will give are the environment of a client. *)
Section Client.

Variable path_exists : pystr -> bool.
Variable sha1 : bytes -> bytes.
Variable peer : list Reply.

(** [Channel.__init__] *)
Definition Channel_init (host : pystr) (port : Z) (unixsock : pystr)
  : result Channel :=
  let sock : local (option socket) := Unbound in
  let addr : local address := Unbound in
  let '(sock, addr) :=
    if str_eqb host (str_of "localhost") then
      if path_exists unixsock then
        (Bound (Some {| sock_family := AF_UNIX; blocking := true |}),
         Bound (unix_address unixsock))
      else (sock, addr)
    else (sock, addr) in
  s <- read sock ;;
  let '(sock, addr) :=
    match s with
    | None =>
        (Bound (Some {| sock_family := AF_INET; blocking := true |}),
         Bound (inet_address host port))
    | Some _ => (sock, addr)
    end in
  s <- read sock ;;
  sk <- setblocking s false ;;
  a <- read addr ;;
  Ok {| _alive := true; requests := []; replies := peer;
        _sock := sk; __addr := a;
        thread_id := None; language := None; status := None;
        capabilities := None |}.

(** Lines 255 to 276 of [_connect]: the client authentication packet. *)
Definition auth_packet (caps : Capabilities.t) (scramble : bytes)
    (user password database : pystr) : result bytes :=
  let buf := [x00; x00; x00; x01] in
  p <- pack auth_fmt
         [VInt (Z.land (Capabilities.to_int caps) 65535);
          VBytes [x8f; xff; xff; xff];
          VInt 33;
          VBytes (repeat x00 23)] ;;
  buf <- iadd buf (of_bytes p) ;;
  u <- encode_ascii user ;;
  buf <- iadd buf (of_bytes u) ;;
  buf <- iadd buf (of_bytes [x00]) ;;
  buf <-
    (match password with
     | _ :: _ =>
         buf <- iadd buf (of_str [20]) ;;
         pw <- encode_ascii password ;;
         let hash1 := sha1 pw in
         let hash2 := sha1 (scramble ++ sha1 hash1) in
         iadd buf (of_bytes (xor_bytes hash1 hash2))
     | [] => iadd buf (of_bytes [x00])
     end) ;;
  d <- encode_ascii database ;;
  buf <- iadd buf (of_bytes d) ;;
  buf <- iadd buf (of_bytes [x00]) ;;
  set_length buf.

(** Lines 246 to 254 of [_connect]: the capabilities kept from the
    server's. *)
Definition negotiate (caphigh caplow : Z) : M Channel Capabilities.t :=
  let caps := Capabilities.init (Z.shiftl caphigh 16 + caplow) in
  modify (set_capabilities caps) ;;~
  lift (py_assert (Capabilities.protocol_41 caps)) ;;~
  lift (py_assert (Capabilities.connect_with_db caps)) ;;~
  let caps := Capabilities.set_odbc false caps in
  let caps := Capabilities.set_compress false caps in
  let caps := Capabilities.set_multi_statement false caps in
  let caps := Capabilities.set_multi_results false caps in
  let caps := Capabilities.set_ssl false caps in
  let caps := Capabilities.set_transactions false caps in
  modify (set_capabilities caps) ;;~
  ret caps.

(** Line 278 of [_connect] *)
Definition check_auth (value : Reply) : result unit :=
  py_assert (reply_eqb value OK_PACKET).

(** [_connect] up to line 276: the greeting is awaited and parsed, the
    capabilities negotiated, the authentication packet composed.  The
    placeholder completion queued first is the one the greeting resolves;
    the transport is taken to connect. *)
Definition greet (user password database : pystr) : M Channel bytes :=
  r <~ fut_get ;;
  handshake <~ lift (match r with
                     | [h] => Ok h
                     | _ => Err ValueError
                     end) ;;
  h0 <~ lift (index handshake 0) ;;
  lift (py_assert (byte_val h0 =? 10)) ;;~
  '(prefix, suffix) <~ lift (split_nul (slice_from handshake 0)) ;;
  vs <~ lift (unpack_from greeting_fmt suffix 0) ;;
  match vs with
  | [VInt tid; VBytes scramble; VInt caplow; VInt lang; VInt st;
     VInt caphigh; VInt scrlen] =>
      modify (set_greeting tid lang st) ;;~
      caps <~ negotiate caphigh caplow ;;
      lift (auth_packet caps scramble user password database)
  | _ => lift (Err ValueError)
  end.

(** [Channel._connect] *)
Definition Channel__connect (user password database : pystr)
  : M Channel unit :=
  buf <~ greet user password database ;;
  request buf ;;~
  value <~ fut_get ;;
  lift (check_auth value).

(** [Channel.connect]: any exception kills the channel and is raised
    again. *)
Definition Channel_connect (user password database : pystr)
  : M Channel unit :=
  fun c =>
    match Channel__connect user password database c with
    | (Ok tt, c') => (Ok tt, c')
    | (Err e, c') => (Err e, set_alive false c')
    end.

(** The body of [with self._channel_lock] once the test has found no
    channel: a channel is made and assigned, then its handshake runs.
    When the handshake raises, the dead channel stays assigned. *)
Definition new_channel : M Mysql Channel :=
  fun self =>
    match Channel_init (host self) (port self) (unixsock self) with
    | Err e => (Err e, self)
    | Ok ch =>
        match Channel_connect (user self) (password self)
                (database self) ch with
        | (Ok tt, ch') => (Ok ch', set_channel ch' self)
        | (Err e, ch') => (Err e, set_channel ch' self)
        end
    end.

(** [Mysql.channel]: [not self._channel] holds for None and for a
    channel whose truth value is false. *)
Definition Mysql_channel : M Mysql Channel :=
  fun self =>
    match _channel self with
    | Some ch => if Channel_bool ch then (Ok ch, self) else new_channel self
    | None => new_channel self
    end.

(** Runs a method of the channel object [self._channel] refers to. *)
Definition on_channel {A} (m : M Channel A) : M Mysql A :=
  fun self =>
    match _channel self with
    | Some ch => let (r, ch') := m ch in (r, set_channel ch' self)
    | None => (Err AttributeError, self)
    end.

(** [Mysql.execute] *)
Definition Mysql_execute (query : pystr) : M Mysql execute_result :=
  Mysql_channel ;;~
  buf <~ lift (command_packet query) ;;
  on_channel (request buf) ;;~
  reply <~ on_channel fut_get ;;
  lift (py_assert (len reply =? 1)) ;;~
  reply <~ lift (index reply 0) ;;
  r0 <~ lift (index reply 0) ;;
  lift (py_assert (byte_val r0 =? 0)) ;;~
  let pos := 1 in
  '(affected_rows, pos) <~ lift (r <- _read_lcb reply pos ;; unpack2 r) ;;
  '(insert_id, pos) <~ lift (r <- _read_lcb reply pos ;; unpack2 r) ;;
  vs <~ lift (unpack_from [fH; fH] reply pos) ;;
  match vs with
  | [VInt server_status; VInt warning_count] =>
      ret {| insert_id := insert_id; affected_rows := affected_rows;
             warned := negb (warning_count =? 0) |}
  | _ => lift (Err ValueError)
  end.

(** [Mysql.query] *)
Definition Mysql_query (query : pystr) : M Mysql Resultset :=
  Mysql_channel ;;~
  buf <~ lift (command_packet query) ;;
  on_channel (request buf) ;;~
  reply <~ on_channel fut_get ;;
  r0 <~ lift (index reply 0) ;;
  r00 <~ lift (index r0 0) ;;
  lift (py_assert (negb ((byte_val r00 =? 0) || (byte_val r00 =? 255)
                         || (byte_val r00 =? 254)))) ;;~
  '(nfields, pos) <~ lift (r <- _read_lcb r0 0 ;; unpack2 r) ;;
  '(extra, pos) <~
    lift (if pos <? len r0 then r <- _read_lcb r0 pos ;; unpack2 r
          else Ok (VInt 0, pos)) ;;
  lift (Resultset_init reply nfields extra).

End Client.

(** ** The receiver loop of the channel *)

Module receiver.

(** The locals of [Channel.receiver], and the replies handed to
    [self.produce] so far. *)
Record state : Type := mk {
  buf : bytes;
  pos : Z;
  current : list bytes;
  fields : bool;
  handshake : Z;
  produced : list Reply
}.

(** The locals as [receiver] initialises them. *)
Definition start : state :=
  {| buf := []; pos := 0; current := []; fields := false; handshake := 0;
     produced := [] |}.

Definition with_pos (p : Z) (s : state) : state :=
  mk (buf s) p (current s) (fields s) (handshake s) (produced s).

Definition with_current (cur : list bytes) (s : state) : state :=
  mk (buf s) (pos s) cur (fields s) (handshake s) (produced s).

Definition with_fields (f : bool) (s : state) : state :=
  mk (buf s) (pos s) (current s) f (handshake s) (produced s).

Definition with_handshake (h : Z) (s : state) : state :=
  mk (buf s) (pos s) (current s) (fields s) h (produced s).

(** Modelled from the spec: [self.produce], of the base class
    [channel.PipelinedReqChannel], hands a completed reply to the oldest
    pending completion; the replies are recorded in the order they are
    produced. *)
Definition produce (r : Reply) (s : state) : state :=
  mk (buf s) (pos s) (current s) (fields s) (handshake s)
     (produced s ++ [r]).

(** [self.produce(tuple(current)); del current[:]; fields = False] *)
Definition emit (s : state) : state :=
  with_fields false (with_current [] (produce (current s) s)).

(** One pass through the body of [while len(buf)-pos >= 4]: the state
    at the next test of the loop condition. *)
Definition body (s : state) : result state :=
  b0 <- index (buf s) (pos s) ;;
  b1 <- index (buf s) (pos s + 1) ;;
  b2 <- index (buf s) (pos s + 2) ;;
  let length := byte_val b0 + Z.shiftl (byte_val b1) 8
                + Z.shiftl (byte_val b2) 16 in
  if len (buf s) - pos s <? length + 4 then
    Ok s                                        (* continue *)
  else
    num <- index (buf s) (pos s + 3) ;;
    ptype <- index (buf s) (pos s + 4) ;;
    let s := with_current
               (current s ++ [slice (buf s) (pos s + 4)
                                (pos s + length + 4)]) s in
    '(ptype, s) <-
      (if handshake s <? 2 then
         Ok (0, with_handshake (handshake s + 1) s)
       else
         py_assert (byte_val num =? len (current s)) ;;;
         Ok (byte_val ptype, s)) ;;
    let s :=
      if (ptype =? 0) || (ptype =? 255) then emit s
      else if ptype =? 254 then
        if fields s then emit s else with_fields true s
      else s in
    Ok (with_pos (pos s + length + 4) s).

(** How a loop run with a bound on its passes ends. *)
Inductive outcome : Type :=
| Exits (s : state)       (* the loop condition became false *)
| Raises (e : exn)
| Running (s : state).    (* still in the loop after all the passes *)

(** [while len(buf)-pos >= 4: ...], at most [passes] passes. *)
Fixpoint frames (passes : nat) (s : state) : outcome :=
  if len (buf s) - pos s >=? 4 then
    match passes with
    | O => Running s
    | S n =>
        match body s with
        | Ok s' => frames n s'
        | Err e => Raises e
        end
    end
  else Exits s.

(** One pass of the outer [while True] in which [sock.recv] returns
    [chunk]: compaction, the read, then the frame loop. *)
Definition on_recv (passes : nat) (chunk : bytes) (s : state) : outcome :=
  let s :=
    if pos s * 2 >? len (buf s) then
      mk (slice_from (buf s) (pos s)) 0 (current s) (fields s)
         (handshake s) (produced s)
    else s in
  match chunk with
  | [] => Raises EOFError
  | _ =>
      frames passes
        (mk (buf s ++ chunk) (pos s) (current s) (fields s) (handshake s)
            (produced s))
  end.

End receiver.

(** ** Test vectors *)

Module vectors.

(** A packet on the wire: three bytes of length, the sequence number,
    the payload. *)
Definition frame (seq : byte) (payload : bytes) : bytes :=
  le_bytes 3 (len payload) ++ [seq] ++ payload.

(** A column of type 8 (a 64-bit integer), which FIELD_MAPPING lacks. *)
Definition bigint_field : Field.t :=
  Field.mk (Some (str_of "def")) (Some (str_of "test")) (Some (str_of "t"))
    (Some (str_of "t")) (Some (str_of "id")) (Some (str_of "id"))
    63 20 8 0 0 None.

(** One column, one row holding the text 7. *)
Definition bigint_rows : Resultset :=
  {| nfields := VInt 1;
     extra := VInt 0;
     fields := [bigint_field];
     reply := [[x01]; [x00]; [xfe]; [x01; x37]; [xfe]] |}.

(** A server greeting: protocol 10, version 5.5, thread id 1, an
    8-byte scramble, capabilities f7ff and 800f, character set 33,
    status 2. *)
Definition greeting : bytes :=
  [x0a; x35; x2e; x35; x00;
   x01; x00; x00; x00;
   x61; x62; x63; x64; x65; x66; x67; x68;
   x00;
   xff; xf7;
   x21;
   x02; x00;
   x0f; x80;
   x15;
   x00; x00; x00; x00; x00; x00; x00; x00; x00; x00;
   x69; x6a; x6b; x6c; x6d; x6e; x6f; x70; x71; x72; x73; x74; x00].

(** The OK payload whose fields are all zero. *)
Definition zero_ok : bytes := [x00; x00; x00; x00; x00; x00; x00].

Definition unix_socket : socket :=
  {| sock_family := AF_UNIX; blocking := false |}.

(** A channel as [Channel.__init__] leaves it, over a connection on
    which the given replies will arrive. *)
Definition fresh_channel (incoming : list Reply) : Channel :=
  {| _alive := true; requests := []; replies := incoming;
     _sock := unix_socket;
     __addr := unix_address (str_of "/var/run/mysqld/mysqld.sock");
     thread_id := None; language := None; status := None;
     capabilities := None |}.

(** A client whose channel is established. *)
Definition client (incoming : list Reply) : Mysql :=
  {| _channel := Some (fresh_channel incoming);
     host := str_of "localhost"; port := 3306;
     unixsock := str_of "/var/run/mysqld/mysqld.sock";
     user := str_of "root"; password := []; database := str_of "test" |}.

(** The reply to a SELECT of one column and one row: header, field
    packet, EOF, row, EOF. *)
Definition rows_reply : Reply := [[x01]; [x03; x64; x65; x66]; [xfe];
                                  [x01; x37]; [xfe]].

Definition no_file (path : pystr) : bool := false.
Definition any_file (path : pystr) : bool := true.

(** Stands for [hashlib.sha1] where no digest is computed. *)
Definition no_digest (data : bytes) : bytes := [].

End vectors.

(** ** Encoders used to state round trips

    The module has decoders only; these build the byte strings the
    decoders are meant for. *)

(** A length-coded string in the one-byte form, for fewer than 251
    bytes. *)
Definition lc_short (s : bytes) : bytes := byte_of_Z (len s) :: s.

(** A length-coded string in the 253 form: three bytes of length. *)
Definition lc_u24 (s : bytes) : bytes := xfd :: le_bytes 3 (len s) ++ s.

(** What [_read_lcstr] makes of a column [_read_lcbytes] has read: NULL
    stays NULL, bytes are decoded as UTF-8. *)
Definition decode_text (r : option bytes * Z) : result (option pystr * Z) :=
  match r with
  | (None, p) => Ok (None, p)
  | (Some a, p) => s <- decode_utf8 a ;; Ok (Some s, p)
  end.

(** The dict a row of the positional view stands for: each value
    assigned, field after field, to the name of its field. *)
Definition assign_all {V : Type} (r : row V) (fs : list Field.t)
    (vs : list V) : row V :=
  fold_left (fun d fv => setitem V d (Field.name (fst fv)) (snd fv))
    (combine fs vs) r.

(** ** More test vectors *)

(** A field of the given name and type code. *)
Definition field_of (name : string) (type : Z) : Field.t :=
  Field.mk (Some (str_of "def")) (Some (str_of "test")) (Some (str_of "t"))
    (Some (str_of "t")) (Some (str_of name)) (Some (str_of name))
    33 11 type 0 0 None.

(** Two columns, an int and a text, and the rows (1, alice) and (2, bob):
    header, two field packets, EOF, two rows, EOF.  The field packets
    are not parsed again and are left empty. *)
Definition two_rows : Resultset :=
  {| nfields := VInt 2;
     extra := VInt 0;
     fields := [field_of "id" 3; field_of "name" 253];
     reply := [[x02]; []; []; [xfe];
               lc_short [x31] ++ lc_short [x61; x6c; x69; x63; x65];
               lc_short [x32] ++ lc_short [x62; x6f; x62];
               [xfe]] |}.

(** The same columns, and the rows (1, alice), (2, NULL) and (3, bob):
    the second row has the byte 251, a NULL, for its text. *)
Definition null_name_rows : Resultset :=
  {| nfields := VInt 2;
     extra := VInt 0;
     fields := [field_of "id" 3; field_of "name" 253];
     reply := [[x02]; []; []; [xfe];
               lc_short [x31] ++ lc_short [x61; x6c; x69; x63; x65];
               lc_short [x32] ++ [xfb];
               lc_short [x33] ++ lc_short [x62; x6f; x62];
               [xfe]] |}.

(** Column values for evaluating the vectors: text is text, and the
    constructors of Python keep the raw column. *)
Inductive sample_value : Type :=
| null
| text (s : pystr)
| raw (col : option bytes).

Definition raw_column (col : option bytes) : result sample_value :=
  Ok (raw col).

(** The field packet of an int column named id, of table t, and the
    field it parses to. *)
Definition id_packet : bytes :=
  lc_short [x64; x65; x66] ++ lc_short [x74] ++ lc_short [x74]
  ++ lc_short [x74] ++ lc_short [x69; x64] ++ lc_short [x69; x64]
  ++ [x0c; x3f; x00; x0b; x00; x00; x00; x03; x03; x42; x00; x00; x00].

Definition id_field : Field.t :=
  Field.mk (Some (str_of "def")) (Some (str_of "t")) (Some (str_of "t"))
    (Some (str_of "t")) (Some (str_of "id")) (Some (str_of "id"))
    63 11 3 16899 0 None.

(** ** The receiver at the level of packets *)

(** What one pass of the frame loop does once a complete packet is
    read, with sequence number [q] and payload [p]: the body of the loop
    from the line that appends the payload on; the packet type is the
    first byte of the payload. *)
Definition accept (q : byte) (p : bytes) (s : receiver.state)
  : result receiver.state :=
  let ptype := hd x00 p in
  let s := receiver.with_current (receiver.current s ++ [p]) s in
  '(ptype, s) <-
    (if receiver.handshake s <? 2 then
       Ok (0, receiver.with_handshake (receiver.handshake s + 1) s)
     else
       py_assert (byte_val q =? len (receiver.current s)) ;;;
       Ok (byte_val ptype, s)) ;;
  let s :=
    if (ptype =? 0) || (ptype =? 255) then receiver.emit s
    else if ptype =? 254 then
      if receiver.fields s then receiver.emit s
      else receiver.with_fields true s
    else s in
  Ok (receiver.with_pos (receiver.pos s + len p + 4) s).

Fixpoint accept_all (ps : list (byte * bytes)) (s : receiver.state)
  : result receiver.state :=
  match ps with
  | [] => Ok s
  | (q, p) :: rest => s' <- accept q p s ;; accept_all rest s'
  end.

(** The bytes of a sequence of packets on the wire. *)
Definition stream_of (ps : list (byte * bytes)) : bytes :=
  List.concat (map (fun qp => vectors.frame (fst qp) (snd qp)) ps).

(** A payload the frame loop can hold: not empty, shorter than 2^24. *)
Definition payload_ok (qp : byte * bytes) : Prop :=
  snd qp <> [] /\ len (snd qp) < 2 ^ 24.

(** Payloads numbered from [k] on, as the packets of one reply are. *)
Fixpoint numbered (k : Z) (ps : list bytes) : list (byte * bytes) :=
  match ps with
  | [] => []
  | p :: rest => (byte_of_Z k, p) :: numbered (k + 1) rest
  end.

(** A packet that is neither OK (00), ERR (ff) nor a marker (fe). *)
Definition is_data (p : bytes) : Prop :=
  match p with
  | [] => False
  | t :: _ => byte_val t <> 0 /\ byte_val t <> 255 /\ byte_val t <> 254
  end.

Definition is_marker (p : bytes) : Prop :=
  match p with
  | [] => False
  | t :: _ => byte_val t = 254
  end.

(** ** The sender loop of the channel *)

Module sender.

(** What [sock.send(buf)] does in one pass: the socket has room for
    some bytes, or the call fails with an errno that is EAGAIN or EINTR,
    or with another one. *)
Inductive send : Type :=
| room (n : nat)
| transient
| failure (errno : Z).

Inductive error : Type :=
| EOF                      (* [raise EOFError()] *)
| socket_error (errno : Z).

(** The local [buf], and the bytes the socket has taken so far. *)
Record state : Type := mk {
  buf : bytes;
  wire : bytes
}.

Definition start : state := {| buf := []; wire := [] |}.

(** How a pass ends: at the end of the loop body or with its
    [continue], with an exception, or suspended in
    [self.wait_requests()]. *)
Inductive outcome : Type :=
| Continues (s : state)
| Raises (e : error) (s : state)
| Waits (s : state).

Definition state_of (o : outcome) : state :=
  match o with
  | Continues s => s
  | Raises _ s => s
  | Waits s => s
  end.

(** Modelled from the spec: [self.wait_requests()], of the base class
    [channel.PipelinedReqChannel], returns once at least one request is
    queued.  With an empty [buf] and nothing queued the pass stays
    there. *)
Definition wait_requests (pending : list bytes) : bool :=
  match pending with
  | [] => false
  | _ => true
  end.

(** One pass of [while True].  Modelled from the spec:
    [self.get_pending_requests()], of the base class, gives the request
    buffers queued since the last pass, in order: here [pending].
    [sock.send] returns how many bytes it took, at most what the socket
    has room for. *)
Definition pass (pending : list bytes) (r : send) (s : state) : outcome :=
  let ready :=
    match buf s with
    | [] => wait_requests pending              (* if not buf *)
    | _ => true
    end in
  if ready then
    let buf := fold_left (fun b chunk => b ++ chunk) pending (buf s) in
    match r with
    | transient => Continues (mk buf (wire s))             (* continue *)
    | failure errno => Raises (socket_error errno) (mk buf (wire s))
    | room n =>
        let bytes := Nat.min n (List.length buf) in
        match bytes with
        | O => Raises EOF (mk buf (wire s))
        | _ => Continues (mk (skipn bytes buf) (wire s ++ firstn bytes buf))
        end
    end
  else Waits s.

(** The passes for a sequence of events, up to the first that does not
    reach the next pass. *)
Fixpoint run (events : list (list bytes * send)) (s : state) : outcome :=
  match events with
  | [] => Continues s
  | (pending, r) :: rest =>
      match pass pending r s with
      | Continues s' => run rest s'
      | o => o
      end
  end.

End sender.

(** All the bytes of the requests handed to the sender, in order. *)
Definition submitted (events : list (list bytes * sender.send)) : bytes :=
  List.concat (List.concat (map fst events)).

(** * Properties *)

(** ** Bytes and indexing *)

Lemma byte_val_range (c : byte) : 0 <= byte_val c < 256.
Proof.
  unfold byte_val. pose proof (Byte.to_N_bounded c). lia.
Qed.

Lemma byte_val_of_Z (z : Z) : byte_val (byte_of_Z z) = z mod 256.
Proof.
  unfold byte_val, byte_of_Z.
  pose proof (Z.mod_pos_bound z 256 ltac:(lia)) as Hm.
  destruct (Byte.of_N (Z.to_N (z mod 256))) as [c|] eqn:E.
  - apply Byte.to_of_N in E. rewrite E. lia.
  - apply Byte.of_N_None_iff in E. lia.
Qed.

Lemma len_app {A} (l1 l2 : list A) : len (l1 ++ l2) = len l1 + len l2.
Proof. unfold len. rewrite length_app. lia. Qed.

Lemma len_nonneg {A} (l : list A) : 0 <= len l.
Proof. unfold len. lia. Qed.

Lemma index_app_r {A} (pre l : list A) (i : Z) :
  0 <= i -> index (pre ++ l) (len pre + i) = index l i.
Proof.
  intros Hi. unfold index.
  pose proof (len_nonneg pre) as Hp.
  destruct (len pre + i <? 0) eqn:E1; [lia|].
  destruct (i <? 0) eqn:E2; [lia|].
  rewrite E1, E2.
  rewrite nth_error_app2 by (unfold len in *; lia).
  replace (Z.to_nat (len pre + i) - List.length pre)%nat with (Z.to_nat i)
    by (unfold len; lia).
  reflexivity.
Qed.

Lemma index_head {A} (a : A) (l : list A) : index (a :: l) 0 = Ok a.
Proof. reflexivity. Qed.

(** ** The length-coded codec *)

Lemma read_lcb_small (buf : bytes) (pos : Z) (c : byte) :
  index buf pos = Ok c -> byte_val c < 251 ->
  _read_lcb buf pos = Ok (Some (VInt (byte_val c), pos + 1)).
Proof.
  intros Hc Hlt. unfold _read_lcb. rewrite Hc. cbn.
  destruct (byte_val c <? 251) eqn:E; [reflexivity | lia].
Qed.

Lemma read_lcb_null (buf : bytes) (pos : Z) :
  index buf pos = Ok xfb ->
  _read_lcb buf pos = Ok (Some (VNone, pos + 1)).
Proof. intros Hc. unfold _read_lcb. rewrite Hc. reflexivity. Qed.

Lemma read_lcb_u24 (buf : bytes) (pos : Z) (c1 c2 c3 : byte) :
  index buf pos = Ok xfd ->
  index buf (pos + 1) = Ok c1 ->
  index buf (pos + 2) = Ok c2 ->
  index buf (pos + 3) = Ok c3 ->
  _read_lcb buf pos
  = Ok (Some (VInt (byte_val c1 + 256 * byte_val c2 + 65536 * byte_val c3),
              pos + 4)).
Proof.
  intros H0 H1 H2 H3. unfold _read_lcb. rewrite H0. cbn -[Z.shiftl Z.add Z.mul].
  rewrite H1, H2, H3. cbn -[Z.shiftl Z.add Z.mul].
  rewrite !Z.shiftl_mul_pow2 by lia.
  do 4 f_equal. lia.
Qed.

(** After a leading byte 252 or 254 the value is never an int: it is the
    tuple [struct.unpack_from] made. *)
Lemma read_lcb_wide_is_tuple (buf : bytes) (pos : Z) (c : byte) r :
  index buf pos = Ok c -> c = xfc \/ c = xfe ->
  _read_lcb buf pos = Ok r ->
  exists t p, r = Some (VTuple t, p).
Proof.
  intros Hc Hw. unfold _read_lcb. rewrite Hc.
  destruct Hw; subst c; cbn.
  - destruct (unpack_from fmt_H buf (pos + 1)); cbn; intros H;
      inversion H; eauto.
  - destruct (unpack_from fmt_Q buf (pos + 1)); cbn; intros H;
      inversion H; eauto.
Qed.

(** With such a length [_read_lcbytes] cannot return. *)
Lemma read_lcbytes_wide_fails (buf : bytes) (pos : Z) (c : byte) :
  index buf pos = Ok c -> c = xfc \/ c = xfe ->
  is_ok (_read_lcbytes buf pos) = false.
Proof.
  intros Hc Hw. unfold _read_lcbytes. rewrite Hc.
  destruct Hw; subst c; cbn.
  - destruct (unpack_from fmt_H buf (pos + 1)); reflexivity.
  - destruct (unpack_from fmt_Q buf (pos + 1)); reflexivity.
Qed.

(** C1 (fails on the code): a length-coded integer with leading byte 252
    or 254 is said to decode to the little-endian integer of the bytes
    that follow, and a byte string to take its length by the same rule.
    On the bytes fc 01 02 the decoder returns the one-element tuple
    (513,) where the integer 513 is expected, on fe 01 00 .. 00 the tuple
    (1,), and the byte string fc 01 00 41 cannot be read at all: adding
    the tuple to the position raises TypeError. *)
Theorem read_lcb_u16_u64_not_int :
  _read_lcb [xfc; x01; x02] 0 = Ok (Some (VTuple [VInt 513], 3))
  /\ _read_lcb [xfc; x01; x02] 0 <> Ok (Some (VInt 513, 3))
  /\ _read_lcb [xfe; x01; x00; x00; x00; x00; x00; x00; x00] 0
     = Ok (Some (VTuple [VInt 1], 9))
  /\ _read_lcbytes [xfc; x01; x00; x41] 0 = Err TypeError
  /\ _read_lcbytes [xfe; x01; x00; x00; x00; x00; x00; x00; x00; x41] 0
     = Err TypeError.
Proof.
  repeat split; try reflexivity. discriminate.
Qed.

(** ** Capabilities *)

Lemma land_pow2 (n k : Z) :
  0 <= k -> Z.land n (2 ^ k) = if Z.testbit n k then 2 ^ k else 0.
Proof.
  intros Hk. apply Z.bits_inj'. intros i Hi.
  rewrite Z.land_spec, Z.pow2_bits_eqb by assumption.
  destruct (Z.eqb_spec k i) as [->|Hne].
  - destruct (Z.testbit n i); cbn.
    + now rewrite Z.pow2_bits_true.
    + now rewrite Z.bits_0.
  - rewrite andb_false_r.
    destruct (Z.testbit n k).
    + now rewrite Z.pow2_bits_false.
    + now rewrite Z.bits_0.
Qed.

Lemma set_if_has (n k acc : Z) :
  0 <= k ->
  set_if (has n (2 ^ k)) (2 ^ k) acc = Z.lor acc (Z.land n (2 ^ k)).
Proof.
  intros Hk. unfold set_if, has. rewrite land_pow2 by assumption.
  assert (0 < 2 ^ k) by (apply Z.pow_pos_nonneg; lia).
  destruct (Z.testbit n k).
  - destruct (2 ^ k =? 0) eqn:E; [lia | reflexivity].
  - cbn. now rewrite Z.lor_0_r.
Qed.

Lemma to_int_init (n : Z) :
  Capabilities.to_int (Capabilities.init n) = Z.land n Capabilities.all_masks.
Proof.
  unfold Capabilities.to_int, Capabilities.init; cbn -[set_if has Z.land].
  rewrite (set_if_has n 0), (set_if_has n 1), (set_if_has n 2),
    (set_if_has n 3), (set_if_has n 4), (set_if_has n 5), (set_if_has n 6),
    (set_if_has n 7), (set_if_has n 8), (set_if_has n 9), (set_if_has n 10),
    (set_if_has n 11), (set_if_has n 12), (set_if_has n 13),
    (set_if_has n 15), (set_if_has n 16), (set_if_has n 17) by lia.
  rewrite Z.lor_0_l, <- !Z.land_lor_distr_r.
  reflexivity.
Qed.

Lemma set_if_within (flag : bool) (mask acc all : Z) :
  Z.land mask all = mask -> Z.land acc all = acc ->
  Z.land (set_if flag mask acc) all = set_if flag mask acc.
Proof.
  intros Hm Ha. unfold set_if. destruct flag; [|assumption].
  now rewrite Z.land_lor_distr_l, Hm, Ha.
Qed.

Lemma to_int_within (c : Capabilities.t) :
  Z.land (Capabilities.to_int c) Capabilities.all_masks = Capabilities.to_int c.
Proof.
  unfold Capabilities.to_int.
  repeat (apply set_if_within; [reflexivity|]).
  reflexivity.
Qed.

Lemma all_masks_bits (i : Z) :
  Z.testbit Capabilities.all_masks i = true
  <-> (0 <= i <= 13 \/ 15 <= i <= 17).
Proof.
  split.
  - intros Hi.
    destruct (Z.ltb_spec i 0) as [Hneg|Hnn].
    { now rewrite Z.testbit_neg_r in Hi. }
    destruct (Z.ltb_spec 17 i) as [Hbig|Hsmall].
    { change Capabilities.all_masks with (245759 mod 2 ^ 18) in Hi.
      rewrite Z.mod_pow2_bits_high in Hi by lia. discriminate. }
    destruct (Z.eq_dec i 14) as [->|Hne]; [discriminate | lia].
  - intros Hi.
    assert (i = 0 \/ i = 1 \/ i = 2 \/ i = 3 \/ i = 4 \/ i = 5 \/ i = 6
            \/ i = 7 \/ i = 8 \/ i = 9 \/ i = 10 \/ i = 11 \/ i = 12
            \/ i = 13 \/ i = 15 \/ i = 16 \/ i = 17) as Hc by lia.
    repeat (destruct Hc as [->|Hc]; [reflexivity|]).
    subst. reflexivity.
Qed.

(** The set bits of [n] all lie within the masks when masking leaves
    [n] as it is. *)
Lemma within_masks_iff (n : Z) :
  Z.land n Capabilities.all_masks = n
  <-> forall i, Z.testbit n i = true -> 0 <= i <= 13 \/ 15 <= i <= 17.
Proof.
  split.
  - intros Hn i Hi. rewrite <- Hn, Z.land_spec in Hi.
    apply andb_true_iff in Hi. now apply all_masks_bits.
  - intros Hbits. apply Z.bits_inj'. intros i _.
    rewrite Z.land_spec.
    destruct (Z.testbit n i) eqn:E; [|reflexivity].
    apply Hbits, all_masks_bits in E. now rewrite E.
Qed.

(** C10: an integer whose set bits all lie within the seventeen masks
    (bits 0 to 13 and 15 to 17) is given back by [to_int] after
    [Capabilities], and [to_int] of any capabilities sets no bit outside
    those masks. *)
Theorem capabilities_roundtrip (n : Z) :
  (forall i, Z.testbit n i = true -> 0 <= i <= 13 \/ 15 <= i <= 17) ->
  Capabilities.to_int (Capabilities.init n) = n
  /\ forall (c : Capabilities.t) (i : Z),
       Z.testbit (Capabilities.to_int c) i = true ->
       (0 <= i <= 13 \/ 15 <= i <= 17).
Proof.
  intros Hn. apply within_masks_iff in Hn. split.
  - now rewrite to_int_init.
  - intros c i Hi. apply (within_masks_iff (Capabilities.to_int c)).
    + apply to_int_within.
    + exact Hi.
Qed.

(** 41484 is 0xa20c: bits 2, 3, 9, 13 and 15. *)
Lemma capabilities_roundtrip_witness :
  Capabilities.to_int (Capabilities.init 41484) = 41484
  /\ forall (c : Capabilities.t) (i : Z),
       Z.testbit (Capabilities.to_int c) i = true ->
       (0 <= i <= 13 \/ 15 <= i <= 17).
Proof.
  apply (capabilities_roundtrip 41484).
  apply within_masks_iff. reflexivity.
Defined.

(** ** Row decoding *)

Section Resultset_facts.

Variable colvalue : Type.
Variable col_none : colvalue.
Variable col_str : pystr -> colvalue.
Variables py_Decimal py_int py_float py_bytes
  : option bytes -> result colvalue.

Local Abbreviation iter_fields' :=
  (iter_fields colvalue col_none col_str py_Decimal py_int py_float py_bytes).
Local Abbreviation tuples_fields' :=
  (tuples_fields colvalue col_none col_str py_Decimal py_int py_float py_bytes).
Local Abbreviation Resultset_iter' :=
  (Resultset_iter colvalue col_none col_str py_Decimal py_int py_float py_bytes).
Local Abbreviation Resultset_tuples' :=
  (Resultset_tuples colvalue col_none col_str py_Decimal py_int py_float py_bytes).

Lemma iter_fields_unsupported (fs : list Field.t) (f : Field.t) :
  In f fs -> unsupported f ->
  forall rpacket pos r, is_ok (iter_fields' fs rpacket pos r) = false.
Proof.
  unfold unsupported. intros Hin Hf.
  induction fs as [|g fs IH]; intros rpacket pos r; [destruct Hin|].
  cbn. destruct (_read_lcbytes rpacket pos) as [[col pos']|e]; cbn; auto.
  destruct (FIELD_MAPPING (Field.type g)) as [cvt|] eqn:Eg; auto.
  destruct (call _ _ _ _ _ _ _ cvt col) as [v|e]; cbn; auto.
  destruct Hin as [->|Hin]; [congruence|]. now apply IH.
Qed.

Lemma tuples_fields_unsupported (fs : list Field.t) (f : Field.t) :
  In f fs -> unsupported f ->
  forall rpacket pos buf, is_ok (tuples_fields' fs rpacket pos buf) = false.
Proof.
  unfold unsupported. intros Hin Hf.
  induction fs as [|g fs IH]; intros rpacket pos buf; [destruct Hin|].
  cbn. destruct (_read_lcbytes rpacket pos) as [[col pos']|e]; cbn; auto.
  destruct (FIELD_MAPPING (Field.type g)) as [cvt|] eqn:Eg; auto.
  destruct (call _ _ _ _ _ _ _ cvt col) as [v|e]; cbn; auto.
  destruct Hin as [->|Hin]; [congruence|]. now apply IH.
Qed.

(** A generator whose body raises on every packet yields nothing. *)
Lemma generate_all_fail {R} (body : bytes -> result R) :
  (forall rpacket, is_ok (body rpacket) = false) ->
  forall packets, fst (generate body packets) = [].
Proof.
  intros Hfail [|rpacket rest]; cbn; [reflexivity|].
  specialize (Hfail rpacket). destruct (body rpacket); [discriminate|].
  reflexivity.
Qed.

Lemma generate_raises {R} (body : bytes -> result R) :
  (forall rpacket, is_ok (body rpacket) = false) ->
  forall packets, packets <> [] -> snd (generate body packets) <> None.
Proof.
  intros Hfail [|rpacket rest] Hne; [congruence|]. cbn.
  specialize (Hfail rpacket). destruct (body rpacket); discriminate.
Qed.

(** The two views raise the same exception on a row packet: they read
    the same columns and call the same converters. *)
Lemma views_raise_alike (fs : list Field.t) :
  forall rpacket pos r buf e,
    iter_fields' fs rpacket pos r = Err e ->
    tuples_fields' fs rpacket pos buf = Err e.
Proof.
  induction fs as [|g fs IH]; intros rpacket pos r buf e; cbn;
    [discriminate|].
  destruct (_read_lcbytes rpacket pos) as [[col pos']|e0]; cbn;
    [|intros H; inversion H; reflexivity].
  destruct (FIELD_MAPPING (Field.type g)) as [cvt|]; [|intros H; inversion H; reflexivity].
  destruct (call _ _ _ _ _ _ _ cvt col) as [v|e0]; cbn;
    [|intros H; inversion H; reflexivity].
  apply IH.
Qed.

Lemma row_raises (fs : list Field.t) (f : Field.t) :
  In f fs -> unsupported f ->
  forall rpacket,
    exists e, iter_fields' fs rpacket 0 [] = Err e
              /\ tuples_fields' fs rpacket 0 [] = Err e.
Proof.
  intros Hin Hf rpacket.
  pose proof (iter_fields_unsupported fs f Hin Hf rpacket 0 []) as H.
  destruct (iter_fields' fs rpacket 0 []) as [r|e] eqn:E; [discriminate|].
  exists e. split; [reflexivity|]. now apply views_raise_alike with [].
Qed.

(** C9: when a field of a result set has a type code outside
    FIELD_MAPPING, no row packet decodes, in the mapping view or in the
    positional view: the decoding of every row raises, the same
    exception in both views; a traversal over at least one row packet
    yields no row and ends with the exception of the first row; and at
    the field itself, once its bytes are read, the exception is the
    RuntimeError naming the type code and no value is made from the
    bytes, so that a traversal whose first field is the unsupported one
    ends with that RuntimeError. *)
Theorem unsupported_type_fails (rs : Resultset) (f : Field.t) :
  In f (fields rs) -> unsupported f ->
  (forall rpacket,
      exists e,
        iter_fields' (fields rs) rpacket 0 [] = Err e
        /\ tuples_fields' (fields rs) rpacket 0 [] = Err e)
  /\ (forall p ps,
         row_packets rs = Ok (p :: ps) ->
         exists e,
           iter_fields' (fields rs) p 0 [] = Err e
           /\ Resultset_iter' rs = ([], Some e)
           /\ Resultset_tuples' rs = ([], Some e))
  /\ fst (Resultset_iter' rs) = []
  /\ fst (Resultset_tuples' rs) = []
  /\ (forall rest rpacket pos col pos' r buf,
         _read_lcbytes rpacket pos = Ok (col, pos') ->
         iter_fields' (f :: rest) rpacket pos r
         = Err (RuntimeError (Field.type f))
         /\ tuples_fields' (f :: rest) rpacket pos buf
            = Err (RuntimeError (Field.type f)))
  /\ (forall rest p ps col pos',
         fields rs = f :: rest ->
         row_packets rs = Ok (p :: ps) ->
         _read_lcbytes p 0 = Ok (col, pos') ->
         Resultset_iter' rs = ([], Some (RuntimeError (Field.type f)))
         /\ Resultset_tuples' rs
            = ([], Some (RuntimeError (Field.type f)))).
Proof.
  intros Hin Hf.
  split; [now apply row_raises with f|].
  split.
  { intros p ps Hrows.
    destruct (row_raises (fields rs) f Hin Hf p) as (e & Hi & Ht).
    exists e. split; [exact Hi|].
    unfold Resultset_iter, Resultset_tuples. rewrite Hrows.
    cbn [generate]. rewrite Hi, Ht. split; reflexivity. }
  split.
  { unfold Resultset_iter.
    destruct (row_packets rs); [|reflexivity].
    apply generate_all_fail. intros rpacket.
    now apply iter_fields_unsupported with f. }
  split.
  { unfold Resultset_tuples.
    destruct (row_packets rs); [|reflexivity].
    apply generate_all_fail. intros rpacket.
    now apply tuples_fields_unsupported with f. }
  split.
  { intros rest rpacket pos col pos' r buf H.
    cbn. rewrite H. cbn. unfold unsupported in Hf. rewrite Hf.
    split; reflexivity. }
  intros rest p ps col pos' Hfs Hrows Hcol.
  unfold Resultset_iter, Resultset_tuples. rewrite Hrows, Hfs.
  cbn. rewrite Hcol. cbn. unfold unsupported in Hf. rewrite Hf.
  split; reflexivity.
Qed.

End Resultset_facts.

Lemma unsupported_type_fails_witness :
  Resultset_iter value VNone (fun s => VNone)
    (fun c => Ok VNone) (fun c => Ok VNone) (fun c => Ok VNone)
    (fun c => Ok VNone) vectors.bigint_rows
  = ([], Some (RuntimeError 8))
  /\ Resultset_tuples value VNone (fun s => VNone)
       (fun c => Ok VNone) (fun c => Ok VNone) (fun c => Ok VNone)
       (fun c => Ok VNone) vectors.bigint_rows
     = ([], Some (RuntimeError 8)).
Proof.
  apply (unsupported_type_fails value VNone (fun s => VNone)
           (fun c => Ok VNone) (fun c => Ok VNone) (fun c => Ok VNone)
           (fun c => Ok VNone) vectors.bigint_rows vectors.bigint_field)
    with (rest := []) (p := [x01; x37]) (ps := []) (col := Some [x37])
         (pos' := 2).
  - simpl. left. reflexivity.
  - reflexivity.
  - reflexivity.
  - reflexivity.
  - reflexivity.
Defined.

(** ** The constructor of the channel *)

Lemma Channel_init_other_host path_exists peer host port unixsock :
  str_eqb host (str_of "localhost") = false ->
  Channel_init path_exists peer host port unixsock = Err UnboundLocalError.
Proof. intros H. unfold Channel_init. rewrite H. reflexivity. Qed.

Lemma Channel_init_no_socket_file path_exists peer host port unixsock :
  path_exists unixsock = false ->
  Channel_init path_exists peer host port unixsock = Err UnboundLocalError.
Proof.
  intros H. unfold Channel_init. rewrite H.
  destruct (str_eqb host (str_of "localhost")); reflexivity.
Qed.

Lemma Channel_init_local path_exists peer port unixsock :
  path_exists unixsock = true ->
  exists c,
    Channel_init path_exists peer (str_of "localhost") port unixsock = Ok c
    /\ sock_family (_sock c) = AF_UNIX
    /\ __addr c = unix_address unixsock.
Proof.
  intros H. unfold Channel_init. rewrite H. cbn. eauto.
Qed.

(** C3 (fails on the code): constructing a channel is said to pick a TCP
    socket whenever the host is not 'localhost' or the socket file is
    missing, and never to fail.  For the host 127.0.0.1 the name [sock] is
    read by [if sock is None] before anything was assigned to it, whatever
    the file system holds: the constructor raises UnboundLocalError and no
    TCP socket is made. *)
Theorem Channel_init_tcp_unbound (path_exists : pystr -> bool)
    (peer : list Reply) :
  Channel_init path_exists peer (str_of "127.0.0.1") 3306
    (str_of "/var/run/mysqld/mysqld.sock") = Err UnboundLocalError.
Proof. now apply Channel_init_other_host. Qed.

(** ** The authentication packet *)

Lemma land_65535_range (z : Z) : 0 <= Z.land z 65535 < 2 ^ 32.
Proof.
  change 65535 with (Z.ones 16). rewrite Z.land_ones by lia.
  pose proof (Z.mod_pos_bound z (2 ^ 16) ltac:(lia)). lia.
Qed.

Lemma pack_auth_fields (z : Z) :
  exists p,
    pack auth_fmt [VInt (Z.land z 65535); VBytes [x8f; xff; xff; xff];
                   VInt 33; VBytes (repeat x00 23)] = Ok p.
Proof.
  pose proof (land_65535_range z) as [Hlo Hhi].
  unfold auth_fmt, pack.
  cbn [item_size Z.of_nat Pos.of_succ_nat Pos.succ Z.mul Pos.mul].
  destruct (Z.leb_spec 0 (Z.land z 65535)); [|lia].
  destruct (Z.ltb_spec (Z.land z 65535) (2 ^ 32)); [|lia].
  cbn -[le_bytes Z.land]. eauto.
Qed.

(** Any password makes the composition raise: the length byte of the
    token is a [str] added to a bytearray. *)
Lemma auth_packet_password sha1 caps scramble user password database :
  password <> [] ->
  is_ok (auth_packet sha1 caps scramble user password database) = false.
Proof.
  intros Hpw. unfold auth_packet.
  destruct (pack_auth_fields (Capabilities.to_int caps)) as [p ->].
  cbn [bind iadd].
  destruct (encode_ascii user) as [u|e]; [|reflexivity].
  cbn [bind iadd].
  destruct password as [|c rest]; [congruence|]. reflexivity.
Qed.

Lemma land_255 (z : Z) : Z.land z 255 = z mod 256.
Proof. change 255 with (Z.ones 8). now rewrite Z.land_ones by lia. Qed.

Lemma byte_of_Z_mod (z : Z) : byte_of_Z (z mod 256) = byte_of_Z z.
Proof. unfold byte_of_Z. now rewrite Z.mod_mod by lia. Qed.

Lemma store_masked (buf : bytes) (i : nat) (z : Z) :
  store buf i (Z.land z 255)
  = match set_nth buf i (byte_of_Z z) with
    | Some buf' => Ok buf'
    | None => Err IndexError
    end.
Proof.
  unfold store. rewrite land_255, byte_of_Z_mod.
  pose proof (Z.mod_pos_bound z 256 ltac:(lia)).
  destruct (Z.leb_spec 0 (z mod 256)); [|lia].
  destruct (Z.ltb_spec (z mod 256) 256); [|lia].
  reflexivity.
Qed.

(** Writing the length turns a buffer with four reserved bytes into a
    frame: the fourth byte is the sequence number. *)
Lemma set_length_frame (h0 h1 h2 seq : byte) (payload : bytes) :
  set_length (h0 :: h1 :: h2 :: seq :: payload)
  = Ok (vectors.frame seq payload).
Proof.
  unfold set_length. rewrite !store_masked. cbn [set_nth option_map bind].
  rewrite !store_masked. cbn [set_nth option_map bind].
  rewrite !store_masked. cbn [set_nth option_map bind].
  unfold vectors.frame. cbn [le_bytes app].
  replace (len (h0 :: h1 :: h2 :: seq :: payload) - 4) with (len payload)
    by (unfold len; cbn [List.length]; lia).
  reflexivity.
Qed.

Lemma command_packet_frame (query : pystr) (q : bytes) :
  encode_utf8 query = Ok q ->
  command_packet query = Ok (vectors.frame x00 (x03 :: q)).
Proof.
  intros Hq. unfold command_packet. cbn [iadd bind app]. rewrite Hq.
  cbn [iadd bind app]. apply set_length_frame.
Qed.

(** Without a password the packet is composed, with the single byte 00
    for the token. *)
Lemma auth_packet_no_password sha1 caps scramble user database u d :
  encode_ascii user = Ok u ->
  encode_ascii database = Ok d ->
  exists p,
    pack auth_fmt [VInt (Z.land (Capabilities.to_int caps) 65535);
                   VBytes [x8f; xff; xff; xff]; VInt 33;
                   VBytes (repeat x00 23)] = Ok p
    /\ auth_packet sha1 caps scramble user [] database
       = Ok (vectors.frame x01 (((((p ++ u) ++ [x00]) ++ [x00]) ++ d) ++ [x00])).
Proof.
  intros Hu Hd.
  destruct (pack_auth_fields (Capabilities.to_int caps)) as [p Hp].
  exists p. split; [exact Hp|].
  unfold auth_packet. rewrite Hp. cbn [iadd bind]. rewrite Hu.
  cbn [iadd bind]. rewrite Hd. cbn [iadd bind app].
  apply set_length_frame.
Qed.

(** C4 (fails on the code): with a password the authentication packet
    is said to carry the 20-byte token SHA1(password) XOR
    SHA1(seed ++ SHA1(SHA1(password))) after its length byte.  For the
    password "secret" no packet is composed, whatever the hash function,
    the capabilities and the seed: the length byte is written as the text
    '\x14', and adding text to the bytearray raises TypeError before any
    digest is taken. *)
Theorem auth_packet_secret_raises (sha1 : bytes -> bytes)
    (caps : Capabilities.t) (scramble : bytes) :
  auth_packet sha1 caps scramble (str_of "root") (str_of "secret")
    (str_of "test") = Err TypeError.
Proof.
  unfold auth_packet.
  destruct (pack_auth_fields (Capabilities.to_int caps)) as [p ->].
  reflexivity.
Qed.

(** ** Negotiated capabilities *)

Lemma negotiate_ok (caphigh caplow : Z) (c : Channel) :
  let caps0 := Capabilities.init (Z.shiftl caphigh 16 + caplow) in
  Capabilities.protocol_41 caps0 = true ->
  Capabilities.connect_with_db caps0 = true ->
  negotiate caphigh caplow c
  = (Ok (negotiated caps0), set_capabilities (negotiated caps0) c).
Proof.
  intros caps0 H41 Hdb. unfold negotiate, mbind, modify, lift, ret.
  fold caps0. rewrite H41, Hdb. cbn.
  destruct c; reflexivity.
Qed.

(** Five of the six flags are cleared; [multi_statements] is the
    server's. *)
Lemma negotiated_flags (caps0 : Capabilities.t) :
  let caps := negotiated caps0 in
  Capabilities.odbc caps = false
  /\ Capabilities.compress caps = false
  /\ Capabilities.multi_results caps = false
  /\ Capabilities.ssl caps = false
  /\ Capabilities.transactions caps = false
  /\ Capabilities.multi_statements caps
     = Capabilities.multi_statements caps0
  /\ Capabilities.multi_statement caps = Some false.
Proof. cbn. repeat split. Qed.

Lemma set_if_land_disjoint (flag : bool) (mask acc k : Z) :
  Z.land mask k = 0 ->
  Z.land (set_if flag mask acc) k = Z.land acc k.
Proof.
  intros H. unfold set_if. destruct flag; [|reflexivity].
  now rewrite Z.land_lor_distr_l, H, Z.lor_0_r.
Qed.

(** The sixteen bits sent never hold one of the six flags: bits 16 and 17
    are cut off by the mask of the packet. *)
Lemma sent_capabilities_clear (caps0 : Capabilities.t) :
  Z.land (Z.land (Capabilities.to_int (negotiated caps0)) 65535)
         (32 + 64 + 2048 + 8192 + 65536 + 131072) = 0.
Proof.
  rewrite <- Z.land_assoc.
  change (Z.land 65535 (32 + 64 + 2048 + 8192 + 65536 + 131072))
    with (32 + 64 + 2048 + 8192).
  unfold Capabilities.to_int. cbn -[set_if Z.land].
  repeat first [ rewrite set_if_land_disjoint by reflexivity
               | progress cbn [set_if] ].
  reflexivity.
Qed.

(** C5 (fails on the code): after the handshake the negotiated
    capabilities are said to have the multi-statement flag cleared
    whatever the server offers.  For a server that offers bits 3, 9 and
    16 (low half 0x0208, high half 0x0001) the negotiated set still has
    [multi_statements], and [to_int] still has bit 16: the handshake
    assigns False to an attribute named [multi_statement]. *)
Theorem multi_statements_not_cleared (c : Channel) :
  exists caps c',
    negotiate 1 520 c = (Ok caps, c')
    /\ capabilities c' = Some caps
    /\ Capabilities.multi_statements caps = true
    /\ Capabilities.multi_statement caps = Some false
    /\ Z.testbit (Capabilities.to_int caps) 16 = true.
Proof.
  eexists. eexists. split.
  - apply negotiate_ok; reflexivity.
  - repeat split.
Qed.

(** ** The reply to the authentication packet *)

Lemma mbind_ok {S A B} (m : M S A) (k : A -> M S B) (s s' : S) (y : B) :
  mbind m k s = (Ok y, s') ->
  exists a s1, m s = (Ok a, s1) /\ k a s1 = (Ok y, s').
Proof.
  unfold mbind. destruct (m s) as [[a|e] s1]; intros H.
  - eauto.
  - discriminate.
Qed.

Lemma lift_ok {S A} (r : result A) (s s' : S) (y : A) :
  lift r s = (Ok y, s') -> r = Ok y /\ s' = s.
Proof. unfold lift. intros H. inversion H. auto. Qed.

Lemma fut_get_ok (c c' : Channel) (r : Reply) :
  fut_get c = (Ok r, c') ->
  _alive c' = _alive c /\ requests c' = requests c
  /\ replies c = r :: replies c'.
Proof.
  unfold fut_get. destruct (replies c) as [|r0 rest] eqn:E; intros H.
  - discriminate.
  - inversion H; subst. cbn. auto.
Qed.

Lemma negotiate_alive (caphigh caplow : Z) (c c' : Channel) caps :
  negotiate caphigh caplow c = (Ok caps, c') -> _alive c' = _alive c.
Proof.
  unfold negotiate, mbind, modify, lift, ret.
  destruct (py_assert _); [|discriminate].
  destruct (py_assert _); [|discriminate].
  intros H. inversion H. reflexivity.
Qed.

(** The handshake up to the authentication packet leaves the channel
    alive. *)
Lemma greet_alive sha1 user password database (c c1 : Channel) buf :
  greet sha1 user password database c = (Ok buf, c1) ->
  _alive c1 = _alive c.
Proof.
  unfold greet. intros H.
  apply mbind_ok in H. destruct H as (r & s1 & Hget & H).
  apply fut_get_ok in Hget. destruct Hget as (Ha & _ & _).
  rewrite <- Ha. clear Ha c.
  apply mbind_ok in H. destruct H as (h & s2 & Hl & H).
  apply lift_ok in Hl. destruct Hl as [_ ->].
  apply mbind_ok in H. destruct H as (h0 & s2 & Hl & H).
  apply lift_ok in Hl. destruct Hl as [_ ->].
  apply mbind_ok in H. destruct H as (u & s2 & Hl & H).
  apply lift_ok in Hl. destruct Hl as [_ ->].
  apply mbind_ok in H. destruct H as ([prefix suffix] & s2 & Hl & H).
  apply lift_ok in Hl. destruct Hl as [_ ->].
  apply mbind_ok in H. destruct H as (vs & s2 & Hl & H).
  apply lift_ok in Hl. destruct Hl as [_ ->].
  repeat match type of H with
         | context [match ?x with _ => _ end] =>
             destruct x; try (apply lift_ok in H; destruct H; discriminate)
         end.
  apply mbind_ok in H. destruct H as (u1 & s2 & Hm & H).
  unfold modify in Hm. inversion Hm; subst.
  apply mbind_ok in H. destruct H as (caps & s3 & Hn & H).
  apply negotiate_alive in Hn.
  apply lift_ok in H. destruct H as [_ ->].
  rewrite Hn. reflexivity.
Qed.

Lemma check_auth_iff (value : Reply) :
  check_auth value = Ok tt <-> value = OK_PACKET.
Proof.
  unfold check_auth, py_assert, reply_eqb.
  destruct (list_eq_dec (list_eq_dec Byte.byte_eq_dec) value OK_PACKET); split; intros H;
    congruence || reflexivity.
Qed.

Lemma check_auth_other (value : Reply) :
  value <> OK_PACKET -> check_auth value = Err AssertionError.
Proof.
  unfold check_auth, py_assert, reply_eqb. intros H.
  destruct (list_eq_dec (list_eq_dec Byte.byte_eq_dec) value OK_PACKET); congruence.
Qed.

Lemma connect_after_greet sha1 user password database c buf c1 value rest :
  _alive c = true ->
  greet sha1 user password database c = (Ok buf, c1) ->
  replies c1 = value :: rest ->
  Channel__connect sha1 user password database c
  = (check_auth value, set_queues (requests c1 ++ [buf]) rest c1).
Proof.
  intros Ha Hg Hr. unfold Channel__connect, mbind. rewrite Hg.
  unfold request. rewrite (greet_alive _ _ _ _ _ _ _ Hg), Ha.
  unfold fut_get. cbn. rewrite Hr. unfold lift.
  destruct c1; reflexivity.
Qed.

(** C6, as the code has it: once the greeting is accepted and the
    authentication packet sent, the handshake succeeds exactly when the
    reply is OK_PACKET, the single packet 00 00 00 02 00 00 00, whose
    fields are status 0, affected rows 0, insert id 0, status flags 2 and
    warnings 0; any other reply raises AssertionError and leaves the
    channel dead. *)
Theorem auth_reply_must_be_OK_PACKET sha1 user password database c buf c1
    value rest :
  _alive c = true ->
  greet sha1 user password database c = (Ok buf, c1) ->
  replies c1 = value :: rest ->
  (fst (Channel_connect sha1 user password database c) = Ok tt
   <-> value = OK_PACKET)
  /\ (value <> OK_PACKET ->
      fst (Channel_connect sha1 user password database c)
      = Err AssertionError
      /\ _alive (snd (Channel_connect sha1 user password database c))
         = false)
  /\ (exists p, OK_PACKET = [p]
                /\ ok_fields p = Ok (0, VInt 0, VInt 0, 2, 0)).
Proof.
  intros Ha Hg Hr. unfold Channel_connect.
  rewrite (connect_after_greet _ _ _ _ _ _ _ _ _ Ha Hg Hr).
  split; [|split].
  - rewrite <- check_auth_iff.
    destruct (check_auth value) as [[]|e]; cbn; split; congruence.
  - intros Hne. rewrite (check_auth_other _ Hne). cbn. auto.
  - eexists. split; reflexivity.
Qed.

Lemma auth_reply_must_be_OK_PACKET_witness :
  (fst (Channel_connect vectors.no_digest (str_of "root") [] (str_of "test")
          (vectors.fresh_channel [[vectors.greeting]; OK_PACKET])) = Ok tt
   <-> OK_PACKET = OK_PACKET)
  /\ (OK_PACKET <> OK_PACKET ->
      fst (Channel_connect vectors.no_digest (str_of "root") []
             (str_of "test")
             (vectors.fresh_channel [[vectors.greeting]; OK_PACKET]))
      = Err AssertionError
      /\ _alive (snd (Channel_connect vectors.no_digest (str_of "root") []
                        (str_of "test")
                        (vectors.fresh_channel
                           [[vectors.greeting]; OK_PACKET])))
         = false)
  /\ (exists p, OK_PACKET = [p]
                /\ ok_fields p = Ok (0, VInt 0, VInt 0, 2, 0)).
Proof.
  eapply (auth_reply_must_be_OK_PACKET vectors.no_digest (str_of "root") []
            (str_of "test")
            (vectors.fresh_channel [[vectors.greeting]; OK_PACKET])
            _ _ OK_PACKET []).
  - reflexivity.
  - vm_compute. reflexivity.
  - reflexivity.
Defined.

(** C6 as stated fails: the reply whose fields are all zero, status flags
    included, is the packet the claim calls canonical, and the handshake
    does not succeed on it. *)
Lemma zero_status_flags_rejected :
  ~ (fst (Channel_connect vectors.no_digest (str_of "root") []
            (str_of "test")
            (vectors.fresh_channel [[vectors.greeting]; [vectors.zero_ok]]))
     = Ok tt
     <-> exists p, [vectors.zero_ok] = [p]
                   /\ ok_fields p = Ok (0, VInt 0, VInt 0, 0, 0)).
Proof.
  intros [_ H].
  assert (Hok : fst (Channel_connect vectors.no_digest (str_of "root") []
                       (str_of "test")
                       (vectors.fresh_channel
                          [[vectors.greeting]; [vectors.zero_ok]])) = Ok tt).
  { apply H. eexists. split; reflexivity. }
  vm_compute in Hok. discriminate.
Qed.

(** ** The receiver loop *)

Lemma shiftr_8_div (z : Z) : Z.shiftr z 8 = z / 256.
Proof. now rewrite Z.shiftr_div_pow2 by lia. Qed.

(** The three length bytes of a frame give the length back. *)
Lemma le24_value (n : Z) :
  0 <= n < 2 ^ 24 ->
  exists c0 c1 c2,
    le_bytes 3 n = [c0; c1; c2]
    /\ byte_val c0 + Z.shiftl (byte_val c1) 8 + Z.shiftl (byte_val c2) 16 = n.
Proof.
  intros Hn. do 3 eexists. split; [reflexivity|].
  rewrite !byte_val_of_Z, !Z.shiftl_mul_pow2, !shiftr_8_div by lia.
  change (2 ^ 8) with 256. change (2 ^ 16) with 65536.
  change (2 ^ 24) with 16777216 in Hn.
  pose proof (Z.div_mod n 256 ltac:(lia)).
  pose proof (Z.div_mod (n / 256) 256 ltac:(lia)).
  pose proof (Z.mod_pos_bound n 256 ltac:(lia)).
  pose proof (Z.mod_pos_bound (n / 256) 256 ltac:(lia)).
  assert (0 <= n / 256 / 256 < 256).
  { split.
    - apply Z.div_pos; [apply Z.div_pos|]; lia.
    - apply Z.div_lt_upper_bound; [lia|].
      apply Z.div_lt_upper_bound; lia. }
  rewrite (Z.mod_small (n / 256 / 256)) by lia. lia.
Qed.

Lemma slice_middle {A} (pre mid post : list A) :
  slice (pre ++ mid ++ post) (len pre) (len pre + len mid) = mid.
Proof.
  unfold slice, clamp. rewrite !len_app.
  pose proof (len_nonneg pre). pose proof (len_nonneg mid).
  pose proof (len_nonneg post).
  destruct (Z.ltb_spec (len pre) 0); [lia|].
  destruct (Z.ltb_spec (len pre + len mid) 0); [lia|].
  rewrite !Z.min_l by lia.
  replace (len pre + len mid - len pre) with (len mid) by lia.
  unfold len. rewrite !Nat2Z.id.
  rewrite skipn_app, skipn_all, Nat.sub_diag. cbn [skipn app].
  rewrite firstn_app, firstn_all, Nat.sub_diag. cbn [firstn].
  now rewrite app_nil_r.
Qed.

Section Frame_at.

Import receiver.

Variables (s : state) (pre : bytes) (q : byte) (p post : bytes).
Hypothesis Hbuf : buf s = pre ++ vectors.frame q p ++ post.
Hypothesis Hpos : pos s = len pre.
Hypothesis Hlen : len p < 2 ^ 24.

Lemma frame_reads :
  exists c0 c1 c2,
    index (buf s) (pos s) = Ok c0
    /\ index (buf s) (pos s + 1) = Ok c1
    /\ index (buf s) (pos s + 2) = Ok c2
    /\ byte_val c0 + Z.shiftl (byte_val c1) 8 + Z.shiftl (byte_val c2) 16
       = len p
    /\ index (buf s) (pos s + 3) = Ok q.
Proof.
  destruct (le24_value (len p)) as (c0 & c1 & c2 & Hle & Hval).
  { pose proof (len_nonneg p). lia. }
  exists c0, c1, c2.
  rewrite Hbuf, Hpos. unfold vectors.frame. rewrite Hle. cbn [app].
  replace (len pre) with (len pre + 0) at 1 by lia.
  rewrite !index_app_r by lia. repeat split; try reflexivity. exact Hval.
Qed.

Lemma frame_payload :
  slice (buf s) (pos s + 4) (pos s + len p + 4) = p.
Proof.
  destruct (le24_value (len p)) as (c0 & c1 & c2 & Hle & _).
  { pose proof (len_nonneg p). lia. }
  rewrite Hbuf, Hpos. unfold vectors.frame. rewrite Hle. cbn [app].
  change (pre ++ c0 :: c1 :: c2 :: q :: p ++ post)
    with (pre ++ [c0; c1; c2; q] ++ p ++ post).
  rewrite app_assoc.
  replace (len pre + 4) with (len (pre ++ [c0; c1; c2; q]))
    by (rewrite len_app; reflexivity).
  replace (len pre + len p + 4)
    with (len (pre ++ [c0; c1; c2; q]) + len p)
    by (rewrite len_app; cbn; lia).
  apply slice_middle.
Qed.

Lemma frame_available : len (buf s) - pos s = len p + 4 + len post.
Proof.
  rewrite Hbuf, Hpos. unfold vectors.frame. rewrite !len_app.
  change (len (le_bytes 3 (len p))) with 3. change (len [q]) with 1. lia.
Qed.

Lemma frame_type :
  p ++ post <> [] -> exists t, index (buf s) (pos s + 4) = Ok t.
Proof.
  intros Hne.
  destruct (le24_value (len p)) as (c0 & c1 & c2 & Hle & _).
  { pose proof (len_nonneg p). lia. }
  rewrite Hbuf, Hpos. unfold vectors.frame. rewrite Hle. cbn [app].
  rewrite index_app_r by lia.
  destruct (p ++ post) as [|t rest] eqn:E; [congruence|].
  exists t. reflexivity.
Qed.

(** During the handshake the packet is a reply of its own, whatever
    its sequence number and its first byte. *)
Lemma body_in_handshake :
  p ++ post <> [] -> handshake s < 2 ->
  body s = Ok (mk (buf s) (len pre + len p + 4) [] false (handshake s + 1)
                  (produced s ++ [current s ++ [p]])).
Proof.
  intros Hne Hh. unfold body.
  destruct frame_reads as (c0 & c1 & c2 & -> & -> & -> & Hval & ->).
  destruct (frame_type Hne) as [t ->].
  cbn [bind]. rewrite Hval, frame_payload, frame_available.
  pose proof (len_nonneg post).
  destruct (Z.ltb_spec (len p + 4 + len post) (len p + 4)); [lia|].
  cbn [with_current handshake bind].
  destruct (Z.ltb_spec (handshake s) 2); [|lia].
  cbn. rewrite Hpos. reflexivity.
Qed.

(** After it the sequence number must be the number of packets of the
    reply so far, this one included. *)
Lemma body_checks_sequence :
  p ++ post <> [] -> 2 <= handshake s ->
  byte_val q <> len (current s) + 1 ->
  body s = Err AssertionError.
Proof.
  intros Hne Hh Hseq. unfold body.
  destruct frame_reads as (c0 & c1 & c2 & -> & -> & -> & Hval & ->).
  destruct (frame_type Hne) as [t ->].
  cbn [bind]. rewrite Hval, frame_payload, frame_available.
  pose proof (len_nonneg post).
  destruct (Z.ltb_spec (len p + 4 + len post) (len p + 4)); [lia|].
  cbn [with_current handshake current bind].
  destruct (Z.ltb_spec (handshake s) 2); [lia|].
  rewrite len_app. change (len [p]) with 1.
  destruct (Z.eqb_spec (byte_val q) (len (current s) + 1)); [lia|].
  reflexivity.
Qed.

(** With the expected sequence number the packet is taken. *)
Lemma body_accepts_sequence :
  p ++ post <> [] -> 2 <= handshake s ->
  byte_val q = len (current s) + 1 ->
  exists s', body s = Ok s'
             /\ pos s' = len pre + len p + 4
             /\ handshake s' = handshake s.
Proof.
  intros Hne Hh Hseq. unfold body.
  destruct frame_reads as (c0 & c1 & c2 & -> & -> & -> & Hval & ->).
  destruct (frame_type Hne) as [t ->].
  cbn [bind]. rewrite Hval, frame_payload, frame_available.
  pose proof (len_nonneg post).
  destruct (Z.ltb_spec (len p + 4 + len post) (len p + 4)); [lia|].
  cbn [with_current handshake current bind].
  destruct (Z.ltb_spec (handshake s) 2); [lia|].
  rewrite len_app. change (len [p]) with 1.
  destruct (Z.eqb_spec (byte_val q) (len (current s) + 1)); [|lia].
  cbn [py_assert bind]. eexists. split; [reflexivity|].
  destruct ((byte_val t =? 0) || (byte_val t =? 255));
    [|destruct (byte_val t =? 254); [destruct (fields _)|]];
    cbn; rewrite Hpos; auto.
Qed.

End Frame_at.

Lemma body_partial (s : receiver.state) (c0 c1 c2 : byte) :
  index (receiver.buf s) (receiver.pos s) = Ok c0 ->
  index (receiver.buf s) (receiver.pos s + 1) = Ok c1 ->
  index (receiver.buf s) (receiver.pos s + 2) = Ok c2 ->
  len (receiver.buf s) - receiver.pos s
  < byte_val c0 + Z.shiftl (byte_val c1) 8 + Z.shiftl (byte_val c2) 16 + 4 ->
  receiver.body s = Ok s.
Proof.
  intros H0 H1 H2 Hshort. unfold receiver.body. rewrite H0, H1, H2.
  cbn [bind].
  destruct (Z.ltb_spec (len (receiver.buf s) - receiver.pos s)
              (byte_val c0 + Z.shiftl (byte_val c1) 8
               + Z.shiftl (byte_val c2) 16 + 4)); [reflexivity | lia].
Qed.

(** A pass that leaves the state as it was is repeated for ever. *)
Lemma frames_fixed_point (s : receiver.state) :
  4 <= len (receiver.buf s) - receiver.pos s ->
  receiver.body s = Ok s ->
  forall passes, receiver.frames passes s = receiver.Running s.
Proof.
  intros Hcond Hbody passes.
  induction passes as [|n IH]; cbn [receiver.frames];
    destruct (Z.geb_spec (len (receiver.buf s) - receiver.pos s) 4);
    try lia; [reflexivity|].
  rewrite Hbody. exact IH.
Qed.

(** C2 (fails on the code): with a header buffered and the packet
    incomplete the frame loop is said to end without a packet and to
    resume when more input arrives.  After the five bytes 05 00 00 00 01
    (a header announcing five bytes, one of them received) the loop
    emits nothing and never ends: its [continue] leads back to the test
    of the inner loop, which still holds, so no number of passes brings
    the receiver back to the read. *)
Theorem partial_packet_spins (passes : nat) :
  receiver.on_recv passes [x05; x00; x00; x00; x01] receiver.start
  = receiver.Running
      (receiver.mk [x05; x00; x00; x00; x01] 0 [] false 0 []).
Proof.
  unfold receiver.on_recv. cbn -[receiver.frames].
  apply frames_fixed_point.
  - cbn. lia.
  - reflexivity.
Qed.

Lemma frames_step (n : nat) (s s' : receiver.state) :
  4 <= len (receiver.buf s) - receiver.pos s ->
  receiver.body s = Ok s' ->
  receiver.frames (S n) s = receiver.frames n s'.
Proof.
  intros Hcond Hbody. cbn [receiver.frames].
  destruct (Z.geb_spec (len (receiver.buf s) - receiver.pos s) 4); [|lia].
  now rewrite Hbody.
Qed.

Lemma frames_exit (n : nat) (s : receiver.state) :
  len (receiver.buf s) - receiver.pos s < 4 ->
  receiver.frames n s = receiver.Exits s.
Proof.
  intros Hcond.
  destruct n; cbn [receiver.frames];
    destruct (Z.geb_spec (len (receiver.buf s) - receiver.pos s) 4);
    try lia; reflexivity.
Qed.

(** The first read of a connection. *)
Lemma on_recv_start (passes : nat) (chunk : bytes) :
  chunk <> [] ->
  receiver.on_recv passes chunk receiver.start
  = receiver.frames passes (receiver.mk chunk 0 [] false 0 []).
Proof.
  intros Hne. destruct chunk as [|c rest]; [congruence|]. reflexivity.
Qed.

Lemma len_frame (q : byte) (p : bytes) : len (vectors.frame q p) = len p + 4.
Proof.
  unfold vectors.frame. rewrite !len_app.
  change (len (le_bytes 3 (len p))) with 3. change (len [q]) with 1. lia.
Qed.

Lemma frame_not_nil (q : byte) (p : bytes) : vectors.frame q p <> [].
Proof. unfold vectors.frame. cbn. discriminate. Qed.

(** C7, as the code has it: the first two packets of a connection pass
    without a check of their sequence numbers, and each is emitted at
    once as a reply of its own, of that one packet: when both arrive in
    one read, when the second arrives in a later read (it answers the
    authentication packet), and wherever a whole packet stands in the
    buffer while fewer than two packets were taken.  From the third
    packet on, a sequence number other than the count of packets of the
    reply so far, the packet included, raises AssertionError, and the
    packet with that number is taken. *)
Theorem first_two_packets_two_replies (q1 q2 : byte) (p1 p2 : bytes)
    (n : nat) :
  len p1 < 2 ^ 24 -> len p2 < 2 ^ 24 -> p2 <> [] ->
  receiver.on_recv (S (S n)) (vectors.frame q1 p1 ++ vectors.frame q2 p2)
    receiver.start
  = receiver.Exits
      (receiver.mk (vectors.frame q1 p1 ++ vectors.frame q2 p2)
         (len p1 + 4 + len p2 + 4) [] false 2 [[p1]; [p2]])
  /\ (p1 <> [] ->
      receiver.on_recv (S n) (vectors.frame q1 p1) receiver.start
      = receiver.Exits
          (receiver.mk (vectors.frame q1 p1) (len p1 + 4) [] false 1 [[p1]])
      /\ receiver.on_recv (S n) (vectors.frame q2 p2)
           (receiver.mk (vectors.frame q1 p1) (len p1 + 4) [] false 1 [[p1]])
         = receiver.Exits
             (receiver.mk (vectors.frame q2 p2) (len p2 + 4) [] false 2
                [[p1]; [p2]]))
  /\ (forall s pre q p post,
         receiver.buf s = pre ++ vectors.frame q p ++ post ->
         receiver.pos s = len pre ->
         len p < 2 ^ 24 ->
         p ++ post <> [] ->
         receiver.handshake s < 2 ->
         receiver.body s
         = Ok (receiver.mk (receiver.buf s) (len pre + len p + 4) [] false
                 (receiver.handshake s + 1)
                 (receiver.produced s ++ [receiver.current s ++ [p]])))
  /\ (forall s pre q p post,
         receiver.buf s = pre ++ vectors.frame q p ++ post ->
         receiver.pos s = len pre ->
         len p < 2 ^ 24 ->
         p ++ post <> [] ->
         2 <= receiver.handshake s ->
         (byte_val q <> len (receiver.current s) + 1 ->
          receiver.body s = Err AssertionError)
         /\ (byte_val q = len (receiver.current s) + 1 ->
             exists s', receiver.body s = Ok s'
                        /\ receiver.pos s' = len pre + len p + 4
                        /\ receiver.handshake s' = receiver.handshake s)).
Proof.
  intros H1 H2 Hne.
  pose proof (len_nonneg p1) as Hp1. pose proof (len_nonneg p2) as Hp2.
  split; [|split; [|split]].
  4: { intros s pre q p post Hb Hp Hl Hn Hh. split; intros Hq.
       - now apply (body_checks_sequence s pre q p post).
       - now apply (body_accepts_sequence s pre q p post). }
  3: { intros s pre q p post Hb Hp Hl Hn Hh.
       now apply (body_in_handshake s pre q p post). }
  2: { intros Hne1. split.
       - (* the first read *)
         rewrite on_recv_start by apply frame_not_nil.
         rewrite frames_step
           with (s' := receiver.mk (vectors.frame q1 p1) (len p1 + 4) []
                         false 1 [[p1]]).
         + apply frames_exit. cbn [receiver.buf receiver.pos].
           rewrite len_frame. lia.
         + cbn [receiver.buf receiver.pos]. rewrite len_frame. lia.
         + rewrite (body_in_handshake
                      (receiver.mk (vectors.frame q1 p1) 0 [] false 0 [])
                      [] q1 p1 []).
           * reflexivity.
           * cbn [receiver.buf app]. now rewrite app_nil_r.
           * reflexivity.
           * assumption.
           * now rewrite app_nil_r.
           * cbn. lia.
       - (* the second read: the consumed packet is dropped first *)
         assert (Hq2 : exists c rest, vectors.frame q2 p2 = c :: rest).
         { unfold vectors.frame. destruct (le_bytes 3 (len p2)) eqn:E.
           - cbn. eauto.
           - cbn. eauto. }
         destruct Hq2 as (c & rest & Hq2).
         unfold receiver.on_recv.
         cbn [receiver.buf receiver.pos receiver.current receiver.fields
                receiver.handshake receiver.produced].
         rewrite len_frame.
         destruct (Z.gtb_spec ((len p1 + 4) * 2) (len p1 + 4)); [|lia].
         cbn [receiver.buf receiver.pos receiver.current receiver.fields
                receiver.handshake receiver.produced].
         rewrite Hq2, <- Hq2.
         assert (Hdrop : slice_from (vectors.frame q1 p1) (len p1 + 4) = []).
         { unfold slice_from, clamp. rewrite len_frame.
           destruct (Z.ltb_spec (len p1 + 4) 0); [lia|].
           rewrite Z.min_l by lia. apply skipn_all2.
           pose proof (len_frame q1 p1) as Hl. unfold len in *. lia. }
         rewrite Hdrop. cbn [app].
         rewrite frames_step
           with (s' := receiver.mk (vectors.frame q2 p2) (len p2 + 4) []
                         false 2 [[p1]; [p2]]).
         + apply frames_exit. cbn [receiver.buf receiver.pos].
           rewrite len_frame. lia.
         + cbn [receiver.buf receiver.pos]. rewrite len_frame. lia.
         + rewrite (body_in_handshake
                      (receiver.mk (vectors.frame q2 p2) 0 [] false 1 [[p1]])
                      [] q2 p2 []).
           * reflexivity.
           * cbn [receiver.buf app]. now rewrite app_nil_r.
           * reflexivity.
           * assumption.
           * now rewrite app_nil_r.
           * cbn. lia. }
  remember (vectors.frame q1 p1 ++ vectors.frame q2 p2) as stream eqn:Es.
  assert (Hlen : len stream = len p1 + 4 + len p2 + 4).
  { subst stream. rewrite len_app, !len_frame. lia. }
  rewrite on_recv_start.
  2: { subst stream. intros E. apply app_eq_nil in E.
       destruct E as [E _]. now apply frame_not_nil in E. }
  (* the first packet *)
  rewrite frames_step
    with (s' := receiver.mk stream (len p1 + 4) [] false 1 [[p1]]).
  2: { cbn [receiver.buf receiver.pos]. lia. }
  2: { rewrite (body_in_handshake (receiver.mk stream 0 [] false 0 [])
                  [] q1 p1 (vectors.frame q2 p2)).
       - reflexivity.
       - exact Es.
       - reflexivity.
       - assumption.
       - intros E. apply app_eq_nil in E. destruct E as [_ E].
         now apply frame_not_nil in E.
       - cbn. lia. }
  (* the second packet *)
  rewrite frames_step
    with (s' := receiver.mk stream (len p1 + 4 + len p2 + 4) [] false 2
                  [[p1]; [p2]]).
  2: { cbn [receiver.buf receiver.pos]. lia. }
  2: { rewrite (body_in_handshake
                  (receiver.mk stream (len p1 + 4) [] false 1 [[p1]])
                  (vectors.frame q1 p1) q2 p2 []).
       - cbn [receiver.buf receiver.handshake receiver.produced
                receiver.current app]. rewrite len_frame. reflexivity.
       - cbn [receiver.buf]. now rewrite app_nil_r.
       - cbn [receiver.pos]. now rewrite len_frame.
       - assumption.
       - now rewrite app_nil_r.
       - cbn. lia. }
  (* nothing is left *)
  apply frames_exit. cbn [receiver.buf receiver.pos]. lia.
Qed.

(** The greeting and the reply to the authentication packet, in one read
    and in two, and a third packet numbered 5 where 1 is due. *)
Lemma first_two_packets_two_replies_witness :
  receiver.on_recv 2
    (vectors.frame x00 [x0a; x35; x00] ++ vectors.frame x02 [x00; x00])
    receiver.start
  = receiver.Exits
      (receiver.mk
         (vectors.frame x00 [x0a; x35; x00] ++ vectors.frame x02 [x00; x00])
         (len [x0a; x35; x00] + 4 + len [x00; x00] + 4) [] false 2
         [[[x0a; x35; x00]]; [[x00; x00]]])
  /\ (receiver.on_recv 1 (vectors.frame x00 [x0a; x35; x00]) receiver.start
      = receiver.Exits
          (receiver.mk (vectors.frame x00 [x0a; x35; x00])
             (len [x0a; x35; x00] + 4) [] false 1 [[[x0a; x35; x00]]])
      /\ receiver.on_recv 1 (vectors.frame x02 [x00; x00])
           (receiver.mk (vectors.frame x00 [x0a; x35; x00])
              (len [x0a; x35; x00] + 4) [] false 1 [[[x0a; x35; x00]]])
         = receiver.Exits
             (receiver.mk (vectors.frame x02 [x00; x00])
                (len [x00; x00] + 4) [] false 2
                [[[x0a; x35; x00]]; [[x00; x00]]]))
  /\ receiver.body
       (receiver.mk (vectors.frame x05 [x01]) 0 [] false 2 [])
     = Err AssertionError.
Proof.
  destruct (first_two_packets_two_replies x00 x02 [x0a; x35; x00]
              [x00; x00] 0 eq_refl eq_refl
              ltac:(discriminate))
    as (Hone & Htwo & _ & Hseq).
  split; [exact Hone|].
  split; [apply Htwo; discriminate|].
  apply (Hseq (receiver.mk (vectors.frame x05 [x01]) 0 [] false 2 [])
           [] x05 [x01] []).
  - reflexivity.
  - reflexivity.
  - reflexivity.
  - discriminate.
  - cbn. lia.
  - cbn. lia.
Defined.

(** C7 as stated fails: the two packets that open a connection are not
    emitted together, as one reply of two packets. *)
Lemma greeting_packets_not_one_reply :
  ~ exists s,
      receiver.on_recv 2
        (vectors.frame x00 [x0a; x35; x00] ++ vectors.frame x02 [x00; x00])
        receiver.start = receiver.Exits s
      /\ receiver.produced s = [[[x0a; x35; x00]; [x00; x00]]].
Proof.
  intros (s & Hrun & Hp). vm_compute in Hrun.
  inversion Hrun; subst s. discriminate.
Qed.

(** ** Usage errors of [execute] and [query] *)

Section Usage.

Variable path_exists : pystr -> bool.
Variable sha1 : bytes -> bytes.
Variable peer : list Reply.

Variables (self : Mysql) (ch : Channel) (query : pystr) (buf : bytes).
Variables (reply : Reply) (rest : list Reply).
Hypothesis Hchan : _channel self = Some ch.
Hypothesis Halive : _alive ch = true.
Hypothesis Hcmd : command_packet query = Ok buf.
Hypothesis Hreply : replies ch = reply :: rest.

Local Abbreviation exchanged' := (exchanged self ch buf rest).

(** Both methods start with the same exchange. *)
Lemma exchange_done {A} (k : Reply -> M Mysql A) :
  (Mysql_channel path_exists sha1 peer ;;~
   buf <~ lift (command_packet query) ;;
   on_channel (request buf) ;;~
   reply <~ on_channel fut_get ;;
   k reply) self
  = k reply exchanged'.
Proof.
  unfold mbind, Mysql_channel, Channel_bool, lift, on_channel, request,
    fut_get, exchanged.
  rewrite Hchan, Halive, Hcmd. cbn. rewrite Hchan, Halive. cbn.
  rewrite Hreply.
  destruct ch, self; reflexivity.
Qed.

Lemma execute_usage_error :
  len reply <> 1 ->
  Mysql_execute path_exists sha1 peer query self
  = (Err AssertionError, exchanged').
Proof.
  intros Hlen. unfold Mysql_execute. rewrite exchange_done.
  unfold mbind, lift, py_assert.
  destruct (Z.eqb_spec (len reply) 1); [lia | reflexivity].
Qed.

Lemma query_usage_error (c0 : byte) (p : bytes) (tl : list bytes) :
  reply = (c0 :: p) :: tl ->
  byte_val c0 = 0 \/ byte_val c0 = 255 \/ byte_val c0 = 254 ->
  Mysql_query path_exists sha1 peer query self
  = (Err AssertionError, exchanged').
Proof.
  intros Hr Hc. unfold Mysql_query. rewrite exchange_done.
  rewrite Hr. unfold mbind, lift. cbn [index]. cbn -[byte_val].
  destruct Hc as [-> | [-> | ->]]; reflexivity.
Qed.

End Usage.

(** C8: a usage error is raised at once and consumes nothing.  The
    misuse shows in the reply to the statement: [execute] finds more
    than one packet, [query] finds a reply that starts with 00, ff or
    fe.  The error is raised as soon as that reply is there: the channel
    then holds the statement as its one new request and has given that
    one reply, so that between the reply and the error nothing is
    submitted and no reply is taken. *)
Theorem usage_error_after_exchange path_exists sha1 peer self ch query buf
    reply rest :
  _channel self = Some ch ->
  _alive ch = true ->
  command_packet query = Ok buf ->
  replies ch = reply :: rest ->
  (len reply <> 1 ->
   Mysql_execute path_exists sha1 peer query self
   = (Err AssertionError, exchanged self ch buf rest))
  /\ (forall c0 p tl,
         reply = (c0 :: p) :: tl ->
         byte_val c0 = 0 \/ byte_val c0 = 255 \/ byte_val c0 = 254 ->
         Mysql_query path_exists sha1 peer query self
         = (Err AssertionError, exchanged self ch buf rest))
  /\ option_map requests (_channel (exchanged self ch buf rest))
     = Some (requests ch ++ [buf])
  /\ option_map replies (_channel (exchanged self ch buf rest)) = Some rest.
Proof.
  intros Hchan Halive Hcmd Hreply. repeat split.
  - intros Hlen. now apply execute_usage_error with reply.
  - intros c0 p tl Hr Hc. now apply query_usage_error with reply c0 p tl.
Qed.

(** [execute] on the reply of a SELECT, and [query] on an OK packet. *)
Lemma usage_error_after_exchange_witness :
  (Mysql_execute vectors.any_file vectors.no_digest [] (str_of "SELECT 7")
     (vectors.client [vectors.rows_reply])
   = (Err AssertionError,
      exchanged (vectors.client [vectors.rows_reply])
        (vectors.fresh_channel [vectors.rows_reply])
        [x09; x00; x00; x00; x03; x53; x45; x4c; x45; x43; x54; x20; x37] [])
   /\ option_map requests
        (_channel
           (exchanged (vectors.client [vectors.rows_reply])
              (vectors.fresh_channel [vectors.rows_reply])
              [x09; x00; x00; x00; x03; x53; x45; x4c; x45; x43; x54; x20;
               x37] []))
      = Some ([] ++ [[x09; x00; x00; x00; x03; x53; x45; x4c; x45; x43; x54;
                      x20; x37]]))
  /\ Mysql_query vectors.any_file vectors.no_digest [] (str_of "SELECT 7")
       (vectors.client [[vectors.zero_ok]])
     = (Err AssertionError,
        exchanged (vectors.client [[vectors.zero_ok]])
          (vectors.fresh_channel [[vectors.zero_ok]])
          [x09; x00; x00; x00; x03; x53; x45; x4c; x45; x43; x54; x20; x37]
          []).
Proof.
  split.
  - destruct (usage_error_after_exchange vectors.any_file vectors.no_digest
                [] (vectors.client [vectors.rows_reply])
                (vectors.fresh_channel [vectors.rows_reply])
                (str_of "SELECT 7")
                [x09; x00; x00; x00; x03; x53; x45; x4c; x45; x43; x54; x20;
                 x37]
                vectors.rows_reply [] eq_refl eq_refl eq_refl eq_refl)
      as (Hexec & _ & Hreq & _).
    split; [|exact Hreq].
    apply Hexec. vm_compute. discriminate.
  - destruct (usage_error_after_exchange vectors.any_file vectors.no_digest
                [] (vectors.client [[vectors.zero_ok]])
                (vectors.fresh_channel [[vectors.zero_ok]])
                (str_of "SELECT 7")
                [x09; x00; x00; x00; x03; x53; x45; x4c; x45; x43; x54; x20;
                 x37]
                [vectors.zero_ok] [] eq_refl eq_refl eq_refl eq_refl)
      as (_ & Hquery & _).
    apply (Hquery x00 [x00; x00; x00; x00; x00; x00] []).
    + reflexivity.
    + left. reflexivity.
Defined.

(** * Further properties *)

(** ** The codec on well-formed and on short input *)

Lemma index_ok_bounds {A} (l : list A) (i : Z) (a : A) :
  0 <= i -> index l i = Ok a -> i < len l.
Proof.
  intros Hi. unfold index.
  destruct (Z.ltb_spec i 0); [lia|].
  destruct (Z.ltb_spec i 0); [lia|].
  destruct (nth_error l (Z.to_nat i)) eqn:E; [|discriminate].
  intros _. assert (Z.to_nat i < List.length l)%nat.
  { apply nth_error_Some. congruence. }
  unfold len. lia.
Qed.

Lemma index_past_end {A} (l : list A) (i : Z) :
  len l <= i -> index l i = Err IndexError.
Proof.
  intros Hi. pose proof (len_nonneg l). unfold index.
  destruct (Z.ltb_spec i 0); [lia|].
  destruct (Z.ltb_spec i 0); [lia|].
  destruct (nth_error l (Z.to_nat i)) eqn:E; [|reflexivity].
  assert (Z.to_nat i < List.length l)%nat.
  { apply nth_error_Some. congruence. }
  unfold len in *. lia.
Qed.

Lemma unpack_from_ok_bounds fmt (buf : bytes) (off : Z) t :
  0 <= off -> unpack_from fmt buf off = Ok t ->
  off + Z.of_nat (calcsize fmt) <= len buf.
Proof.
  intros Hoff. unfold unpack_from.
  destruct (Z.ltb_spec off 0); [lia|].
  destruct (Z.ltb_spec off 0); [lia|]. cbn [orb].
  destruct (Z.ltb_spec (len buf - off) (Z.of_nat (calcsize fmt)));
    [discriminate|]. lia.
Qed.

Lemma bind_ok {A B} (m : result A) (k : A -> result B) (y : B) :
  bind m k = Ok y -> exists a, m = Ok a /\ k a = Ok y.
Proof. destruct m; cbn; intros H; [eauto | discriminate]. Qed.

(** X1: a length-coded integer that decodes lies inside the buffer: from
    a position that is not negative, the next position is further on and
    not beyond the end; and a position at or beyond the end raises
    IndexError. *)
Theorem read_lcb_stays_inside (buf : bytes) (pos : Z) :
  0 <= pos ->
  (forall v p, _read_lcb buf pos = Ok (Some (v, p)) ->
               pos < p <= len buf)
  /\ (len buf <= pos -> _read_lcb buf pos = Err IndexError).
Proof.
  intros Hpos. split.
  - intros v p. unfold _read_lcb. intros H.
    apply bind_ok in H. destruct H as (c & Hc & H).
    apply index_ok_bounds in Hc; [|assumption].
    destruct (byte_val c <? 251); [inversion H; lia|].
    destruct (byte_val c =? 251); [inversion H; lia|].
    destruct (byte_val c =? 252).
    { apply bind_ok in H. destruct H as (t & Ht & H).
      apply unpack_from_ok_bounds in Ht; [|lia].
      inversion H; subst. cbn in Ht. lia. }
    destruct (byte_val c =? 253).
    { apply bind_ok in H. destruct H as (c1 & _ & H).
      apply bind_ok in H. destruct H as (c2 & _ & H).
      apply bind_ok in H. destruct H as (c3 & H3 & H).
      apply index_ok_bounds in H3; [|lia].
      inversion H; subst. lia. }
    destruct (byte_val c =? 254); [|discriminate].
    apply bind_ok in H. destruct H as (t & Ht & H).
    apply unpack_from_ok_bounds in Ht; [|lia].
    inversion H; subst. cbn in Ht. lia.
  - intros Hend. unfold _read_lcb.
    now rewrite index_past_end.
Qed.

Lemma read_lcb_stays_inside_witness :
  (forall v p, _read_lcb [xfd; x01; x02; x03; x09] 0 = Ok (Some (v, p)) ->
               0 < p <= len [xfd; x01; x02; x03; x09])
  /\ (len [xfd; x01; x02; x03; x09] <= 0 ->
      _read_lcb [xfd; x01; x02; x03; x09] 0 = Err IndexError).
Proof.
  apply (read_lcb_stays_inside [xfd; x01; x02; x03; x09] 0). lia.
Defined.

(** The three forms of a length-coded integer that decode to an
    int or to NULL: a leading byte below 251 is the value, 251 is NULL,
    and 253 is followed by the value in three bytes, least significant
    first, which is below 2^24. *)
Theorem read_lcb_int_forms (buf : bytes) (pos : Z) (c : byte) :
  index buf pos = Ok c ->
  (byte_val c < 251 ->
   _read_lcb buf pos = Ok (Some (VInt (byte_val c), pos + 1)))
  /\ (byte_val c = 251 ->
      _read_lcb buf pos = Ok (Some (VNone, pos + 1)))
  /\ (byte_val c = 253 ->
      forall c1 c2 c3,
        index buf (pos + 1) = Ok c1 ->
        index buf (pos + 2) = Ok c2 ->
        index buf (pos + 3) = Ok c3 ->
        exists n,
          _read_lcb buf pos = Ok (Some (VInt n, pos + 4))
          /\ n = byte_val c1 + 256 * byte_val c2 + 65536 * byte_val c3
          /\ 0 <= n < 2 ^ 24).
Proof.
  intros Hc. split; [|split].
  - intros Hlt. now apply read_lcb_small.
  - intros He. unfold _read_lcb. rewrite Hc. cbn [bind]. rewrite He.
    reflexivity.
  - intros He c1 c2 c3 H1 H2 H3.
    exists (byte_val c1 + 256 * byte_val c2 + 65536 * byte_val c3).
    split; [|split; [reflexivity|]].
    + unfold _read_lcb. rewrite Hc. cbn [bind]. rewrite He.
      cbn -[Z.shiftl Z.add Z.mul]. rewrite H1, H2, H3.
      cbn -[Z.shiftl Z.add Z.mul]. rewrite !Z.shiftl_mul_pow2 by lia.
      do 4 f_equal. lia.
    + pose proof (byte_val_range c1). pose proof (byte_val_range c2).
      pose proof (byte_val_range c3). lia.
Qed.

Lemma read_lcb_int_forms_witness :
  (byte_val x07 < 251 ->
   _read_lcb [x00; x07; x02] 1 = Ok (Some (VInt (byte_val x07), 1 + 1)))
  /\ (byte_val x07 = 251 ->
      _read_lcb [x00; x07; x02] 1 = Ok (Some (VNone, 1 + 1)))
  /\ (byte_val x07 = 253 ->
      forall c1 c2 c3,
        index [x00; x07; x02] (1 + 1) = Ok c1 ->
        index [x00; x07; x02] (1 + 2) = Ok c2 ->
        index [x00; x07; x02] (1 + 3) = Ok c3 ->
        exists n,
          _read_lcb [x00; x07; x02] 1 = Ok (Some (VInt n, 1 + 4))
          /\ n = byte_val c1 + 256 * byte_val c2 + 65536 * byte_val c3
          /\ 0 <= n < 2 ^ 24).
Proof.
  apply (read_lcb_int_forms [x00; x07; x02] 1 x07). reflexivity.
Defined.

Lemma index_at {A} (pre : list A) (a : A) (post : list A) :
  index (pre ++ a :: post) (len pre) = Ok a.
Proof.
  replace (len pre) with (len pre + 0) by lia.
  now rewrite index_app_r by lia.
Qed.

Lemma byte_val_of_len {A} (l : list A) :
  len l < 256 -> byte_val (byte_of_Z (len l)) = len l.
Proof.
  intros H. rewrite byte_val_of_Z. pose proof (len_nonneg l).
  now apply Z.mod_small.
Qed.

(** A slice whose end lies at or beyond the end of the list stops
    there. *)
Lemma slice_to_end {A} (pre s : list A) (n : Z) :
  len s <= n -> slice (pre ++ s) (len pre) (len pre + n) = s.
Proof.
  intros Hn. unfold slice, clamp. rewrite len_app.
  pose proof (len_nonneg pre). pose proof (len_nonneg s).
  destruct (Z.ltb_spec (len pre) 0); [lia|].
  destruct (Z.ltb_spec (len pre + n) 0); [lia|].
  rewrite (Z.min_l (len pre)), (Z.min_r (len pre + n)) by lia.
  replace (len pre + len s - len pre) with (len s) by lia.
  unfold len. rewrite !Nat2Z.id.
  rewrite skipn_app, skipn_all, Nat.sub_diag. cbn [skipn app].
  apply firstn_all.
Qed.

Section Strings_at.

Variables pre s post : bytes.

Lemma read_lcbytes_short :
  len s < 251 ->
  _read_lcbytes (pre ++ lc_short s ++ post) (len pre)
  = Ok (Some s, len pre + 1 + len s).
Proof.
  intros Hs. unfold _read_lcbytes, lc_short. cbn [app].
  rewrite index_at. cbn [bind].
  rewrite byte_val_of_len by lia.
  destruct (Z.ltb_spec (len s) 251); [|lia].
  change (pre ++ byte_of_Z (len s) :: s ++ post)
    with (pre ++ [byte_of_Z (len s)] ++ s ++ post).
  rewrite app_assoc.
  replace (len pre + 1) with (len (pre ++ [byte_of_Z (len s)]))
    by (rewrite len_app; reflexivity).
  now rewrite slice_middle.
Qed.

Lemma read_lcbytes_u24 :
  len s < 2 ^ 24 ->
  _read_lcbytes (pre ++ lc_u24 s ++ post) (len pre)
  = Ok (Some s, len pre + 4 + len s).
Proof.
  intros Hs. pose proof (len_nonneg s) as Hs0.
  destruct (le24_value (len s)) as (c0 & c1 & c2 & Hle & Hval); [lia|].
  unfold _read_lcbytes, lc_u24. rewrite Hle. cbn [app].
  rewrite index_at. cbn [bind]. change (byte_val xfd) with 253.
  change (253 <? 251) with false. change (253 =? 251) with false.
  change (253 =? 252) with false. change (253 =? 253) with true.
  cbv iota.
  replace (len pre + 1 + 1) with (len pre + 2) by lia.
  replace (len pre + 1 + 2) with (len pre + 3) by lia.
  rewrite !index_app_r by lia.
  change (index (xfd :: c0 :: c1 :: c2 :: s ++ post) 1) with (Ok c0).
  change (index (xfd :: c0 :: c1 :: c2 :: s ++ post) 2) with (Ok c1).
  change (index (xfd :: c0 :: c1 :: c2 :: s ++ post) 3) with (Ok c2).
  cbn [bind add_int]. rewrite Hval.
  change (pre ++ xfd :: c0 :: c1 :: c2 :: s ++ post)
    with (pre ++ [xfd; c0; c1; c2] ++ s ++ post).
  rewrite app_assoc.
  replace (len pre + 1 + 3) with (len (pre ++ [xfd; c0; c1; c2]))
    by (rewrite len_app; change (len [xfd; c0; c1; c2]) with 4; lia).
  rewrite slice_middle. rewrite len_app. change (len [xfd; c0; c1; c2]) with 4.
  reflexivity.
Qed.

End Strings_at.

(** X2: a byte string of fewer than 251 bytes, written as its length in
    one byte and then the bytes, is read back, whatever surrounds it,
    and so is a string of fewer than 2^24 bytes written after the byte
    253 and three bytes of length; the next position is the end of the
    string. *)
Theorem read_lcbytes_round_trip (pre s post : bytes) :
  (len s < 251 ->
   _read_lcbytes (pre ++ lc_short s ++ post) (len pre)
   = Ok (Some s, len pre + 1 + len s))
  /\ (len s < 2 ^ 24 ->
      _read_lcbytes (pre ++ lc_u24 s ++ post) (len pre)
      = Ok (Some s, len pre + 4 + len s)).
Proof.
  split.
  - apply read_lcbytes_short.
  - apply read_lcbytes_u24.
Qed.

Lemma read_lcbytes_round_trip_witness :
  _read_lcbytes ([x09] ++ lc_short [x61; x62] ++ [x00]) (len [x09])
  = Ok (Some [x61; x62], len [x09] + 1 + len [x61; x62])
  /\ _read_lcbytes ([x09] ++ lc_u24 [x61; x62] ++ [x00]) (len [x09])
     = Ok (Some [x61; x62], len [x09] + 4 + len [x61; x62]).
Proof.
  split.
  - apply (proj1 (read_lcbytes_round_trip [x09] [x61; x62] [x00])).
    reflexivity.
  - apply (proj2 (read_lcbytes_round_trip [x09] [x61; x62] [x00])).
    reflexivity.
Defined.

(** X3: when fewer bytes follow than the leading byte announces,
    [_read_lcbytes] raises nothing: it returns the bytes there are, and
    a next position beyond the end of the buffer. *)
Theorem read_lcbytes_truncated (pre s : bytes) (c : byte) :
  byte_val c < 251 -> len s < byte_val c ->
  _read_lcbytes (pre ++ c :: s) (len pre)
  = Ok (Some s, len pre + 1 + byte_val c)
  /\ len (pre ++ c :: s) < len pre + 1 + byte_val c.
Proof.
  intros Hc Hs. split.
  - unfold _read_lcbytes. rewrite index_at. cbn [bind].
    destruct (Z.ltb_spec (byte_val c) 251); [|lia].
    change (pre ++ c :: s) with (pre ++ [c] ++ s).
    rewrite app_assoc.
    replace (len pre + 1) with (len (pre ++ [c]))
      by (rewrite len_app; reflexivity).
    rewrite slice_to_end by lia. rewrite len_app. reflexivity.
  - rewrite len_app. change (len (c :: s)) with (Z.of_nat (S (List.length s))).
    unfold len in *. lia.
Qed.

Lemma read_lcbytes_truncated_witness :
  _read_lcbytes ([x09] ++ x05 :: [x61; x62]) (len [x09])
  = Ok (Some [x61; x62], len [x09] + 1 + byte_val x05)
  /\ len ([x09] ++ x05 :: [x61; x62]) < len [x09] + 1 + byte_val x05.
Proof.
  apply (read_lcbytes_truncated [x09] [x61; x62] x05).
  - reflexivity.
  - reflexivity.
Defined.

Lemma read_lcstr_as_lcbytes (buf : bytes) (pos : Z) :
  _read_lcstr buf pos = (r <- _read_lcbytes buf pos ;; decode_text r).
Proof.
  unfold _read_lcstr, _read_lcbytes.
  destruct (index buf pos) as [c|e]; [|reflexivity]. cbn [bind].
  destruct (byte_val c <? 251); [reflexivity|].
  destruct (byte_val c =? 251); [reflexivity|].
  destruct (byte_val c =? 252).
  { destruct (unpack_from fmt_H buf (pos + 1)); reflexivity. }
  destruct (byte_val c =? 253).
  { destruct (index buf (pos + 1)); [|reflexivity]. cbn [bind].
    destruct (index buf (pos + 1 + 1)); [|reflexivity]. cbn [bind].
    destruct (index buf (pos + 1 + 2)); reflexivity. }
  destruct (byte_val c =? 254).
  { destruct (unpack_from fmt_Q buf (pos + 1)); reflexivity. }
  reflexivity.
Qed.

(** X4: [_read_lcstr] is [_read_lcbytes] followed by UTF-8 decoding: the
    same errors, the same NULL, the same next position, and the text of
    the bytes where [_read_lcbytes] gives bytes. *)
Theorem read_lcstr_decodes_lcbytes (buf : bytes) (pos : Z) :
  _read_lcstr buf pos = (r <- _read_lcbytes buf pos ;; decode_text r).
Proof. apply read_lcstr_as_lcbytes. Qed.

(** X5: how the string decoder follows the integer decoder at the same
    position: where [_read_lcb] gives an int, [_read_lcbytes] takes that
    many bytes from the position [_read_lcb] ends at; NULL is NULL; where
    [_read_lcb] gives a tuple (leading byte 252 or 254),
    [_read_lcbytes] raises TypeError; and where [_read_lcb] falls off
    its end (leading byte 255), [_read_lcbytes] takes 255 for the
    length. *)
Theorem read_lcbytes_follows_lcb (buf : bytes) (pos : Z) :
  (forall n p, _read_lcb buf pos = Ok (Some (VInt n, p)) ->
               _read_lcbytes buf pos = Ok (Some (slice buf p (p + n)), p + n))
  /\ (forall p, _read_lcb buf pos = Ok (Some (VNone, p)) ->
                _read_lcbytes buf pos = Ok (None, p))
  /\ (forall t p, _read_lcb buf pos = Ok (Some (VTuple t, p)) ->
                  _read_lcbytes buf pos = Err TypeError)
  /\ (_read_lcb buf pos = Ok None ->
      _read_lcbytes buf pos
      = Ok (Some (slice buf (pos + 1) (pos + 1 + 255)), pos + 1 + 255)).
Proof.
  unfold _read_lcb, _read_lcbytes.
  destruct (index buf pos) as [c|e]; cbn [bind];
    [|repeat split; intros; discriminate].
  destruct (byte_val c <? 251) eqn:E1.
  { repeat split; intros; try discriminate.
    match goal with H : Ok _ = Ok _ |- _ => inversion H; subst end.
    reflexivity. }
  destruct (byte_val c =? 251) eqn:E2.
  { repeat split; intros; try discriminate.
    match goal with H : Ok _ = Ok _ |- _ => inversion H; subst end.
    reflexivity. }
  destruct (byte_val c =? 252) eqn:E3.
  { destruct (unpack_from fmt_H buf (pos + 1)); cbn [bind];
      repeat split; intros; try discriminate; reflexivity. }
  destruct (byte_val c =? 253) eqn:E4.
  { replace (pos + 1 + 1) with (pos + 2) by lia.
    replace (pos + 1 + 2) with (pos + 3) by lia.
    destruct (index buf (pos + 1)); cbn [bind];
      [|repeat split; intros; discriminate].
    destruct (index buf (pos + 2)); cbn [bind];
      [|repeat split; intros; discriminate].
    destruct (index buf (pos + 3)); cbn [bind];
      [|repeat split; intros; discriminate].
    repeat split; intros; try discriminate.
    match goal with H : Ok _ = Ok _ |- _ => inversion H; subst end.
    cbn [add_int bind]. replace (pos + 1 + 3) with (pos + 4) by lia.
    reflexivity. }
  destruct (byte_val c =? 254) eqn:E5.
  { destruct (unpack_from fmt_Q buf (pos + 1)); cbn [bind];
      repeat split; intros; try discriminate; reflexivity. }
  repeat split; intros; try discriminate.
  cbn [add_int bind].
  assert (byte_val c = 255).
  { pose proof (byte_val_range c).
    apply Z.ltb_ge in E1. apply Z.eqb_neq in E2, E3, E4, E5. lia. }
  now rewrite H0.
Qed.

Lemma read_lcbytes_follows_lcb_witness :
  _read_lcbytes [x03; x61; x62; x63; x00] 0
  = Ok (Some (slice [x03; x61; x62; x63; x00] 1 (1 + 3)), 1 + 3).
Proof.
  apply (proj1 (read_lcbytes_follows_lcb [x03; x61; x62; x63; x00] 0) 3 1).
  reflexivity.
Defined.

(** ** Field descriptors *)

Lemma read_lcstr_short_at (pre s post : bytes) (t : pystr) :
  len s < 251 -> decode_utf8 s = Ok t ->
  _read_lcstr (pre ++ lc_short s ++ post) (len pre)
  = Ok (Some t, len (pre ++ lc_short s)).
Proof.
  intros Hs Ht. rewrite read_lcstr_as_lcbytes, read_lcbytes_short by assumption.
  cbn [bind decode_text]. rewrite Ht. cbn [bind].
  rewrite len_app. unfold lc_short.
  change (len (byte_of_Z (len s) :: s)) with (Z.of_nat (S (List.length s))).
  unfold len. do 2 f_equal. lia.
Qed.

Lemma len_lc_short (s : bytes) : len (lc_short s) = 1 + len s.
Proof.
  unfold lc_short.
  change (len (byte_of_Z (len s) :: s)) with (Z.of_nat (S (List.length s))).
  unfold len. lia.
Qed.

Lemma unpack_from_app_r fmt (pre l : bytes) (i : Z) :
  0 <= i -> unpack_from fmt (pre ++ l) (len pre + i) = unpack_from fmt l i.
Proof.
  intros Hi. unfold unpack_from. pose proof (len_nonneg pre).
  assert (E1 : (len pre + i <? 0) = false) by (apply Z.ltb_ge; lia).
  assert (E2 : (i <? 0) = false) by (apply Z.ltb_ge; lia).
  cbv zeta. rewrite E1, E2. cbv iota. rewrite E1, E2. cbn [orb].
  rewrite len_app.
  replace (len pre + len l - (len pre + i)) with (len l - i) by lia.
  destruct (len l - i <? Z.of_nat (calcsize fmt)); [reflexivity|].
  rewrite skipn_app.
  replace (Z.to_nat (len pre + i)) with (List.length pre + Z.to_nat i)%nat
    by (unfold len; lia).
  rewrite (skipn_all2 pre) by lia.
  replace (List.length pre + Z.to_nat i - List.length pre)%nat
    with (Z.to_nat i) by lia.
  reflexivity.
Qed.

Section Field_packet.

(** The six names as bytes and as text, and the thirteen bytes that
    follow them. *)
Variables s1 s2 s3 s4 s5 s6 : bytes.
Variables t1 t2 t3 t4 t5 t6 : pystr.
Variables filler c0 c1 l0 l1 l2 l3 ty f0 f1 dc r0 r1 : byte.

Hypothesis Hlen : len s1 < 251 /\ len s2 < 251 /\ len s3 < 251
                  /\ len s4 < 251 /\ len s5 < 251 /\ len s6 < 251.
Hypothesis Htext : decode_utf8 s1 = Ok t1 /\ decode_utf8 s2 = Ok t2
                   /\ decode_utf8 s3 = Ok t3 /\ decode_utf8 s4 = Ok t4
                   /\ decode_utf8 s5 = Ok t5 /\ decode_utf8 s6 = Ok t6.

Local Abbreviation names :=
  (((((([] ++ lc_short s1) ++ lc_short s2) ++ lc_short s3) ++ lc_short s4)
    ++ lc_short s5) ++ lc_short s6).

Local Abbreviation fixed :=
  [filler; c0; c1; l0; l1; l2; l3; ty; f0; f1; dc; r0; r1].

Lemma parse_packet_upto (rest : bytes) :
  Field.parse_packet (names ++ fixed ++ rest) 0
  = (default <-
       (if len (names ++ fixed ++ rest) >? len names + 1 + 10 + 2 then
          d <- _read_lcstr (names ++ fixed ++ rest) (len names + 1 + 10 + 2) ;;
          Ok (Some d)
        else Ok None) ;;
     Ok (Field.mk (Some t1) (Some t2) (Some t3) (Some t4) (Some t5) (Some t6)
           (byte_val c0 + 256 * byte_val c1)
           (byte_val l0 + 256 * byte_val l1 + 65536 * byte_val l2
            + 16777216 * byte_val l3)
           (byte_val ty)
           (byte_val f0 + 256 * byte_val f1)
           (byte_val dc)
           default)).
Proof.
  destruct Hlen as (L1 & L2 & L3 & L4 & L5 & L6).
  destruct Htext as (T1 & T2 & T3 & T4 & T5 & T6).
  match goal with |- _ = ?rhs => remember rhs as R eqn:ER end.
  unfold Field.parse_packet.
  change 0 with (len (@nil byte)) at 1.
  repeat rewrite <- app_assoc.
  rewrite (read_lcstr_short_at [] s1 _ t1 L1 T1). cbn [bind].
  rewrite (app_assoc [] (lc_short s1)).
  rewrite (read_lcstr_short_at _ s2 _ t2 L2 T2). cbn [bind].
  rewrite (app_assoc _ (lc_short s2)).
  rewrite (read_lcstr_short_at _ s3 _ t3 L3 T3). cbn [bind].
  rewrite (app_assoc _ (lc_short s3)).
  rewrite (read_lcstr_short_at _ s4 _ t4 L4 T4). cbn [bind].
  rewrite (app_assoc _ (lc_short s4)).
  rewrite (read_lcstr_short_at _ s5 _ t5 L5 T5). cbn [bind].
  rewrite (app_assoc _ (lc_short s5)).
  rewrite (read_lcstr_short_at _ s6 _ t6 L6 T6). cbn [bind].
  rewrite (app_assoc _ (lc_short s6)).
  rewrite unpack_from_app_r by lia.
  assert (Hu : unpack_from FIELD_STR (fixed ++ rest) 1
               = Ok [VInt (le_int [c0; c1]); VInt (le_int [l0; l1; l2; l3]);
                     VInt (le_int [ty]); VInt (le_int [f0; f1]);
                     VInt (le_int [dc])]).
  { unfold unpack_from. cbn [app].
    change (1 <? 0) with false. cbv iota. cbn [orb].
    change (Z.of_nat (calcsize FIELD_STR)) with 10.
    pose proof (len_nonneg rest).
    assert (len (filler :: c0 :: c1 :: l0 :: l1 :: l2 :: l3 :: ty :: f0
                 :: f1 :: dc :: r0 :: r1 :: rest) = 13 + len rest)
      as -> by (unfold len; cbn [List.length]; lia).
    destruct (Z.ltb_spec (13 + len rest - 1) 10); [lia|].
    reflexivity. }
  rewrite Hu. cbn [bind].
  change (Z.of_nat (calcsize FIELD_STR)) with 10.
  replace (le_int [c0; c1]) with (byte_val c0 + 256 * byte_val c1)
    by (cbn [le_int]; lia).
  replace (le_int [l0; l1; l2; l3])
    with (byte_val l0 + 256 * byte_val l1 + 65536 * byte_val l2
          + 16777216 * byte_val l3) by (cbn [le_int]; lia).
  replace (le_int [ty]) with (byte_val ty) by (cbn [le_int]; lia).
  replace (le_int [f0; f1]) with (byte_val f0 + 256 * byte_val f1)
    by (cbn [le_int]; lia).
  replace (le_int [dc]) with (byte_val dc) by (cbn [le_int]; lia).
  subst R. repeat rewrite <- app_assoc. reflexivity.
Qed.

(** X6: a field packet made of six short length-coded names, a filler
    byte, the ten bytes of the fixed part and two reserved bytes parses
    to the six texts, the character set, length and flags read least
    significant byte first, the type code and the decimals; nothing
    follows, so the default is None. *)
Theorem parse_packet_layout :
  Field.parse_packet (names ++ fixed) 0
  = Ok (Field.mk (Some t1) (Some t2) (Some t3) (Some t4) (Some t5) (Some t6)
          (byte_val c0 + 256 * byte_val c1)
          (byte_val l0 + 256 * byte_val l1 + 65536 * byte_val l2
           + 16777216 * byte_val l3)
          (byte_val ty)
          (byte_val f0 + 256 * byte_val f1)
          (byte_val dc)
          None).
Proof.
  rewrite <- (app_nil_r fixed) at 1. rewrite parse_packet_upto.
  rewrite app_nil_r, len_app.
  change (len fixed) with 13.
  destruct (Z.gtb_spec (len names + 13) (len names + 1 + 10 + 2)); [lia|].
  reflexivity.
Qed.

(** X7: when a length-coded text follows the fixed part, the default of
    the field is not that text but the pair [_read_lcstr] returns: the
    text and the position after it. *)
Theorem parse_packet_default_is_pair (sd more : bytes) (td : pystr) :
  len sd < 251 -> decode_utf8 sd = Ok td ->
  exists f,
    Field.parse_packet (names ++ fixed ++ lc_short sd ++ more) 0 = Ok f
    /\ Field.default f = Some (Some td, len names + 13 + 1 + len sd)
    /\ Field.name f = Some t5
    /\ Field.type f = byte_val ty.
Proof.
  intros Hsd Htd. rewrite parse_packet_upto.
  assert (Hgt : (len (names ++ fixed ++ lc_short sd ++ more)
                 >? len names + 1 + 10 + 2) = true).
  { apply Z.gtb_lt. rewrite (len_app names), (len_app fixed), (len_app _ more).
    change (len fixed) with 13. rewrite len_lc_short.
    pose proof (len_nonneg more). pose proof (len_nonneg sd). lia. }
  rewrite Hgt.
  replace (len names + 1 + 10 + 2) with (len (names ++ fixed))
    by (rewrite len_app; change (len fixed) with 13; lia).
  rewrite (app_assoc names fixed).
  rewrite (read_lcstr_short_at _ sd more td Hsd Htd). cbn [bind].
  eexists. split; [reflexivity|]. cbn [Field.default Field.name Field.type].
  repeat split.
  rewrite (len_app (names ++ fixed)), (len_app names), len_lc_short.
  change (len fixed) with 13. do 2 f_equal. lia.
Qed.

End Field_packet.

Lemma parse_packet_layout_witness :
  Field.parse_packet
    ((((((([] ++ lc_short [x64; x65; x66]) ++ lc_short [x74])
          ++ lc_short [x74]) ++ lc_short [x74]) ++ lc_short [x69; x64])
      ++ lc_short [x69; x64])
     ++ [x0c; x3f; x00; x0b; x00; x00; x00; x03; x03; x42; x00; x00; x00]) 0
  = Ok (Field.mk (Some (str_of "def")) (Some (str_of "t")) (Some (str_of "t"))
          (Some (str_of "t")) (Some (str_of "id")) (Some (str_of "id"))
          (byte_val x3f + 256 * byte_val x00)
          (byte_val x0b + 256 * byte_val x00 + 65536 * byte_val x00
           + 16777216 * byte_val x00)
          (byte_val x03)
          (byte_val x03 + 256 * byte_val x42)
          (byte_val x00)
          None).
Proof.
  apply (parse_packet_layout [x64; x65; x66] [x74] [x74] [x74] [x69; x64]
           [x69; x64] (str_of "def") (str_of "t") (str_of "t") (str_of "t")
           (str_of "id") (str_of "id")
           x0c x3f x00 x0b x00 x00 x00 x03 x03 x42 x00 x00 x00).
  - repeat split; reflexivity.
  - repeat split; reflexivity.
Defined.

Lemma parse_packet_default_is_pair_witness :
  exists f,
    Field.parse_packet
      ((((((([] ++ lc_short [x64; x65; x66]) ++ lc_short [x74])
            ++ lc_short [x74]) ++ lc_short [x74]) ++ lc_short [x69; x64])
        ++ lc_short [x69; x64])
       ++ [x0c; x3f; x00; x0b; x00; x00; x00; x03; x03; x42; x00; x00; x00]
       ++ lc_short [x37] ++ []) 0 = Ok f
    /\ Field.default f
       = Some (Some (str_of "7"),
               len (((((([] ++ lc_short [x64; x65; x66]) ++ lc_short [x74])
                       ++ lc_short [x74]) ++ lc_short [x74])
                     ++ lc_short [x69; x64]) ++ lc_short [x69; x64])
               + 13 + 1 + len [x37])
    /\ Field.name f = Some (str_of "id")
    /\ Field.type f = byte_val x03.
Proof.
  apply (parse_packet_default_is_pair [x64; x65; x66] [x74] [x74] [x74]
           [x69; x64] [x69; x64] (str_of "def") (str_of "t") (str_of "t")
           (str_of "t") (str_of "id") (str_of "id")
           x0c x3f x00 x0b x00 x00 x00 x03 x03 x42 x00 x00 x00).
  - repeat split; reflexivity.
  - repeat split; reflexivity.
  - reflexivity.
  - reflexivity.
Defined.


(** ** The two views of a result set *)

Section Views.

Variable colvalue : Type.
Variable col_none : colvalue.
Variable col_str : pystr -> colvalue.
Variables py_Decimal py_int py_float py_bytes
  : option bytes -> result colvalue.

Local Abbreviation iter_fields' :=
  (iter_fields colvalue col_none col_str py_Decimal py_int py_float py_bytes).
Local Abbreviation tuples_fields' :=
  (tuples_fields colvalue col_none col_str py_Decimal py_int py_float py_bytes).
Local Abbreviation Resultset_iter' :=
  (Resultset_iter colvalue col_none col_str py_Decimal py_int py_float py_bytes).
Local Abbreviation Resultset_tuples' :=
  (Resultset_tuples colvalue col_none col_str py_Decimal py_int py_float
     py_bytes).

Lemma tuples_fields_extends (fs : list Field.t) (rpacket : bytes) :
  forall pos buf vs',
    tuples_fields' fs rpacket pos buf = Ok vs' ->
    exists vs, vs' = buf ++ vs /\ List.length vs = List.length fs.
Proof.
  induction fs as [|f fs IH]; intros pos buf vs' H; cbn in H.
  - inversion H. exists []. now rewrite app_nil_r.
  - apply bind_ok in H. destruct H as ([col pos'] & _ & H).
    destruct (FIELD_MAPPING (Field.type f)); [|discriminate].
    apply bind_ok in H. destruct H as (v & _ & H).
    apply IH in H. destruct H as (vs & -> & Hl).
    exists (v :: vs). rewrite <- app_assoc. cbn. auto.
Qed.

(** The mapping view of a row is the positional view assigned to the
    names, and both raise the same exception. *)
Lemma row_views_agree (fs : list Field.t) (rpacket : bytes) :
  forall pos r buf,
    match tuples_fields' fs rpacket pos buf with
    | Ok vs' =>
        exists vs, vs' = buf ++ vs
                   /\ iter_fields' fs rpacket pos r = Ok (assign_all r fs vs)
    | Err e => iter_fields' fs rpacket pos r = Err e
    end.
Proof.
  induction fs as [|f fs IH]; intros pos r buf; cbn.
  - exists []. now rewrite app_nil_r.
  - destruct (_read_lcbytes rpacket pos) as [[col pos']|e]; cbn; auto.
    destruct (FIELD_MAPPING (Field.type f)) as [cvt|]; auto.
    destruct (call _ _ _ _ _ _ _ cvt col) as [v|e]; cbn; auto.
    specialize (IH pos' (setitem colvalue r (Field.name f) v) (buf ++ [v])).
    destruct (tuples_fields' fs rpacket pos' (buf ++ [v])) as [vs'|e]; auto.
    destruct IH as (vs & -> & Hi).
    exists (v :: vs). rewrite <- app_assoc. split; [reflexivity|].
    exact Hi.
Qed.

Lemma generate_map {R1 R2} (f : R2 -> R1) (body1 : bytes -> result R1)
    (body2 : bytes -> result R2) :
  (forall p, body1 p = match body2 p with
                       | Ok v => Ok (f v)
                       | Err e => Err e
                       end) ->
  forall packets,
    generate body1 packets
    = (map f (fst (generate body2 packets)), snd (generate body2 packets)).
Proof.
  intros Hrel. induction packets as [|p rest IH]; cbn; [reflexivity|].
  rewrite Hrel. destruct (body2 p) as [v|e]; [|reflexivity].
  rewrite IH. destruct (generate body2 rest). reflexivity.
Qed.

(** X8: the two views of a result set agree: the mapping view yields,
    for each tuple of the positional view, the dict that assigns the
    values to the field names in order, it yields as many rows, and it
    ends with the same exception, if any. *)
Theorem views_agree (rs : Resultset) :
  Resultset_iter' rs
  = (map (assign_all [] (fields rs)) (fst (Resultset_tuples' rs)),
     snd (Resultset_tuples' rs)).
Proof.
  unfold Resultset_iter, Resultset_tuples.
  destruct (row_packets rs) as [packets|e]; [|reflexivity].
  apply generate_map. intros p.
  pose proof (row_views_agree (fields rs) p 0 [] []) as H.
  destruct (tuples_fields' (fields rs) p 0 []) as [vs'|e]; [|exact H].
  destruct H as (vs & -> & H). exact H.
Qed.

Lemma generate_yields {R} (body : bytes -> result R) (P : R -> Prop) :
  (forall p r, body p = Ok r -> P r) ->
  forall packets r, In r (fst (generate body packets)) -> P r.
Proof.
  intros Hbody. induction packets as [|p rest IH]; cbn; [tauto|].
  destruct (body p) as [r0|e] eqn:E; [|cbn; tauto].
  destruct (generate body rest) as [rs e'] eqn:G. cbn in *.
  intros r [<-|Hin]; eauto.
Qed.

(** X9: every tuple the positional view yields has one value for each
    field, in the order of the fields. *)
Theorem tuples_have_all_columns (rs : Resultset) (vs : list colvalue) :
  In vs (fst (Resultset_tuples' rs)) ->
  List.length vs = List.length (fields rs).
Proof.
  unfold Resultset_tuples.
  destruct (row_packets rs) as [packets|e]; [|cbn; tauto].
  revert vs.
  apply (generate_yields _
           (fun vs => List.length vs = List.length (fields rs))).
  intros p r H.
  apply tuples_fields_extends in H. destruct H as (vs0 & -> & Hl).
  exact Hl.
Qed.

Lemma key_eqb_eq (a b : option pystr) : key_eqb a b = true <-> a = b.
Proof.
  unfold key_eqb. destruct a as [x|], b as [y|]; cbn;
    try (split; congruence).
  destruct (list_eq_dec Z.eq_dec x y); split; congruence.
Qed.

Lemma setitem_keys_in (d : row colvalue) (k k' : option pystr) (v : colvalue) :
  In k' (map fst (setitem colvalue d k v)) <-> In k' (map fst d) \/ k' = k.
Proof.
  induction d as [|[k0 v0] d IH]; cbn.
  - intuition congruence.
  - destruct (key_eqb k0 k) eqn:E; cbn.
    + apply key_eqb_eq in E. subst. intuition congruence.
    + rewrite IH. tauto.
Qed.

Lemma setitem_keys_nodup (d : row colvalue) (k : option pystr) (v : colvalue) :
  NoDup (map fst d) -> NoDup (map fst (setitem colvalue d k v)).
Proof.
  induction d as [|[k0 v0] d IH]; cbn; intros Hnd.
  - constructor; [tauto | constructor].
  - destruct (key_eqb k0 k) eqn:E; cbn; [exact Hnd|].
    inversion Hnd; subst. constructor; [|now apply IH].
    rewrite setitem_keys_in. intros [Hin | ->]; [tauto|].
    assert (key_eqb k k = true) by now apply key_eqb_eq.
    congruence.
Qed.

Lemma assign_all_keys (fs : list Field.t) :
  forall (vs : list colvalue) (r : row colvalue),
    List.length vs = List.length fs ->
    NoDup (map fst r) ->
    NoDup (map fst (assign_all r fs vs))
    /\ forall k, In k (map fst (assign_all r fs vs))
                 <-> In k (map fst r) \/ In k (map Field.name fs).
Proof.
  unfold assign_all.
  induction fs as [|f fs IH]; intros vs r Hl Hnd.
  - cbn. split; [assumption | tauto].
  - destruct vs as [|v vs]; [discriminate|]. cbn [combine fold_left fst snd].
    destruct (IH vs (setitem colvalue r (Field.name f) v)) as [Hn Hk].
    + cbn in Hl. lia.
    + now apply setitem_keys_nodup.
    + split; [exact Hn|]. intros k. rewrite Hk, setitem_keys_in. cbn.
      intuition congruence.
Qed.

(** X10: the keys of a row of the mapping view are the names of the
    fields, each once: two fields of the same name leave one entry, so
    the row can have fewer entries than the result set has columns. *)
Theorem mapping_keys_are_names (rs : Resultset) (r : row colvalue) :
  In r (fst (Resultset_iter' rs)) ->
  NoDup (map fst r)
  /\ (forall k, In k (map fst r) <-> In k (map Field.name (fields rs))).
Proof.
  unfold Resultset_iter.
  destruct (row_packets rs) as [packets|e]; [|cbn; tauto].
  revert r.
  apply (generate_yields _
           (fun r => NoDup (map fst r)
                     /\ (forall k, In k (map fst r)
                                   <-> In k (map Field.name (fields rs))))).
  intros p r H.
  pose proof (row_views_agree (fields rs) p 0 [] []) as Hv.
  destruct (tuples_fields' (fields rs) p 0 []) as [vs'|e] eqn:Et;
    [|congruence].
  destruct Hv as (vs & -> & Hi).
  apply tuples_fields_extends in Et. destruct Et as (vs0 & Hvs & Hl).
  cbn in Hvs. subst vs0.
  rewrite Hi in H. inversion H; subst r.
  destruct (assign_all_keys (fields rs) vs [] Hl) as [Hn Hk];
    [constructor|].
  split; [exact Hn|]. intros k. rewrite Hk. cbn. tauto.
Qed.

Lemma generate_prefix {R} (body : bytes -> result R) (good : list bytes)
    (rows : list R) (tail : list bytes) :
  Forall2 (fun p r => body p = Ok r) good rows ->
  generate body (good ++ tail)
  = (rows ++ fst (generate body tail), snd (generate body tail)).
Proof.
  induction 1 as [|p r good rows Hp _ IH]; cbn.
  - now destruct (generate body tail).
  - rewrite Hp, IH. reflexivity.
Qed.

(** X11: a traversal is lazy about errors: the rows before the first
    row packet that does not decode are yielded, then its exception
    ends the traversal and the packets after it are not looked at; when
    every row packet decodes, all rows are yielded and no exception is
    raised. *)
Theorem traversal_stops_at_first_error (rs : Resultset)
    (good : list bytes) (rows : list (list colvalue)) :
  Forall2 (fun p vs => tuples_fields' (fields rs) p 0 [] = Ok vs)
    good rows ->
  (forall bad rest e,
      row_packets rs = Ok (good ++ bad :: rest) ->
      tuples_fields' (fields rs) bad 0 [] = Err e ->
      Resultset_tuples' rs = (rows, Some e))
  /\ (row_packets rs = Ok good -> Resultset_tuples' rs = (rows, None)).
Proof.
  intros Hgood. split.
  - intros bad rest e Hp Hbad. unfold Resultset_tuples. rewrite Hp.
    rewrite (generate_prefix _ good rows (bad :: rest) Hgood).
    cbn. rewrite Hbad. cbn. now rewrite app_nil_r.
  - intros Hp. unfold Resultset_tuples. rewrite Hp.
    rewrite <- (app_nil_r good).
    rewrite (generate_prefix _ good rows [] Hgood).
    cbn. now rewrite app_nil_r.
Qed.

End Views.

Lemma tuples_have_all_columns_witness :
  List.length [raw (Some [x31]); text (str_of "alice")]
  = List.length (fields two_rows).
Proof.
  apply (tuples_have_all_columns sample_value null text
           raw_column raw_column raw_column raw_column two_rows
           [raw (Some [x31]); text (str_of "alice")]).
  vm_compute. left. reflexivity.
Defined.

Lemma mapping_keys_are_names_witness :
  NoDup (map fst [(Some (str_of "id"), raw (Some [x31]));
                  (Some (str_of "name"), text (str_of "alice"))])
  /\ (forall k,
         In k (map fst [(Some (str_of "id"), raw (Some [x31]));
                        (Some (str_of "name"), text (str_of "alice"))])
         <-> In k (map Field.name (fields two_rows))).
Proof.
  apply (mapping_keys_are_names sample_value null text
           raw_column raw_column raw_column raw_column two_rows).
  vm_compute. left. reflexivity.
Defined.

(** A NULL in the text column of the second of three rows ends the
    traversal after the first row with TypeError; without it both rows
    are yielded. *)
Lemma traversal_stops_at_first_error_witness :
  Resultset_tuples sample_value null text raw_column
    raw_column raw_column raw_column null_name_rows
  = ([[raw (Some [x31]); text (str_of "alice")]], Some TypeError)
  /\ Resultset_tuples sample_value null text raw_column
       raw_column raw_column raw_column two_rows
     = ([[raw (Some [x31]); text (str_of "alice")];
         [raw (Some [x32]); text (str_of "bob")]], None).
Proof.
  split.
  - apply (proj1 (traversal_stops_at_first_error sample_value null text
                    raw_column raw_column raw_column raw_column
                    null_name_rows
                    [lc_short [x31] ++ lc_short [x61; x6c; x69; x63; x65]]
                    [[raw (Some [x31]); text (str_of "alice")]]
                    ltac:(repeat constructor))
             (lc_short [x32] ++ [xfb])
             [lc_short [x33] ++ lc_short [x62; x6f; x62]]
             TypeError).
    + reflexivity.
    + reflexivity.
  - apply (proj2 (traversal_stops_at_first_error sample_value null text
                    raw_column raw_column raw_column raw_column two_rows
                    [lc_short [x31] ++ lc_short [x61; x6c; x69; x63; x65];
                     lc_short [x32] ++ lc_short [x62; x6f; x62]]
                    [[raw (Some [x31]); text (str_of "alice")];
                     [raw (Some [x32]); text (str_of "bob")]]
                    ltac:(repeat constructor))).
    reflexivity.
Defined.


Lemma slice_prefix_middle {A} (pre mid post : list A) (n : Z) :
  n = len pre ->
  slice (pre ++ mid ++ post) n (n + len mid) = mid.
Proof. intros ->. apply slice_middle. Qed.

Lemma resultset_init_fields (hdr eof last : bytes) (fps rows : list bytes)
    (extra : value) :
  Resultset_init (hdr :: fps ++ eof :: rows ++ [last]) (VInt (len fps)) extra
  = (fs <- parse_fields fps ;;
     Ok (mkResultset (VInt (len fps)) extra fs
           (hdr :: fps ++ eof :: rows ++ [last]))).
Proof.
  unfold Resultset_init. cbn [add_int bind].
  change (hdr :: fps ++ eof :: rows ++ [last])
    with ([hdr] ++ fps ++ eof :: rows ++ [last]).
  rewrite (slice_prefix_middle [hdr] fps _ 1) by reflexivity.
  reflexivity.
Qed.

Lemma row_packets_rows (hdr eof last : bytes) (fps rows : list bytes)
    (extra : value) (fs : list Field.t) :
  row_packets (mkResultset (VInt (len fps)) extra fs
                 (hdr :: fps ++ eof :: rows ++ [last]))
  = Ok rows.
Proof.
  pose proof (len_nonneg fps) as Hf. pose proof (len_nonneg rows) as Hr.
  unfold row_packets. cbn [nfields reply add_int bind].
  f_equal.
  change (hdr :: fps ++ eof :: rows ++ [last])
    with ([hdr] ++ fps ++ [eof] ++ rows ++ [last]).
  rewrite !app_assoc. rewrite <- (app_assoc _ rows).
  set (pre := ([hdr] ++ fps) ++ [eof]).
  assert (Hpre : len pre = 2 + len fps).
  { unfold pre. rewrite !len_app. change (len [hdr]) with 1.
    change (len [eof]) with 1. lia. }
  unfold slice, clamp. rewrite !len_app, Hpre.
  change (len [last]) with 1.
  destruct (Z.ltb_spec (2 + len fps) 0); [lia|].
  change (-1 <? 0) with true. cbv iota.
  rewrite Z.min_l, Z.max_r by lia.
  replace (-1 + (2 + len fps + (len rows + 1)) - (2 + len fps))
    with (len rows) by lia.
  replace (Z.to_nat (2 + len fps)) with (List.length pre)
    by (unfold len in *; lia).
  rewrite skipn_app, skipn_all, Nat.sub_diag. cbn [skipn app].
  unfold len. rewrite Nat2Z.id.
  rewrite firstn_app, firstn_all, Nat.sub_diag. cbn [firstn].
  apply app_nil_r.
Qed.

(** X12: over a reply made of a header, the field packets, a marker,
    the row packets and a closing packet, with the number of field
    packets for [nfields], the constructor parses exactly the field
    packets and the traversals read exactly the row packets: the header,
    the marker and the closing packet are skipped. *)
Theorem resultset_slices (hdr eof last : bytes) (fps rows : list bytes)
    (extra : value) :
  Resultset_init (hdr :: fps ++ eof :: rows ++ [last]) (VInt (len fps)) extra
  = (fs <- parse_fields fps ;;
     Ok (mkResultset (VInt (len fps)) extra fs
           (hdr :: fps ++ eof :: rows ++ [last])))
  /\ forall fs,
       row_packets (mkResultset (VInt (len fps)) extra fs
                      (hdr :: fps ++ eof :: rows ++ [last]))
       = Ok rows.
Proof.
  split.
  - apply resultset_init_fields.
  - intros fs. apply row_packets_rows.
Qed.

(** ** Capabilities and their negotiation *)

Lemma init_of_mask (n : Z) :
  Capabilities.init (Z.land n Capabilities.all_masks) = Capabilities.init n.
Proof.
  unfold Capabilities.init, has.
  rewrite <- !Z.land_assoc.
  reflexivity.
Qed.

(** X13: for every integer, negative ones included, [to_int] after
    [Capabilities] is the integer masked with the seventeen flags: the
    bits 14 and 18 and above are dropped, the result lies in
    [0, 2^18), and building the capabilities again from it changes
    nothing. *)
Theorem capabilities_mask (n : Z) :
  Capabilities.to_int (Capabilities.init n)
  = Z.land n Capabilities.all_masks
  /\ 0 <= Capabilities.to_int (Capabilities.init n) < 2 ^ 18
  /\ Capabilities.init (Capabilities.to_int (Capabilities.init n))
     = Capabilities.init n.
Proof.
  rewrite to_int_init. split; [reflexivity|]. split.
  - split.
    + apply Z.land_nonneg. right. cbv. discriminate.
    + assert (H : Z.land n Capabilities.all_masks
                  = Z.land (Z.land n Capabilities.all_masks) (Z.ones 18)).
      { rewrite <- Z.land_assoc. reflexivity. }
      rewrite H, Z.land_ones by lia.
      apply Z.mod_pos_bound. lia.
  - apply init_of_mask.
Qed.

Lemma has_pow2 (n k : Z) : 0 <= k -> has n (2 ^ k) = Z.testbit n k.
Proof.
  intros Hk. unfold has. rewrite land_pow2 by assumption.
  assert (0 < 2 ^ k) by (apply Z.pow_pos_nonneg; lia).
  destruct (Z.testbit n k); cbn.
  - destruct (Z.eqb_spec (2 ^ k) 0); [lia | reflexivity].
  - reflexivity.
Qed.

(** X14: the negotiation goes through exactly when the server offers
    protocol 41 (bit 9) and connect-with-db (bit 3); the channel then
    holds the server's set with the five flags cleared.  Without one of
    the two bits it raises AssertionError and the channel is left with
    the server's set as it came. *)
Theorem negotiate_outcomes (caphigh caplow : Z) (c : Channel) :
  (Z.testbit (Z.shiftl caphigh 16 + caplow) 9 = true
   /\ Z.testbit (Z.shiftl caphigh 16 + caplow) 3 = true ->
   negotiate caphigh caplow c
   = (Ok (negotiated (Capabilities.init (Z.shiftl caphigh 16 + caplow))),
      set_capabilities
        (negotiated (Capabilities.init (Z.shiftl caphigh 16 + caplow))) c))
  /\ (Z.testbit (Z.shiftl caphigh 16 + caplow) 9 = false
      \/ Z.testbit (Z.shiftl caphigh 16 + caplow) 3 = false ->
      negotiate caphigh caplow c
      = (Err AssertionError,
         set_capabilities
           (Capabilities.init (Z.shiftl caphigh 16 + caplow)) c)).
Proof.
  split.
  - intros [H9 H3]. apply negotiate_ok; cbn [Capabilities.init
      Capabilities.protocol_41 Capabilities.connect_with_db].
    + change 512 with (2 ^ 9). now rewrite has_pow2 by lia.
    + change 8 with (2 ^ 3). now rewrite has_pow2 by lia.
  - unfold negotiate, mbind, modify, lift, ret.
    remember (Z.shiftl caphigh 16 + caplow) as n eqn:En. intros H.
    cbn [Capabilities.init Capabilities.protocol_41
           Capabilities.connect_with_db].
    change 512 with (2 ^ 9). change 8 with (2 ^ 3).
    rewrite !has_pow2 by lia.
    destruct (Z.testbit n 9); cbn [py_assert].
    + destruct H as [H|H]; [discriminate|]. rewrite H. reflexivity.
    + reflexivity.
Qed.

Lemma negotiate_outcomes_witness :
  negotiate 1 520 (vectors.fresh_channel [])
  = (Ok (negotiated (Capabilities.init (Z.shiftl 1 16 + 520))),
     set_capabilities
       (negotiated (Capabilities.init (Z.shiftl 1 16 + 520)))
       (vectors.fresh_channel []))
  /\ negotiate 0 8 (vectors.fresh_channel [])
     = (Err AssertionError,
        set_capabilities (Capabilities.init (Z.shiftl 0 16 + 8))
          (vectors.fresh_channel [])).
Proof.
  split.
  - apply (proj1 (negotiate_outcomes 1 520 (vectors.fresh_channel []))).
    split; reflexivity.
  - apply (proj2 (negotiate_outcomes 0 8 (vectors.fresh_channel []))).
    left. reflexivity.
Defined.

Lemma set_if_land_keep (flag : bool) (mask acc k : Z) :
  Z.land mask k = mask ->
  Z.land (set_if flag mask acc) k = set_if flag mask (Z.land acc k).
Proof.
  intros H. unfold set_if. destruct flag; [|reflexivity].
  now rewrite Z.land_lor_distr_l, H.
Qed.

(** X15: the capability field of the authentication packet, the low
    sixteen bits of the negotiated set, is the server's set masked with
    0x979f: of bits 0 to 15 all are passed on as the server sent them
    but compress (5), odbc (6), ssl (11), transactions (13) and the
    unused bit 14. *)
Theorem sent_capabilities (caps0 : Capabilities.t) :
  Z.land (Capabilities.to_int (negotiated caps0)) 65535
  = Z.land (Capabilities.to_int caps0) 38815.
Proof.
  unfold Capabilities.to_int. cbn -[set_if Z.land].
  repeat first [ rewrite set_if_land_disjoint by reflexivity
               | rewrite set_if_land_keep by reflexivity
               | progress cbn [set_if] ].
  reflexivity.
Qed.

(** ** The channel: construction and handshake *)

(** The constructor succeeds exactly for the host 'localhost' with
    a socket file that exists, whatever the port: the channel is alive,
    nothing is queued, the socket is a non-blocking local one and the
    address is the path.  In every other case it raises
    UnboundLocalError. *)
Theorem Channel_init_outcomes (path_exists : pystr -> bool)
    (peer : list Reply) (host : pystr) (port : Z) (unixsock : pystr) :
  Channel_init path_exists peer host port unixsock
  = if str_eqb host (str_of "localhost") && path_exists unixsock then
      Ok {| _alive := true; requests := []; replies := peer;
            _sock := {| sock_family := AF_UNIX; blocking := false |};
            __addr := unix_address unixsock;
            thread_id := None; language := None; status := None;
            capabilities := None |}
    else Err UnboundLocalError.
Proof.
  unfold Channel_init.
  destruct (str_eqb host (str_of "localhost")); cbn [andb]; [|reflexivity].
  destruct (path_exists unixsock); reflexivity.
Qed.

Lemma pack_auth_value (z : Z) :
  pack auth_fmt [VInt (Z.land z 65535); VBytes [x8f; xff; xff; xff];
                 VInt 33; VBytes (repeat x00 23)]
  = Ok (le_bytes 4 (Z.land z 65535)
        ++ [x8f; xff; xff; xff; x21] ++ repeat x00 23).
Proof.
  pose proof (land_65535_range z) as [Hlo Hhi].
  unfold auth_fmt, pack.
  cbn [item_size Z.of_nat Pos.of_succ_nat Pos.succ Z.mul Pos.mul].
  destruct (Z.leb_spec 0 (Z.land z 65535)); [|lia].
  destruct (Z.ltb_spec (Z.land z 65535) (2 ^ 32)); [|lia].
  cbn -[le_bytes Z.land]. reflexivity.
Qed.

(** X16: without a password the authentication packet is a frame with
    sequence number 1 whose payload is the low sixteen capability bits
    as a 32-bit number, the bytes 8f ff ff ff, the character set 33,
    twenty-three zero bytes, the user and a zero byte, the single zero
    byte of the empty token, and the database and a zero byte; the
    scramble is not used. *)
Theorem auth_packet_layout (sha1 : bytes -> bytes) (caps : Capabilities.t)
    (scramble : bytes) (user database : pystr) (u d : bytes) :
  encode_ascii user = Ok u ->
  encode_ascii database = Ok d ->
  auth_packet sha1 caps scramble user [] database
  = Ok (vectors.frame x01
          ((((((le_bytes 4 (Z.land (Capabilities.to_int caps) 65535)
               ++ [x8f; xff; xff; xff; x21] ++ repeat x00 23)
              ++ u) ++ [x00]) ++ [x00]) ++ d) ++ [x00])).
Proof.
  intros Hu Hd. unfold auth_packet. rewrite pack_auth_value.
  cbn [iadd bind]. rewrite Hu. cbn [iadd bind]. rewrite Hd.
  cbn [iadd bind]. cbn [app]. apply set_length_frame.
Qed.

Lemma auth_packet_layout_witness :
  auth_packet vectors.no_digest (Capabilities.init 41484) [x61; x62]
    (str_of "root") [] (str_of "test")
  = Ok (vectors.frame x01
          ((((((le_bytes 4
                 (Z.land (Capabilities.to_int (Capabilities.init 41484)) 65535)
               ++ [x8f; xff; xff; xff; x21] ++ repeat x00 23)
              ++ [x72; x6f; x6f; x74]) ++ [x00]) ++ [x00])
            ++ [x74; x65; x73; x74]) ++ [x00])).
Proof.
  apply (auth_packet_layout vectors.no_digest (Capabilities.init 41484)
           [x61; x62] (str_of "root") (str_of "test")
           [x72; x6f; x6f; x74] [x74; x65; x73; x74]).
  - reflexivity.
  - reflexivity.
Defined.

(** X17: a greeting whose first byte is not the protocol version 10
    ends the handshake at once: AssertionError is raised, nothing was
    submitted, the greeting is consumed and the channel is dead. *)
Theorem connect_rejects_protocol (sha1 : bytes -> bytes)
    (user password database : pystr) (c : Channel) (h0 : byte) (g : bytes)
    (more : list Reply) :
  replies c = [h0 :: g] :: more ->
  byte_val h0 <> 10 ->
  Channel_connect sha1 user password database c
  = (Err AssertionError,
     set_alive false (set_queues (requests c) more c)).
Proof.
  intros Hr Hv. unfold Channel_connect, Channel__connect, greet, mbind.
  unfold fut_get at 1. rewrite Hr. unfold lift at 1 2.
  cbn [index Z.ltb Z.compare nth_error Z.to_nat]. unfold lift at 1.
  destruct (Z.eqb_spec (byte_val h0) 10); [contradiction|].
  reflexivity.
Qed.

Lemma connect_rejects_protocol_witness :
  Channel_connect vectors.no_digest (str_of "root") [] (str_of "test")
    (vectors.fresh_channel [[[x09; x35; x00]]])
  = (Err AssertionError,
     set_alive false
       (set_queues (requests (vectors.fresh_channel [[[x09; x35; x00]]])) []
          (vectors.fresh_channel [[[x09; x35; x00]]]))).
Proof.
  apply (connect_rejects_protocol vectors.no_digest (str_of "root") []
           (str_of "test") (vectors.fresh_channel [[[x09; x35; x00]]])
           x09 [x35; x00] []).
  - reflexivity.
  - vm_compute. discriminate.
Defined.

Lemma negotiate_effect (caphigh caplow : Z) (c c' : Channel) caps :
  negotiate caphigh caplow c = (Ok caps, c') -> c' = set_capabilities caps c.
Proof.
  unfold negotiate, mbind, modify, lift, ret.
  destruct (py_assert _); [|discriminate].
  destruct (py_assert _); [|discriminate].
  intros H. inversion H. reflexivity.
Qed.

(** What the handshake has done to the channel when the authentication
    packet is composed. *)
Lemma greet_effect sha1 user password database (c c1 : Channel) buf :
  greet sha1 user password database c = (Ok buf, c1) ->
  exists g,
    replies c = g :: replies c1
    /\ requests c1 = requests c
    /\ thread_id c1 <> None
    /\ capabilities c1 <> None.
Proof.
  unfold greet. intros H.
  apply mbind_ok in H. destruct H as (r & s1 & Hget & H).
  apply fut_get_ok in Hget. destruct Hget as (_ & Hrq & Hrp).
  exists r. rewrite Hrp, <- Hrq. clear Hrp Hrq c.
  apply mbind_ok in H. destruct H as (h & s2 & Hl & H).
  apply lift_ok in Hl. destruct Hl as [_ ->].
  apply mbind_ok in H. destruct H as (h0 & s2 & Hl & H).
  apply lift_ok in Hl. destruct Hl as [_ ->].
  apply mbind_ok in H. destruct H as (u & s2 & Hl & H).
  apply lift_ok in Hl. destruct Hl as [_ ->].
  apply mbind_ok in H. destruct H as ([prefix suffix] & s2 & Hl & H).
  apply lift_ok in Hl. destruct Hl as [_ ->].
  apply mbind_ok in H. destruct H as (vs & s2 & Hl & H).
  apply lift_ok in Hl. destruct Hl as [_ ->].
  repeat match type of H with
         | context [match ?x with _ => _ end] =>
             destruct x; try (apply lift_ok in H; destruct H; discriminate)
         end.
  apply mbind_ok in H. destruct H as (u1 & s2 & Hm & H).
  unfold modify in Hm. inversion Hm; subst.
  apply mbind_ok in H. destruct H as (caps & s3 & Hn & H).
  apply negotiate_effect in Hn.
  apply lift_ok in H. destruct H as [_ ->]. subst s3.
  cbn. repeat split; discriminate.
Qed.

(** X18: a handshake that succeeds has taken exactly two replies from
    the channel, the greeting and then OK_PACKET, has submitted exactly
    one request, on a channel that was and stays alive, and has set the
    thread id and the capabilities of the channel. *)
Theorem connect_success_accounting (sha1 : bytes -> bytes)
    (user password database : pystr) (c c' : Channel) :
  Channel_connect sha1 user password database c = (Ok tt, c') ->
  exists g buf,
    replies c = g :: OK_PACKET :: replies c'
    /\ requests c' = requests c ++ [buf]
    /\ _alive c = true /\ _alive c' = true
    /\ thread_id c' <> None /\ capabilities c' <> None.
Proof.
  unfold Channel_connect. intros H.
  destruct (Channel__connect sha1 user password database c)
    as [[[]|e] c2] eqn:E; [|discriminate].
  inversion H; subst c2. clear H. unfold Channel__connect in E.
  apply mbind_ok in E. destruct E as (buf & c1 & Hg & E).
  pose proof (greet_alive _ _ _ _ _ _ _ Hg) as Ha.
  apply greet_effect in Hg. destruct Hg as (g & Hrp & Hrq & Ht & Hc).
  apply mbind_ok in E. destruct E as ([] & c2 & Hreq & E).
  unfold request in Hreq.
  destruct (_alive c1) eqn:Ea; [|discriminate].
  inversion Hreq; subst c2. clear Hreq.
  apply mbind_ok in E. destruct E as (value & c3 & Hget & E).
  unfold fut_get in Hget. cbn [replies set_queues] in Hget.
  destruct (replies c1) as [|value' rest] eqn:Hrp1; [discriminate|].
  inversion Hget; subst value' c3. clear Hget.
  apply lift_ok in E. destruct E as [Hchk ->].
  apply check_auth_iff in Hchk. subst value.
  exists g, buf. cbn. rewrite Hrp, Hrq, <- Ha, Ea.
  repeat split; assumption || reflexivity.
Qed.

Lemma connect_success_accounting_witness :
  exists g buf,
    replies (vectors.fresh_channel [[vectors.greeting]; OK_PACKET])
    = g :: OK_PACKET
        :: replies (snd (Channel_connect vectors.no_digest (str_of "root") []
                           (str_of "test")
                           (vectors.fresh_channel
                              [[vectors.greeting]; OK_PACKET])))
    /\ requests (snd (Channel_connect vectors.no_digest (str_of "root") []
                        (str_of "test")
                        (vectors.fresh_channel
                           [[vectors.greeting]; OK_PACKET])))
       = requests (vectors.fresh_channel [[vectors.greeting]; OK_PACKET])
         ++ [buf]
    /\ _alive (vectors.fresh_channel [[vectors.greeting]; OK_PACKET]) = true
    /\ _alive (snd (Channel_connect vectors.no_digest (str_of "root") []
                      (str_of "test")
                      (vectors.fresh_channel
                         [[vectors.greeting]; OK_PACKET]))) = true
    /\ thread_id (snd (Channel_connect vectors.no_digest (str_of "root") []
                         (str_of "test")
                         (vectors.fresh_channel
                            [[vectors.greeting]; OK_PACKET]))) <> None
    /\ capabilities (snd (Channel_connect vectors.no_digest (str_of "root")
                            [] (str_of "test")
                            (vectors.fresh_channel
                               [[vectors.greeting]; OK_PACKET]))) <> None.
Proof.
  apply (connect_success_accounting vectors.no_digest (str_of "root") []
           (str_of "test")
           (vectors.fresh_channel [[vectors.greeting]; OK_PACKET])).
  vm_compute. reflexivity.
Defined.

Lemma connect_error_dead sha1 user password database (c c' : Channel) e :
  Channel_connect sha1 user password database c = (Err e, c') ->
  _alive c' = false.
Proof.
  unfold Channel_connect.
  destruct (Channel__connect sha1 user password database c)
    as [[[]|e'] c2]; intros H; inversion H. reflexivity.
Qed.

Lemma connect_ok_alive sha1 user password database (c c' : Channel) :
  Channel_connect sha1 user password database c = (Ok tt, c') ->
  _alive c' = true.
Proof.
  unfold Channel_connect. intros H.
  destruct (Channel__connect sha1 user password database c)
    as [[[]|e] c2] eqn:E; [|discriminate].
  inversion H; subst c2. clear H. unfold Channel__connect in E.
  apply mbind_ok in E. destruct E as (buf & c1 & Hg & E).
  apply mbind_ok in E. destruct E as ([] & c2 & Hreq & E).
  unfold request in Hreq.
  destruct (_alive c1) eqn:Ea; [|discriminate].
  inversion Hreq; subst c2. clear Hreq.
  apply mbind_ok in E. destruct E as (value & c3 & Hget & E).
  unfold fut_get in Hget. cbn [replies set_queues] in Hget.
  destruct (replies c1) as [|value' rest] eqn:Hrp1; [discriminate|].
  inversion Hget; subst value' c3. clear Hget.
  apply lift_ok in E. destruct E as [_ ->].
  cbn. exact Ea.
Qed.

(** A first use does not look at the channel it replaces. *)
Lemma new_channel_set_channel path_exists sha1 peer (ch : Channel)
    (self : Mysql) :
  fst (new_channel path_exists sha1 peer (set_channel ch self))
  = fst (new_channel path_exists sha1 peer self)
  /\ (forall ch2 self2,
         new_channel path_exists sha1 peer self = (Ok ch2, self2) ->
         new_channel path_exists sha1 peer (set_channel ch self)
         = (Ok ch2, self2)
         /\ _channel self2 = Some ch2 /\ _alive ch2 = true).
Proof.
  unfold new_channel. destruct self as [c0 h p u us pw db].
  cbn [set_channel host port unixsock user password database].
  destruct (Channel_init path_exists peer h p u) as [c|e];
    [|split; [reflexivity | discriminate]].
  destruct (Channel_connect sha1 us pw db c) as [[[]|e] c'] eqn:Ec.
  - split; [reflexivity|]. intros ch2 self2 H. inversion H; subst.
    split; [reflexivity|]. split; [reflexivity|].
    now apply connect_ok_alive in Ec.
  - split; [reflexivity | discriminate].
Qed.

(** X19: a first use that fails is tried again.  When [Mysql.channel]
    raises on a client without a channel, either the constructor raised
    and the client still has no channel, or the handshake raised and the
    client holds the dead channel.  A dead channel counts as no
    channel: every later call of [Mysql.channel] makes a channel and
    runs the handshake again, with the result a first use would have,
    and when that succeeds the client holds the new, live channel in
    place of the dead one. *)
Theorem dead_channel_is_replaced (path_exists : pystr -> bool)
    (sha1 : bytes -> bytes) (peer : list Reply) (self self' : Mysql)
    (e : exn) :
  _channel self = None ->
  Mysql_channel path_exists sha1 peer self = (Err e, self') ->
  ((Channel_init path_exists peer (host self) (port self) (unixsock self)
    = Err e /\ self' = self)
   \/ (exists ch, _channel self' = Some ch /\ _alive ch = false))
  /\ forall path_exists' sha1' peer',
       Mysql_channel path_exists' sha1' peer' self'
       = new_channel path_exists' sha1' peer' self'
       /\ fst (Mysql_channel path_exists' sha1' peer' self')
          = fst (Mysql_channel path_exists' sha1' peer' self)
       /\ (forall ch2 self2,
              Mysql_channel path_exists' sha1' peer' self = (Ok ch2, self2) ->
              Mysql_channel path_exists' sha1' peer' self' = (Ok ch2, self2)
              /\ _channel self2 = Some ch2 /\ _alive ch2 = true).
Proof.
  intros Hnone.
  assert (Hfirst : forall pe s1 pr,
             Mysql_channel pe s1 pr self = new_channel pe s1 pr self).
  { intros. unfold Mysql_channel. now rewrite Hnone. }
  rewrite Hfirst. unfold new_channel at 1.
  destruct (Channel_init path_exists peer (host self) (port self)
              (unixsock self)) as [ch|e0].
  - destruct (Channel_connect sha1 (user self) (password self)
                (database self) ch) as [[[]|e1] ch'] eqn:Ec;
      intros H; inversion H; subst.
    apply connect_error_dead in Ec.
    split; [right; exists ch'; split; [reflexivity | exact Ec]|].
    intros pe' s1' pr'.
    assert (Hlater : Mysql_channel pe' s1' pr' (set_channel ch' self)
                     = new_channel pe' s1' pr' (set_channel ch' self)).
    { unfold Mysql_channel, Channel_bool. destruct self; cbn.
      now rewrite Ec. }
    rewrite Hlater, Hfirst.
    destruct (new_channel_set_channel pe' s1' pr' ch' self) as [Hr Hs].
    split; [reflexivity|]. split; [exact Hr | exact Hs].
  - intros H. inversion H; subst.
    split; [left; split; reflexivity|].
    intros pe' s1' pr'. rewrite Hfirst.
    split; [reflexivity|]. split; [reflexivity|].
    intros ch2 self2 H2. split; [exact H2|].
    destruct (new_channel_set_channel pe' s1' pr'
                (vectors.fresh_channel []) self') as [_ Hs].
    destruct (Hs ch2 self2 H2) as (_ & Ha & Hb). split; assumption.
Qed.

(** A greeting of protocol 9 fails the first use; the next use meets a
    server that greets and accepts, and succeeds. *)
Lemma dead_channel_is_replaced_witness :
  (exists ch,
      _channel (snd (Mysql_channel vectors.any_file vectors.no_digest
                       [[[x09; x35; x00]]]
                       (mkMysql None (str_of "localhost") 3306
                          (str_of "/var/run/mysqld/mysqld.sock")
                          (str_of "root") [] (str_of "test")))) = Some ch
      /\ _alive ch = false)
  /\ exists ch2 self2,
       Mysql_channel vectors.any_file vectors.no_digest
         [[vectors.greeting]; OK_PACKET]
         (snd (Mysql_channel vectors.any_file vectors.no_digest
                 [[[x09; x35; x00]]]
                 (mkMysql None (str_of "localhost") 3306
                    (str_of "/var/run/mysqld/mysqld.sock")
                    (str_of "root") [] (str_of "test"))))
       = (Ok ch2, self2)
       /\ _channel self2 = Some ch2 /\ _alive ch2 = true.
Proof.
  destruct (dead_channel_is_replaced vectors.any_file vectors.no_digest
              [[[x09; x35; x00]]]
              (mkMysql None (str_of "localhost") 3306
                 (str_of "/var/run/mysqld/mysqld.sock") (str_of "root") []
                 (str_of "test"))
              (snd (Mysql_channel vectors.any_file vectors.no_digest
                      [[[x09; x35; x00]]]
                      (mkMysql None (str_of "localhost") 3306
                         (str_of "/var/run/mysqld/mysqld.sock")
                         (str_of "root") [] (str_of "test"))))
              AssertionError eq_refl eq_refl) as [Hdead Hlater].
  split.
  - destruct Hdead as [[Hinit _]|Hdead]; [discriminate Hinit | exact Hdead].
  - destruct (Hlater vectors.any_file vectors.no_digest
                [[vectors.greeting]; OK_PACKET]) as (_ & _ & Hs).
    eexists. eexists. apply Hs. vm_compute. reflexivity.
Defined.

(** ** Statements over an established channel *)

Lemma le24_mod (n : Z) :
  exists c0 c1 c2,
    le_bytes 3 n = [c0; c1; c2]
    /\ byte_val c0 + 256 * byte_val c1 + 65536 * byte_val c2 = n mod 2 ^ 24.
Proof.
  do 3 eexists. split; [reflexivity|].
  rewrite !byte_val_of_Z, !shiftr_8_div.
  change (2 ^ 24) with (256 * 65536).
  rewrite (Z.rem_mul_r n 256 65536) by lia.
  change 65536 with (256 * 256) at 2.
  rewrite (Z.rem_mul_r (n / 256) 256 256) by lia.
  lia.
Qed.

(** X20: the command packet of a statement is four header bytes, the
    command byte 03 and the statement in UTF-8; the sequence number is 0
    and the three length bytes hold, least significant first, the length
    of the payload modulo 2^24: a statement of 2^24 - 1 bytes or more is
    sent with a length that wraps around. *)
Theorem command_packet_layout (query : pystr) (q : bytes) :
  encode_utf8 query = Ok q ->
  exists c0 c1 c2,
    command_packet query = Ok (c0 :: c1 :: c2 :: x00 :: x03 :: q)
    /\ byte_val c0 + 256 * byte_val c1 + 65536 * byte_val c2
       = (len q + 1) mod 2 ^ 24.
Proof.
  intros Hq. rewrite (command_packet_frame query q Hq).
  unfold vectors.frame.
  destruct (le24_mod (len (x03 :: q))) as (c0 & c1 & c2 & Hle & Hval).
  exists c0, c1, c2. rewrite Hle. split; [reflexivity|].
  rewrite Hval. f_equal.
  change (len (x03 :: q)) with (Z.of_nat (S (List.length q))).
  unfold len. lia.
Qed.

Lemma command_packet_layout_witness :
  exists c0 c1 c2,
    command_packet (str_of "SELECT 7")
    = Ok (c0 :: c1 :: c2 :: x00 :: x03
            :: [x53; x45; x4c; x45; x43; x54; x20; x37])
    /\ byte_val c0 + 256 * byte_val c1 + 65536 * byte_val c2
       = (len [x53; x45; x4c; x45; x43; x54; x20; x37] + 1) mod 2 ^ 24.
Proof.
  apply (command_packet_layout (str_of "SELECT 7")
           [x53; x45; x4c; x45; x43; x54; x20; x37]).
  reflexivity.
Defined.

Section Statements.

Variable path_exists : pystr -> bool.
Variable sha1 : bytes -> bytes.
Variable peer : list Reply.

Variables (self : Mysql) (ch : Channel) (query : pystr) (buf : bytes).
Variable rest : list Reply.
Hypothesis Hchan : _channel self = Some ch.
Hypothesis Halive : _alive ch = true.
Hypothesis Hcmd : command_packet query = Ok buf.

(** X21: [execute] on an OK packet: after the byte 00 come the affected
    rows and the insert id, each in one byte when below 251, then the
    status and the warning count in two bytes each.  The result holds
    the insert id and the affected rows, a warning is emitted exactly
    when the warning count is not zero, and the statement took one
    exchange. *)
Theorem execute_reads_ok_packet (a i s0 s1 w0 w1 : byte) (tail : bytes) :
  replies ch = [x00 :: a :: i :: s0 :: s1 :: w0 :: w1 :: tail] :: rest ->
  byte_val a < 251 -> byte_val i < 251 ->
  Mysql_execute path_exists sha1 peer query self
  = (Ok {| insert_id := VInt (byte_val i);
           affected_rows := VInt (byte_val a);
           warned := negb (byte_val w0 + 256 * byte_val w1 =? 0) |},
     exchanged self ch buf rest).
Proof.
  intros Hr Ha Hi. unfold Mysql_execute.
  rewrite (exchange_done path_exists sha1 peer self ch query buf _ rest
             Hchan Halive Hcmd Hr).
  unfold mbind, lift, ret.
  change (len [x00 :: a :: i :: s0 :: s1 :: w0 :: w1 :: tail] =? 1) with true.
  cbn [py_assert].
  change (index [x00 :: a :: i :: s0 :: s1 :: w0 :: w1 :: tail] 0)
    with (Ok (x00 :: a :: i :: s0 :: s1 :: w0 :: w1 :: tail)).
  cbv iota.
  change (index (x00 :: a :: i :: s0 :: s1 :: w0 :: w1 :: tail) 0)
    with (Ok x00).
  cbv iota. change (byte_val x00 =? 0) with true. cbn [py_assert].
  rewrite (read_lcb_small (x00 :: a :: i :: s0 :: s1 :: w0 :: w1 :: tail)
             1 a eq_refl Ha).
  cbn [bind unpack2].
  rewrite (read_lcb_small (x00 :: a :: i :: s0 :: s1 :: w0 :: w1 :: tail)
             (1 + 1) i eq_refl Hi).
  cbn [bind unpack2].
  assert (Hu : unpack_from [fH; fH]
                 (x00 :: a :: i :: s0 :: s1 :: w0 :: w1 :: tail) (1 + 1 + 1)
               = Ok [VInt (le_int [s0; s1]); VInt (le_int [w0; w1])]).
  { unfold unpack_from. change (1 + 1 + 1) with 3.
    change (3 <? 0) with false. cbv iota. cbn [orb].
    assert (len (x00 :: a :: i :: s0 :: s1 :: w0 :: w1 :: tail)
            = 7 + len tail) as ->
      by (unfold len; cbn [List.length]; lia).
    pose proof (len_nonneg tail).
    change (Z.of_nat (calcsize [fH; fH])) with 4.
    destruct (Z.ltb_spec (7 + len tail - 3) 4); [lia|].
    reflexivity. }
  rewrite Hu. cbv iota.
  replace (le_int [w0; w1]) with (byte_val w0 + 256 * byte_val w1)
    by (cbn [le_int]; lia).
  reflexivity.
Qed.

(** X22: [execute] on a single packet that does not start with 00, an
    ERR packet for one, raises AssertionError: what the server reports
    is not decoded; and on a single empty packet it raises IndexError.
    The exchange has taken place in both cases. *)
Theorem execute_rejects_other_packets :
  (forall c0 p,
      replies ch = [c0 :: p] :: rest -> byte_val c0 <> 0 ->
      Mysql_execute path_exists sha1 peer query self
      = (Err AssertionError, exchanged self ch buf rest))
  /\ (replies ch = [[]] :: rest ->
      Mysql_execute path_exists sha1 peer query self
      = (Err IndexError, exchanged self ch buf rest)).
Proof.
  split.
  - intros c0 p Hr Hc. unfold Mysql_execute.
    rewrite (exchange_done path_exists sha1 peer self ch query buf _ rest
               Hchan Halive Hcmd Hr).
    unfold mbind, lift, ret.
    change (len [c0 :: p] =? 1) with true. cbn [py_assert].
    change (index [c0 :: p] 0) with (Ok (c0 :: p)). cbv iota.
    change (index (c0 :: p) 0) with (Ok c0). cbv iota.
    destruct (Z.eqb_spec (byte_val c0) 0); [contradiction|]. reflexivity.
  - intros Hr. unfold Mysql_execute.
    rewrite (exchange_done path_exists sha1 peer self ch query buf _ rest
               Hchan Halive Hcmd Hr).
    reflexivity.
Qed.

(** X23: [query] on a result set: the header is the one byte of the
    column count, the reply holds that many field packets, a marker, the
    rows and a closing packet.  The result set has the parsed fields,
    the extra value 0 and the whole reply, its traversals read exactly
    the row packets, and the statement took one exchange. *)
Theorem query_builds_resultset (eof last : bytes) (fps rows : list bytes)
    (fs : list Field.t) (n : byte) :
  replies ch = ([n] :: fps ++ eof :: rows ++ [last]) :: rest ->
  byte_val n = len fps -> 0 < len fps < 251 ->
  parse_fields fps = Ok fs ->
  Mysql_query path_exists sha1 peer query self
  = (Ok (mkResultset (VInt (len fps)) (VInt 0) fs
           ([n] :: fps ++ eof :: rows ++ [last])),
     exchanged self ch buf rest)
  /\ row_packets (mkResultset (VInt (len fps)) (VInt 0) fs
                    ([n] :: fps ++ eof :: rows ++ [last]))
     = Ok rows.
Proof.
  intros Hr Hn Hf Hp. split; [|apply row_packets_rows].
  unfold Mysql_query.
  rewrite (exchange_done path_exists sha1 peer self ch query buf _ rest
             Hchan Halive Hcmd Hr).
  unfold mbind, lift, ret.
  change (index ([n] :: fps ++ eof :: rows ++ [last]) 0) with (Ok [n]).
  cbv iota. change (index [n] 0) with (Ok n). cbv iota.
  destruct (Z.eqb_spec (byte_val n) 0); [lia|].
  destruct (Z.eqb_spec (byte_val n) 255); [lia|].
  destruct (Z.eqb_spec (byte_val n) 254); [lia|].
  cbn [orb negb py_assert].
  rewrite (read_lcb_small [n] 0 n eq_refl) by lia.
  cbn [bind unpack2]. change (0 + 1 <? len [n]) with false. cbv iota.
  rewrite Hn, resultset_init_fields, Hp. reflexivity.
Qed.

End Statements.

Lemma execute_reads_ok_packet_witness :
  Mysql_execute vectors.any_file vectors.no_digest [] (str_of "DELETE")
    (vectors.client [[[x00; x05; x07; x02; x00; x01; x00]]])
  = (Ok {| insert_id := VInt (byte_val x07);
           affected_rows := VInt (byte_val x05);
           warned := negb (byte_val x01 + 256 * byte_val x00 =? 0) |},
     exchanged (vectors.client [[[x00; x05; x07; x02; x00; x01; x00]]])
       (vectors.fresh_channel [[[x00; x05; x07; x02; x00; x01; x00]]])
       [x07; x00; x00; x00; x03; x44; x45; x4c; x45; x54; x45] []).
Proof.
  apply (execute_reads_ok_packet vectors.any_file vectors.no_digest []
           (vectors.client [[[x00; x05; x07; x02; x00; x01; x00]]])
           (vectors.fresh_channel [[[x00; x05; x07; x02; x00; x01; x00]]])
           (str_of "DELETE")
           [x07; x00; x00; x00; x03; x44; x45; x4c; x45; x54; x45] []
           eq_refl eq_refl eq_refl x05 x07 x02 x00 x01 x00 []).
  - reflexivity.
  - reflexivity.
  - reflexivity.
Defined.

Lemma execute_rejects_other_packets_witness :
  Mysql_execute vectors.any_file vectors.no_digest [] (str_of "DELETE")
    (vectors.client [[[xff; x28; x04]]])
  = (Err AssertionError,
     exchanged (vectors.client [[[xff; x28; x04]]])
       (vectors.fresh_channel [[[xff; x28; x04]]])
       [x07; x00; x00; x00; x03; x44; x45; x4c; x45; x54; x45] []).
Proof.
  apply (proj1 (execute_rejects_other_packets vectors.any_file
                  vectors.no_digest []
                  (vectors.client [[[xff; x28; x04]]])
                  (vectors.fresh_channel [[[xff; x28; x04]]])
                  (str_of "DELETE")
                  [x07; x00; x00; x00; x03; x44; x45; x4c; x45; x54; x45] []
                  eq_refl eq_refl eq_refl) xff [x28; x04]).
  - reflexivity.
  - vm_compute. discriminate.
Defined.

Lemma query_builds_resultset_witness :
  Mysql_query vectors.any_file vectors.no_digest [] (str_of "SELECT 7")
    (vectors.client
       [[x01] :: [id_packet] ++ [xfe] :: [[x01; x37]] ++ [[xfe]]])
  = (Ok (mkResultset (VInt (len [id_packet])) (VInt 0) [id_field]
           ([x01] :: [id_packet] ++ [xfe] :: [[x01; x37]] ++ [[xfe]])),
     exchanged
       (vectors.client
          [[x01] :: [id_packet] ++ [xfe] :: [[x01; x37]] ++ [[xfe]]])
       (vectors.fresh_channel
          [[x01] :: [id_packet] ++ [xfe] :: [[x01; x37]] ++ [[xfe]]])
       [x09; x00; x00; x00; x03; x53; x45; x4c; x45; x43; x54; x20; x37] [])
  /\ row_packets (mkResultset (VInt (len [id_packet])) (VInt 0) [id_field]
                    ([x01] :: [id_packet] ++ [xfe] :: [[x01; x37]]
                     ++ [[xfe]]))
     = Ok [[x01; x37]].
Proof.
  apply (query_builds_resultset vectors.any_file vectors.no_digest []
           (vectors.client
              [[x01] :: [id_packet] ++ [xfe] :: [[x01; x37]] ++ [[xfe]]])
           (vectors.fresh_channel
              [[x01] :: [id_packet] ++ [xfe] :: [[x01; x37]] ++ [[xfe]]])
           (str_of "SELECT 7")
           [x09; x00; x00; x00; x03; x53; x45; x4c; x45; x43; x54; x20; x37]
           [] eq_refl eq_refl eq_refl [xfe] [xfe] [id_packet] [[x01; x37]]
           [id_field] x01).
  - reflexivity.
  - reflexivity.
  - vm_compute. split; reflexivity.
  - reflexivity.
Defined.

(** ** The frame loop over whole streams *)

Lemma body_is_accept (s : receiver.state) (pre : bytes) (q : byte)
    (p post : bytes) :
  receiver.buf s = pre ++ vectors.frame q p ++ post ->
  receiver.pos s = len pre ->
  len p < 2 ^ 24 ->
  p <> [] ->
  receiver.body s = accept q p s.
Proof.
  intros Hbuf Hpos Hlen Hne.
  destruct p as [|t p'] eqn:Ep; [congruence|]. rewrite <- Ep in *.
  unfold receiver.body, accept.
  destruct (frame_reads s pre q p post Hbuf Hpos Hlen)
    as (c0 & c1 & c2 & -> & -> & -> & Hval & ->).
  assert (Ht : index (receiver.buf s) (receiver.pos s + 4) = Ok t).
  { destruct (le24_value (len p)) as (d0 & d1 & d2 & Hle & _).
    { pose proof (len_nonneg p). lia. }
    rewrite Hbuf, Hpos. unfold vectors.frame. rewrite Hle. cbn [app].
    rewrite index_app_r by lia. rewrite Ep. reflexivity. }
  rewrite Ht. cbn [bind].
  rewrite Hval, (frame_payload s pre q p post Hbuf Hpos Hlen),
    (frame_available s pre q p post Hbuf Hpos).
  pose proof (len_nonneg post).
  destruct (Z.ltb_spec (len p + 4 + len post) (len p + 4)); [lia|].
  replace (hd x00 p) with t by (rewrite Ep; reflexivity). reflexivity.
Qed.

Lemma accept_keeps_buf (q : byte) (p : bytes) (s s' : receiver.state) :
  accept q p s = Ok s' ->
  receiver.buf s' = receiver.buf s
  /\ receiver.pos s' = receiver.pos s + len p + 4.
Proof.
  unfold accept. cbn [receiver.with_current receiver.handshake
    receiver.current].
  destruct (receiver.handshake s <? 2); cbn [bind].
  - intros H. inversion H. cbn. split; reflexivity.
  - destruct (py_assert _); cbn [bind]; [|discriminate].
    intros H. inversion H.
    destruct ((byte_val (hd x00 p) =? 0) || (byte_val (hd x00 p) =? 255));
      [|destruct (byte_val (hd x00 p) =? 254);
        [destruct (receiver.fields _)|]];
      cbn; split; reflexivity.
Qed.

Lemma len_stream_cons (q : byte) (p : bytes) (ps : list (byte * bytes)) :
  stream_of ((q, p) :: ps) = vectors.frame q p ++ stream_of ps.
Proof. reflexivity. Qed.

(** The frame loop over a buffer that holds whole packets, and at most
    three bytes more, does what [accept] does packet by packet. *)
Lemma frames_run (ps : list (byte * bytes)) :
  forall (s : receiver.state) (pre post : bytes) (n : nat),
    receiver.buf s = pre ++ stream_of ps ++ post ->
    receiver.pos s = len pre ->
    Forall payload_ok ps ->
    len post < 4 ->
    (List.length ps <= n)%nat ->
    receiver.frames n s
    = match accept_all ps s with
      | Ok s' => receiver.Exits s'
      | Err e => receiver.Raises e
      end.
Proof.
  induction ps as [|[q p] ps IH]; intros s pre post n Hbuf Hpos Hok Hpost Hn.
  - cbn [accept_all]. apply frames_exit.
    cbn in Hbuf. rewrite Hbuf, Hpos, len_app. lia.
  - inversion Hok as [|x l [Hne Hlen] Hok']; subst. cbn [fst snd] in *.
    destruct n as [|n]; [cbn in Hn; lia|].
    rewrite len_stream_cons, <- app_assoc in Hbuf.
    pose proof (body_is_accept s pre q p _ Hbuf Hpos Hlen Hne) as Hbody.
    cbn [accept_all].
    destruct (accept q p s) as [s'|e] eqn:Ea; cbn [bind].
    + rewrite (frames_step n s s'); [| |exact Hbody].
      * destruct (accept_keeps_buf q p s s' Ea) as [Hb' Hp'].
        apply (IH s' (pre ++ vectors.frame q p) post n).
        -- rewrite Hb', Hbuf, <- app_assoc. reflexivity.
        -- rewrite Hp', Hpos, len_app, len_frame. lia.
        -- exact Hok'.
        -- exact Hpost.
        -- cbn in Hn. lia.
      * rewrite (frame_available s pre q p _ Hbuf Hpos).
        pose proof (len_nonneg p).
        pose proof (len_nonneg (stream_of ps ++ post)). lia.
    + cbn [receiver.frames].
      rewrite (frame_available s pre q p _ Hbuf Hpos).
      pose proof (len_nonneg p).
      pose proof (len_nonneg (stream_of ps ++ post)).
      destruct (Z.geb_spec (len p + 4 + len (stream_of ps ++ post)) 4);
        [|lia].
      rewrite Hbody. reflexivity.
Qed.

(** X24: framing and grouping are independent: over a buffer that holds
    any number of whole packets with payloads that are not empty,
    followed by fewer than four bytes, the frame loop ends, and it has
    done to the locals what [accept] does packet by packet, in order:
    each payload is cut out at the right place whatever the payloads
    hold, and an exception of one packet ends the loop there. *)
Theorem frames_packet_by_packet (ps : list (byte * bytes))
    (s : receiver.state) (pre post : bytes) (n : nat) :
  receiver.buf s = pre ++ stream_of ps ++ post ->
  receiver.pos s = len pre ->
  Forall payload_ok ps ->
  len post < 4 ->
  (List.length ps <= n)%nat ->
  receiver.frames n s
  = match accept_all ps s with
    | Ok s' => receiver.Exits s'
    | Err e => receiver.Raises e
    end.
Proof. apply frames_run. Qed.

Lemma frames_packet_by_packet_witness :
  receiver.frames 1 (receiver.mk (stream_of [(x01, [x00; x00])]) 0 [] false 2 [])
  = match accept_all [(x01, [x00; x00])]
            (receiver.mk (stream_of [(x01, [x00; x00])]) 0 [] false 2 []) with
    | Ok s' => receiver.Exits s'
    | Err e => receiver.Raises e
    end.
Proof.
  apply (frames_packet_by_packet [(x01, [x00; x00])]
           (receiver.mk (stream_of [(x01, [x00; x00])]) 0 [] false 2 [])
           [] [] 1).
  - reflexivity.
  - reflexivity.
  - constructor; [|constructor]. split; [discriminate | reflexivity].
  - reflexivity.
  - cbn. lia.
Defined.

(** *** Packets of one reply *)

Lemma accept_all_app (a b : list (byte * bytes)) (s : receiver.state) :
  accept_all (a ++ b) s = (s' <- accept_all a s ;; accept_all b s').
Proof.
  revert s. induction a as [|[q p] a IH]; intros s; cbn; [reflexivity|].
  destruct (accept q p s); cbn; [apply IH | reflexivity].
Qed.

Lemma numbered_app (k : Z) (a b : list bytes) :
  numbered k (a ++ b) = numbered k a ++ numbered (k + len a) b.
Proof.
  revert k. induction a as [|p a IH]; intros k; cbn [numbered app].
  - now rewrite Z.add_0_r.
  - rewrite IH. do 3 f_equal.
    change (len (p :: a)) with (Z.of_nat (S (List.length a))).
    unfold len. lia.
Qed.

Lemma length_numbered (k : Z) (ps : list bytes) :
  List.length (numbered k ps) = List.length ps.
Proof.
  revert k. induction ps as [|p ps IH]; intros k; cbn; [reflexivity|].
  now rewrite IH.
Qed.

Lemma accept_all_keeps_buf (ps : list (byte * bytes)) :
  forall s s', accept_all ps s = Ok s' ->
               receiver.buf s' = receiver.buf s
               /\ receiver.pos s' = receiver.pos s + len (stream_of ps).
Proof.
  induction ps as [|[q p] ps IH]; intros s s' H; cbn in H.
  - inversion H. cbn. split; [reflexivity | lia].
  - apply bind_ok in H. destruct H as (s1 & H1 & H).
    apply accept_keeps_buf in H1. destruct H1 as [Hb Hp].
    apply IH in H. destruct H as [Hb' Hp'].
    rewrite Hb', Hb, Hp', Hp, len_stream_cons, len_app, len_frame.
    split; [reflexivity | lia].
Qed.

Section Accept_one.

Variables (q : byte) (p : bytes) (s : receiver.state).
Hypothesis Hhand : 2 <= receiver.handshake s.
Hypothesis Hseq : byte_val q = len (receiver.current s) + 1.

Lemma accept_checked :
  accept q p s
  = (let s1 := receiver.with_current (receiver.current s ++ [p]) s in
     let ptype := byte_val (hd x00 p) in
     let s2 :=
       if (ptype =? 0) || (ptype =? 255) then receiver.emit s1
       else if ptype =? 254 then
         if receiver.fields s1 then receiver.emit s1
         else receiver.with_fields true s1
       else s1 in
     Ok (receiver.with_pos (receiver.pos s2 + len p + 4) s2)).
Proof.
  unfold accept. cbn [receiver.with_current receiver.handshake
    receiver.current].
  destruct (Z.ltb_spec (receiver.handshake s) 2); [lia|].
  rewrite len_app. change (len [p]) with 1.
  destruct (Z.eqb_spec (byte_val q) (len (receiver.current s) + 1)); [|lia].
  reflexivity.
Qed.

(** A data packet is kept for the reply being assembled. *)
Lemma accept_data :
  is_data p ->
  exists s', accept q p s = Ok s'
             /\ receiver.current s' = receiver.current s ++ [p]
             /\ receiver.fields s' = receiver.fields s
             /\ receiver.produced s' = receiver.produced s
             /\ receiver.handshake s' = receiver.handshake s.
Proof.
  intros Hd. rewrite accept_checked.
  destruct p as [|t p']; [destruct Hd|]. destruct Hd as (H0 & H255 & H254).
  cbn [hd]. cbv zeta.
  destruct (Z.eqb_spec (byte_val t) 0); [lia|].
  destruct (Z.eqb_spec (byte_val t) 255); [lia|].
  destruct (Z.eqb_spec (byte_val t) 254); [lia|].
  cbn [orb]. eexists. split; [reflexivity|]. cbn. auto.
Qed.

(** The first marker of a reply is kept and remembered. *)
Lemma accept_first_marker :
  is_marker p -> receiver.fields s = false ->
  exists s', accept q p s = Ok s'
             /\ receiver.current s' = receiver.current s ++ [p]
             /\ receiver.fields s' = true
             /\ receiver.produced s' = receiver.produced s
             /\ receiver.handshake s' = receiver.handshake s.
Proof.
  intros Hm Hf. rewrite accept_checked.
  destruct p as [|t p']; [destruct Hm|]. cbn in Hm.
  cbn [hd]. cbv zeta. rewrite Hm.
  cbn [Z.eqb orb Pos.eqb receiver.with_current receiver.fields].
  rewrite Hf. eexists. split; [reflexivity|]. cbn. auto.
Qed.

(** The second marker closes the reply. *)
Lemma accept_second_marker :
  is_marker p -> receiver.fields s = true ->
  exists s', accept q p s = Ok s'
             /\ receiver.current s' = []
             /\ receiver.fields s' = false
             /\ receiver.produced s'
                = receiver.produced s ++ [receiver.current s ++ [p]]
             /\ receiver.handshake s' = receiver.handshake s.
Proof.
  intros Hm Hf. rewrite accept_checked.
  destruct p as [|t p']; [destruct Hm|]. cbn in Hm.
  cbn [hd]. cbv zeta. rewrite Hm.
  cbn [Z.eqb orb Pos.eqb receiver.with_current receiver.fields].
  rewrite Hf. eexists. split; [reflexivity|]. cbn. auto.
Qed.

(** A packet that starts with 00 or ff closes the reply, wherever it
    stands. *)
Lemma accept_closing (t : byte) (p' : bytes) :
  p = t :: p' -> byte_val t = 0 \/ byte_val t = 255 ->
  exists s', accept q p s = Ok s'
             /\ receiver.current s' = []
             /\ receiver.fields s' = false
             /\ receiver.produced s'
                = receiver.produced s ++ [receiver.current s ++ [p]]
             /\ receiver.handshake s' = receiver.handshake s.
Proof.
  intros Hp Ht. rewrite accept_checked.
  replace (hd x00 p) with t by (rewrite Hp; reflexivity). cbv zeta.
  assert (E : (byte_val t =? 0) || (byte_val t =? 255) = true).
  { destruct Ht as [-> | ->]; reflexivity. }
  rewrite E. eexists. split; [reflexivity|]. cbn. auto.
Qed.

End Accept_one.

Lemma byte_val_seq (k : Z) : 0 <= k < 256 -> byte_val (byte_of_Z k) = k.
Proof. intros H. rewrite byte_val_of_Z. now apply Z.mod_small. Qed.

Lemma accept_all_data (ds : list bytes) :
  forall (s : receiver.state) (k : Z),
    Forall is_data ds ->
    2 <= receiver.handshake s ->
    k = len (receiver.current s) + 1 ->
    k + len ds <= 256 ->
    exists s', accept_all (numbered k ds) s = Ok s'
               /\ receiver.current s' = receiver.current s ++ ds
               /\ receiver.fields s' = receiver.fields s
               /\ receiver.produced s' = receiver.produced s
               /\ receiver.handshake s' = receiver.handshake s.
Proof.
  induction ds as [|d ds IH]; intros s k Hd Hh Hk Hmax.
  - exists s. cbn. rewrite app_nil_r. auto.
  - inversion Hd as [|x l Hd1 Hd2]; subst x l.
    pose proof (len_nonneg (receiver.current s)) as Hc.
    pose proof (len_nonneg ds) as Hds.
    assert (Hlen : len (d :: ds) = 1 + len ds).
    { change (len (d :: ds)) with (Z.of_nat (S (List.length ds))).
      unfold len. lia. }
    rewrite Hlen in Hmax.
    destruct (accept_data (byte_of_Z k) d s Hh) as (s1 & Ha & Hc1 & Hf1 & Hp1 & Hh1).
    { rewrite byte_val_seq by lia. exact Hk. }
    { exact Hd1. }
    destruct (IH s1 (k + 1) Hd2) as (s' & Ha' & Hc' & Hf' & Hp' & Hh').
    { lia. }
    { rewrite Hc1, len_app. change (len [d]) with 1. lia. }
    { lia. }
    exists s'. cbn [numbered accept_all]. rewrite Ha. cbn [bind].
    rewrite Ha', Hc', Hc1, Hf', Hf1, Hp', Hp1, Hh', Hh1, <- app_assoc.
    auto.
Qed.

Lemma len_cons {A} (a : A) (l : list A) : len (a :: l) = 1 + len l.
Proof.
  change (len (a :: l)) with (Z.of_nat (S (List.length l))).
  unfold len. lia.
Qed.

(** The packets of a result set, numbered from 1, make one reply. *)
Lemma accept_all_resultset (hdr m1 m2 : bytes) (fps rows : list bytes)
    (s : receiver.state) :
  is_data hdr -> Forall is_data fps -> is_marker m1 ->
  Forall is_data rows -> is_marker m2 ->
  len fps + len rows + 3 <= 255 ->
  2 <= receiver.handshake s ->
  receiver.current s = [] -> receiver.fields s = false ->
  exists s',
    accept_all (numbered 1 ((hdr :: fps) ++ [m1] ++ rows ++ [m2])) s = Ok s'
    /\ receiver.current s' = []
    /\ receiver.fields s' = false
    /\ receiver.produced s'
       = receiver.produced s ++ [(hdr :: fps) ++ [m1] ++ rows ++ [m2]]
    /\ receiver.handshake s' = receiver.handshake s.
Proof.
  intros Hhdr Hfps Hm1 Hrows Hm2 Hmax Hh Hcur Hf.
  pose proof (len_nonneg fps) as H1. pose proof (len_nonneg rows) as H2.
  rewrite !numbered_app, accept_all_app.
  (* header and fields *)
  destruct (accept_all_data (hdr :: fps) s 1) as (s1 & -> & Hc1 & Hf1 & Hp1 & Hh1).
  { constructor; assumption. }
  { exact Hh. }
  { rewrite Hcur. reflexivity. }
  { rewrite len_cons. lia. }
  cbn [bind]. rewrite Hcur in Hc1. cbn [app] in Hc1.
  (* the first marker *)
  rewrite accept_all_app. cbn [numbered accept_all].
  destruct (accept_first_marker (byte_of_Z (1 + len (hdr :: fps))) m1 s1)
    as (s2 & -> & Hc2 & Hf2 & Hp2 & Hh2).
  { lia. }
  { rewrite byte_val_seq by (rewrite len_cons; lia). rewrite Hc1. lia. }
  { exact Hm1. }
  { congruence. }
  cbn [bind]. rewrite accept_all_app.
  (* the rows *)
  destruct (accept_all_data rows s2 (1 + len (hdr :: fps) + len [m1]))
    as (s3 & -> & Hc3 & Hf3 & Hp3 & Hh3).
  { exact Hrows. }
  { lia. }
  { rewrite Hc2, Hc1, len_app. lia. }
  { rewrite len_cons. change (len [m1]) with 1. lia. }
  cbn [bind]. cbn [numbered accept_all].
  (* the second marker *)
  destruct (accept_second_marker
              (byte_of_Z (1 + len (hdr :: fps) + len [m1] + len rows)) m2 s3)
    as (s4 & -> & Hc4 & Hf4 & Hp4 & Hh4).
  { lia. }
  { rewrite byte_val_seq
      by (rewrite len_cons; change (len [m1]) with 1; lia).
    rewrite Hc3, Hc2, Hc1, !len_app. lia. }
  { exact Hm2. }
  { congruence. }
  cbn [bind]. exists s4. split; [reflexivity|].
  rewrite Hc4, Hf4, Hp4, Hp3, Hp2, Hp1, Hc3, Hc2, Hc1, Hh4, Hh3, Hh2, Hh1.
  rewrite <- !app_assoc. auto.
Qed.

Lemma payload_ok_numbered (ps : list bytes) :
  Forall (fun p => p <> [] /\ len p < 2 ^ 24) ps ->
  forall k, Forall payload_ok (numbered k ps).
Proof.
  induction 1 as [|p ps Hp _ IH]; intros k; cbn [numbered]; constructor.
  - exact Hp.
  - apply IH.
Qed.

Lemma is_data_not_nil (p : bytes) : is_data p -> p <> [].
Proof. destruct p; cbn; [tauto | discriminate]. Qed.

Lemma is_marker_not_nil (p : bytes) : is_marker p -> p <> [].
Proof. destruct p; cbn; [tauto | discriminate]. Qed.

(** X25: a result set that arrives whole is one reply.  After the
    handshake, with nothing pending, a buffer that holds a header, field
    packets, a marker, row packets and a second marker (at most 255
    packets, numbered from 1, none of the data packets starting with 00,
    fe or ff) followed by fewer than four bytes makes the frame loop
    produce exactly one reply, the payloads in order, and end with the
    position after the last packet. *)
Theorem resultset_is_one_reply (hdr m1 m2 : bytes) (fps rows : list bytes)
    (s : receiver.state) (pre post : bytes) (n : nat) :
  let packets := (hdr :: fps) ++ [m1] ++ rows ++ [m2] in
  is_data hdr -> Forall is_data fps -> is_marker m1 ->
  Forall is_data rows -> is_marker m2 ->
  Forall (fun p => len p < 2 ^ 24) packets ->
  len fps + len rows + 3 <= 255 ->
  2 <= receiver.handshake s ->
  receiver.current s = [] -> receiver.fields s = false ->
  receiver.buf s = pre ++ stream_of (numbered 1 packets) ++ post ->
  receiver.pos s = len pre ->
  len post < 4 ->
  (List.length packets <= n)%nat ->
  exists s',
    receiver.frames n s = receiver.Exits s'
    /\ receiver.produced s' = receiver.produced s ++ [packets]
    /\ receiver.current s' = []
    /\ receiver.fields s' = false
    /\ receiver.pos s' = len (receiver.buf s) - len post.
Proof.
  intros packets Hhdr Hfps Hm1 Hrows Hm2 Hlen Hmax Hh Hcur Hf Hbuf Hpos
    Hpost Hn.
  destruct (accept_all_resultset hdr m1 m2 fps rows s Hhdr Hfps Hm1 Hrows
              Hm2 Hmax Hh Hcur Hf) as (s' & Ha & Hc' & Hf' & Hp' & Hh').
  fold packets in Ha, Hp'.
  assert (Hok : Forall payload_ok (numbered 1 packets)).
  { apply payload_ok_numbered. apply Forall_forall. intros p Hin.
    split.
    - unfold packets in Hin.
      rewrite !in_app_iff in Hin. cbn [In] in Hin.
      destruct Hin as [[<-|Hin] | [[<-|[]] | [Hin | [<-|[]]]]].
      + now apply is_data_not_nil.
      + apply is_data_not_nil.
        now apply (proj1 (Forall_forall _ _) Hfps).
      + now apply is_marker_not_nil.
      + apply is_data_not_nil.
        now apply (proj1 (Forall_forall _ _) Hrows).
      + now apply is_marker_not_nil.
    - now apply (proj1 (Forall_forall _ _) Hlen). }
  exists s'. rewrite (frames_run (numbered 1 packets) s pre post n Hbuf Hpos
                        Hok Hpost).
  2: { now rewrite length_numbered. }
  rewrite Ha. split; [reflexivity|].
  apply accept_all_keeps_buf in Ha. destruct Ha as [_ Hp].
  rewrite Hp', Hc', Hf', Hp, Hpos, Hbuf, !len_app.
  repeat split; try reflexivity. lia.
Qed.

Lemma resultset_is_one_reply_witness :
  exists s',
    receiver.frames 5
      (receiver.mk
         (stream_of (numbered 1 (([x01] :: [[x03; x64]]) ++ [[xfe]]
                                 ++ [[x01; x37]] ++ [[xfe]])))
         0 [] false 2 [])
    = receiver.Exits s'
    /\ receiver.produced s'
       = [] ++ [([x01] :: [[x03; x64]]) ++ [[xfe]] ++ [[x01; x37]]
                ++ [[xfe]]]
    /\ receiver.current s' = []
    /\ receiver.fields s' = false
    /\ receiver.pos s'
       = len (stream_of (numbered 1 (([x01] :: [[x03; x64]]) ++ [[xfe]]
                                     ++ [[x01; x37]] ++ [[xfe]])))
         - len (@nil byte).
Proof.
  apply (resultset_is_one_reply [x01] [xfe] [xfe] [[x03; x64]] [[x01; x37]]
           (receiver.mk
              (stream_of (numbered 1 (([x01] :: [[x03; x64]]) ++ [[xfe]]
                                      ++ [[x01; x37]] ++ [[xfe]])))
              0 [] false 2 [])
           [] [] 5).
  - cbn. repeat split; discriminate.
  - repeat constructor; discriminate.
  - reflexivity.
  - repeat constructor; discriminate.
  - reflexivity.
  - repeat constructor.
  - cbn. lia.
  - cbn. lia.
  - reflexivity.
  - reflexivity.
  - reflexivity.
  - reflexivity.
  - reflexivity.
  - cbn. lia.
Defined.

Lemma accept_bad_sequence (q : byte) (p : bytes) (s : receiver.state) :
  2 <= receiver.handshake s ->
  byte_val q <> len (receiver.current s) + 1 ->
  accept q p s = Err AssertionError.
Proof.
  intros Hh Hq. unfold accept.
  cbn [receiver.with_current receiver.handshake receiver.current].
  destruct (Z.ltb_spec (receiver.handshake s) 2); [lia|].
  rewrite len_app. change (len [p]) with 1.
  destruct (Z.eqb_spec (byte_val q) (len (receiver.current s) + 1)); [lia|].
  reflexivity.
Qed.

(** X26: the type of a packet is its first byte, also among the rows.
    A row packet that starts with 00 (its first column is the empty
    string) closes the reply at that row: what was received so far is
    produced as the reply; and when another row follows, its sequence
    number no longer fits and the loop raises AssertionError. *)
Theorem row_starting_with_zero_closes_reply (hdr m1 r0' r1 : bytes)
    (fps : list bytes) (s : receiver.state) (pre : bytes) (n : nat) :
  let r0 := x00 :: r0' in
  is_data hdr -> Forall is_data fps -> is_marker m1 -> r1 <> [] ->
  Forall (fun p => len p < 2 ^ 24) ((hdr :: fps) ++ [m1; r0; r1]) ->
  len fps + 4 <= 255 ->
  2 <= receiver.handshake s ->
  receiver.current s = [] -> receiver.fields s = false ->
  receiver.pos s = len pre ->
  (List.length fps + 4 <= n)%nat ->
  (receiver.buf s
   = pre ++ stream_of (numbered 1 ((hdr :: fps) ++ [m1; r0])) ++ [] ->
   exists s',
     receiver.frames n s = receiver.Exits s'
     /\ receiver.produced s'
        = receiver.produced s ++ [(hdr :: fps) ++ [m1; r0]]
     /\ receiver.current s' = [])
  /\ (receiver.buf s
      = pre ++ stream_of (numbered 1 ((hdr :: fps) ++ [m1; r0; r1])) ++ [] ->
      receiver.frames n s = receiver.Raises AssertionError).
Proof.
  intros r0 Hhdr Hfps Hm1 Hr1 Hlen Hmax Hh Hcur Hf Hpos Hn.
  pose proof (len_nonneg fps) as H1.
  (* header, fields and marker *)
  destruct (accept_all_data (hdr :: fps) s 1) as (s1 & Ha1 & Hc1 & Hf1 & Hp1 & Hh1).
  { constructor; assumption. }
  { exact Hh. }
  { rewrite Hcur. reflexivity. }
  { rewrite len_cons. lia. }
  rewrite Hcur in Hc1. cbn [app] in Hc1.
  destruct (accept_first_marker (byte_of_Z (1 + len (hdr :: fps))) m1 s1)
    as (s2 & Ha2 & Hc2 & Hf2 & Hp2 & Hh2).
  { lia. }
  { rewrite byte_val_seq by (rewrite len_cons; lia). rewrite Hc1. lia. }
  { exact Hm1. }
  { congruence. }
  (* the row that starts with 00 *)
  destruct (accept_closing (byte_of_Z (1 + len (hdr :: fps) + 1)) r0 s2)
    with (t := x00) (p' := r0') as (s3 & Ha3 & Hc3 & Hf3 & Hp3 & Hh3).
  { lia. }
  { rewrite byte_val_seq by (rewrite len_cons; lia).
    rewrite Hc2, Hc1, len_app. change (len [m1]) with 1. lia. }
  { reflexivity. }
  { left. reflexivity. }
  assert (Hall3 : accept_all (numbered 1 ((hdr :: fps) ++ [m1; r0])) s
                  = Ok s3).
  { rewrite numbered_app, accept_all_app, Ha1. cbn [bind numbered accept_all].
    rewrite Ha2. cbn [bind]. change (len [m1]) with 1 in *.
    rewrite Ha3. reflexivity. }
  assert (Hok : forall l, Forall (fun p => len p < 2 ^ 24) l ->
                          Forall (fun p => p <> []) l ->
                          Forall payload_ok (numbered 1 l)).
  { intros l Hl Hne. apply payload_ok_numbered.
    apply Forall_forall. intros p Hin. split.
    - now apply (proj1 (Forall_forall _ _) Hne).
    - now apply (proj1 (Forall_forall _ _) Hl). }
  assert (Hne : Forall (fun p : bytes => p <> []) ((hdr :: fps) ++ [m1; r0; r1])).
  { apply Forall_app. split.
    - constructor; [now apply is_data_not_nil|].
      apply Forall_forall. intros p Hin. apply is_data_not_nil.
      now apply (proj1 (Forall_forall _ _) Hfps).
    - repeat constructor; [now apply is_marker_not_nil | discriminate
                           | exact Hr1]. }
  apply Forall_app in Hlen. destruct Hlen as [HlenA HlenB].
  apply Forall_app in Hne. destruct Hne as [HneA HneB].
  split.
  - intros Hbuf. exists s3.
    rewrite (frames_run _ s pre [] n Hbuf Hpos).
    + rewrite Hall3. split; [reflexivity|].
      rewrite Hp3, Hc3, Hp2, Hp1, Hc2, Hc1, <- app_assoc. auto.
    + apply Hok; apply Forall_app; split; try assumption.
      * inversion HlenB as [|? ? ? Hl2]; inversion Hl2; subst.
        repeat constructor; assumption.
      * inversion HneB as [|? ? ? Hn2]; inversion Hn2; subst.
        repeat constructor; assumption.
    + reflexivity.
    + rewrite length_numbered, length_app. cbn. lia.
  - intros Hbuf.
    rewrite (frames_run _ s pre [] n Hbuf Hpos).
    + change [m1; r0; r1] with ([m1; r0] ++ [r1]).
      rewrite app_assoc, numbered_app, accept_all_app, Hall3.
      cbn [bind numbered accept_all].
      rewrite accept_bad_sequence; [reflexivity | lia |].
      rewrite Hc3. change (len (@nil bytes)) with 0.
      rewrite len_app, len_cons. change (len [m1; r0]) with 2.
      rewrite byte_val_seq; lia.
    + apply Hok; apply Forall_app; split; assumption.
    + reflexivity.
    + rewrite length_numbered, length_app. cbn. lia.
Qed.

Lemma row_starting_with_zero_closes_reply_witness :
  receiver.frames 5
    (receiver.mk
       (stream_of (numbered 1 (([x01] :: [[x03]])
                               ++ [[xfe]; x00 :: [x01; x37]; [x01; x38]])))
       0 [] false 2 [])
  = receiver.Raises AssertionError.
Proof.
  refine (proj2 (row_starting_with_zero_closes_reply [x01] [xfe] [x01; x37]
                   [x01; x38] [[x03]]
                   (receiver.mk
                      (stream_of
                         (numbered 1
                            (([x01] :: [[x03]])
                             ++ [[xfe]; x00 :: [x01; x37]; [x01; x38]])))
                      0 [] false 2 [])
                   [] 5 _ _ _ _ _ _ _ _ _ _ _) _).
  - cbn. repeat split; discriminate.
  - repeat constructor; discriminate.
  - reflexivity.
  - discriminate.
  - repeat constructor.
  - cbn. lia.
  - cbn. lia.
  - reflexivity.
  - reflexivity.
  - reflexivity.
  - cbn. lia.
  - reflexivity.
Defined.

(** X27: sequence numbers do not wrap.  Once 255 packets of a reply
    are held, the next packet raises AssertionError whatever its
    sequence number, since a sequence number is one byte: a reply of
    more than 255 packets cannot be received. *)
Theorem long_reply_cannot_be_received (s : receiver.state) (pre : bytes)
    (q : byte) (p post : bytes) :
  receiver.buf s = pre ++ vectors.frame q p ++ post ->
  receiver.pos s = len pre ->
  len p < 2 ^ 24 ->
  p ++ post <> [] ->
  2 <= receiver.handshake s ->
  255 <= len (receiver.current s) ->
  receiver.body s = Err AssertionError.
Proof.
  intros Hbuf Hpos Hlen Hne Hh Hc.
  apply (body_checks_sequence s pre q p post Hbuf Hpos Hlen Hne Hh).
  pose proof (byte_val_range q). lia.
Qed.

Lemma long_reply_cannot_be_received_witness :
  receiver.body
    (receiver.mk (vectors.frame x00 [x05; x01]) 0 (repeat [x05] 255) true 2
       [])
  = Err AssertionError.
Proof.
  apply (long_reply_cannot_be_received
           (receiver.mk (vectors.frame x00 [x05; x01]) 0 (repeat [x05] 255)
              true 2 [])
           [] x00 [x05; x01] []).
  - reflexivity.
  - reflexivity.
  - reflexivity.
  - discriminate.
  - cbn. lia.
  - vm_compute. discriminate.
Defined.

(** X28: a packet with an empty payload that ends the buffer cannot be
    taken: the loop reads the packet type one byte beyond the buffer
    and raises IndexError, during the handshake and after it. *)
Theorem empty_packet_raises (s : receiver.state) (pre : bytes) (q : byte) :
  receiver.buf s = pre ++ vectors.frame q [] ->
  receiver.pos s = len pre ->
  receiver.body s = Err IndexError.
Proof.
  intros Hbuf Hpos.
  assert (Hbuf' : receiver.buf s = pre ++ vectors.frame q [] ++ [])
    by now rewrite app_nil_r.
  unfold receiver.body.
  destruct (frame_reads s pre q [] [] Hbuf' Hpos eq_refl)
    as (c0 & c1 & c2 & -> & -> & -> & Hval & ->).
  cbn [bind]. rewrite Hval, (frame_available s pre q [] [] Hbuf' Hpos).
  change (len (@nil byte) + 4 + len (@nil byte) <? len (@nil byte) + 4)
    with false. cbv iota.
  rewrite index_past_end; [reflexivity|].
  rewrite Hbuf, Hpos, len_app, len_frame. change (len (@nil byte)) with 0.
  lia.
Qed.

Lemma empty_packet_raises_witness :
  receiver.body (receiver.mk ([x09] ++ vectors.frame x01 []) 1 [] false 0 [])
  = Err IndexError.
Proof.
  apply (empty_packet_raises
           (receiver.mk ([x09] ++ vectors.frame x01 []) 1 [] false 0 [])
           [x09] x01).
  - reflexivity.
  - reflexivity.
Defined.

(** ** Compaction of the receive buffer *)

Lemma slice_from_app {A} (l chunk : list A) (i : Z) :
  0 <= i <= len l ->
  slice_from (l ++ chunk) i = slice_from l i ++ chunk.
Proof.
  intros Hi. unfold slice_from, clamp. rewrite len_app.
  pose proof (len_nonneg chunk).
  destruct (Z.ltb_spec i 0); [lia|].
  rewrite !Z.min_l by lia.
  rewrite skipn_app.
  replace (Z.to_nat i - List.length l)%nat with 0%nat
    by (unfold len in *; lia).
  reflexivity.
Qed.

Lemma slice_from_zero {A} (l : list A) : slice_from l 0 = l.
Proof.
  unfold slice_from, clamp. pose proof (len_nonneg l).
  change (0 <? 0) with false. cbv iota. rewrite Z.min_l by lia.
  reflexivity.
Qed.

(** X29: a read never loses unread bytes.  From a position inside the
    buffer, a pass of the receiver that reads a chunk enters the frame
    loop with the unread bytes followed by the chunk, whether or not
    the consumed prefix was dropped; the prefix is dropped exactly when
    it is more than half of the buffer, and the other locals are as
    they were.  An empty read raises EOFError. *)
Theorem on_recv_keeps_unread (passes : nat) (chunk : bytes)
    (s : receiver.state) :
  0 <= receiver.pos s <= len (receiver.buf s) ->
  (chunk <> [] ->
   exists s1,
     receiver.on_recv passes chunk s = receiver.frames passes s1
     /\ slice_from (receiver.buf s1) (receiver.pos s1)
        = slice_from (receiver.buf s) (receiver.pos s) ++ chunk
     /\ receiver.pos s1
        = (if receiver.pos s * 2 >? len (receiver.buf s) then 0
           else receiver.pos s)
     /\ len (receiver.buf s1) - receiver.pos s1
        = len (receiver.buf s) - receiver.pos s + len chunk
     /\ receiver.current s1 = receiver.current s
     /\ receiver.fields s1 = receiver.fields s
     /\ receiver.handshake s1 = receiver.handshake s
     /\ receiver.produced s1 = receiver.produced s)
  /\ receiver.on_recv passes [] s = receiver.Raises EOFError.
Proof.
  intros Hpos. split; [|reflexivity].
  intros Hne. unfold receiver.on_recv.
  destruct chunk as [|c chunk]; [congruence|].
  destruct (receiver.pos s * 2 >? len (receiver.buf s)) eqn:E.
  - eexists. split; [reflexivity|].
    cbn [receiver.buf receiver.pos receiver.current receiver.fields
           receiver.handshake receiver.produced].
    rewrite slice_from_zero. repeat split.
    rewrite len_app. unfold slice_from, clamp.
    destruct (Z.ltb_spec (receiver.pos s) 0); [lia|].
    rewrite Z.min_l by lia.
    assert (Hl : len (skipn (Z.to_nat (receiver.pos s)) (receiver.buf s))
                 = len (receiver.buf s) - receiver.pos s).
    { unfold len. rewrite length_skipn. unfold len in Hpos. lia. }
    rewrite Hl. lia.
  - eexists. split; [reflexivity|].
    cbn [receiver.buf receiver.pos receiver.current receiver.fields
           receiver.handshake receiver.produced].
    rewrite slice_from_app by assumption. repeat split.
    rewrite len_app. lia.
Qed.

Lemma on_recv_keeps_unread_witness :
  ([x03] <> [] ->
   exists s1,
     receiver.on_recv 1 [x03]
       (receiver.mk [x00; x01; x02] 2 [] false 2 [])
     = receiver.frames 1 s1
     /\ slice_from (receiver.buf s1) (receiver.pos s1)
        = slice_from [x00; x01; x02] 2 ++ [x03]
     /\ receiver.pos s1 = (if 2 * 2 >? len [x00; x01; x02] then 0 else 2)
     /\ len (receiver.buf s1) - receiver.pos s1
        = len [x00; x01; x02] - 2 + len [x03]
     /\ receiver.current s1 = []
     /\ receiver.fields s1 = false
     /\ receiver.handshake s1 = 2
     /\ receiver.produced s1 = [])
  /\ receiver.on_recv 1 [] (receiver.mk [x00; x01; x02] 2 [] false 2 [])
     = receiver.Raises EOFError.
Proof.
  apply (on_recv_keeps_unread 1 [x03]
           (receiver.mk [x00; x01; x02] 2 [] false 2 [])).
  cbn. lia.
Defined.

(** ** The sender loop *)

Lemma fold_left_app_concat (pending : list bytes) (b : bytes) :
  fold_left (fun b chunk => b ++ chunk) pending b = b ++ List.concat pending.
Proof.
  revert b. induction pending as [|c pending IH]; intros b; cbn.
  - now rewrite app_nil_r.
  - rewrite IH, <- app_assoc. reflexivity.
Qed.

Lemma sender_pass_invariant (pending : list bytes) (r : sender.send)
    (s : sender.state) :
  sender.wire (sender.state_of (sender.pass pending r s))
  ++ sender.buf (sender.state_of (sender.pass pending r s))
  = (sender.wire s ++ sender.buf s) ++ List.concat pending.
Proof.
  unfold sender.pass. rewrite fold_left_app_concat.
  destruct (match sender.buf s with
            | [] => sender.wait_requests pending
            | _ => true
            end) eqn:Er.
  - destruct r as [n| |errno];
      cbn [sender.state_of sender.wire sender.buf];
      try now rewrite app_assoc.
    destruct (Nat.min n (List.length (sender.buf s ++ List.concat pending)))
      as [|k] eqn:E; cbn [sender.state_of sender.wire sender.buf].
    + now rewrite app_assoc.
    + rewrite <- app_assoc, firstn_skipn, app_assoc. reflexivity.
  - cbn [sender.state_of].
    destruct (sender.buf s); [|discriminate].
    destruct pending; [|discriminate].
    cbn. now rewrite !app_nil_r.
Qed.

(** Whatever ends the passes, the bytes taken and the bytes buffered
    are the bytes of the requests handed over until then. *)
Lemma sender_run_invariant (events : list (list bytes * sender.send)) :
  forall s,
    exists taken later,
      events = taken ++ later
      /\ sender.wire (sender.state_of (sender.run events s))
         ++ sender.buf (sender.state_of (sender.run events s))
         = (sender.wire s ++ sender.buf s) ++ submitted taken
      /\ (forall s', sender.run events s = sender.Continues s' ->
                     later = []).
Proof.
  induction events as [|[pending r] events IH]; intros s.
  - exists [], []. cbn. rewrite app_nil_r. auto.
  - pose proof (sender_pass_invariant pending r s) as Hp.
    cbn [sender.run].
    destruct (sender.pass pending r s) as [s1|e s1|s1];
      cbn [sender.state_of] in Hp.
    + destruct (IH s1) as (taken & later & Hev & Hinv & Hdone).
      exists ((pending, r) :: taken), later. split; [|split].
      * cbn. now rewrite Hev.
      * rewrite Hinv, Hp. unfold submitted. cbn.
        rewrite concat_app, <- !app_assoc. reflexivity.
      * exact Hdone.
    + exists [(pending, r)], events. split; [reflexivity|].
      split; [|discriminate].
      cbn [sender.state_of]. rewrite Hp. unfold submitted. cbn.
      now rewrite app_nil_r.
    + exists [(pending, r)], events. split; [reflexivity|].
      split; [|discriminate].
      cbn [sender.state_of]. rewrite Hp. unfold submitted. cbn.
      now rewrite app_nil_r.
Qed.

(** X30: the sender neither loses, repeats nor reorders bytes.  After
    any sequence of passes that raise nothing, whatever the socket took
    each time and however often it failed with EAGAIN or EINTR, the
    bytes the socket has taken followed by the bytes still buffered are
    the bytes of the requests handed over, in order; when a pass raises,
    the same holds of the requests handed over until then.  Every pass
    that sends moves to the socket a prefix of the buffer that is not
    empty, and leaves the rest buffered. *)
Theorem sender_keeps_order (events : list (list bytes * sender.send)) :
  (forall s', sender.run events sender.start = sender.Continues s' ->
              sender.wire s' ++ sender.buf s' = submitted events)
  /\ (forall e s', sender.run events sender.start = sender.Raises e s' ->
                   exists taken later,
                     events = taken ++ later
                     /\ sender.wire s' ++ sender.buf s' = submitted taken)
  /\ (forall pending n s s',
         sender.pass pending (sender.room n) s = sender.Continues s' ->
         exists sent,
           sent <> []
           /\ sender.wire s' = sender.wire s ++ sent
           /\ sent ++ sender.buf s'
              = sender.buf s ++ List.concat pending).
Proof.
  split; [|split].
  - intros s' H.
    destruct (sender_run_invariant events sender.start)
      as (taken & later & Hev & Hinv & Hdone).
    rewrite H in Hinv. cbn in Hinv.
    rewrite (Hdone s' H), app_nil_r in Hev. now subst taken.
  - intros e s' H.
    destruct (sender_run_invariant events sender.start)
      as (taken & later & Hev & Hinv & _).
    rewrite H in Hinv. cbn in Hinv. now exists taken, later.
  - intros pending n s s'. unfold sender.pass.
    rewrite fold_left_app_concat.
    destruct (match sender.buf s with
              | [] => sender.wait_requests pending
              | _ => true
              end); [|discriminate].
    destruct (Nat.min n (List.length (sender.buf s ++ List.concat pending)))
      as [|k] eqn:E; [discriminate|].
    intros H. inversion H; subst s'. clear H.
    cbn [sender.wire sender.buf].
    exists (firstn (S k) (sender.buf s ++ List.concat pending)).
    split; [|split; [reflexivity | apply firstn_skipn]].
    intros Hnil. apply (f_equal (@List.length byte)) in Hnil.
    rewrite length_firstn in Hnil. cbn [List.length] in Hnil. lia.
Qed.

(** Three requests in two batches, a send that takes two bytes, one
    that fails with EAGAIN and one that takes the rest; the same passes
    ending with a send that fails with errno 32; and the first of these
    passes on its own. *)
Lemma sender_keeps_order_witness :
  (sender.wire (sender.mk [] [x01; x02; x03; x04])
   ++ sender.buf (sender.mk [] [x01; x02; x03; x04])
   = submitted [([[x01; x02]; [x03]], sender.room 2);
                ([], sender.transient);
                ([[x04]], sender.room 5)])
  /\ (exists taken later,
         [([[x01; x02]; [x03]], sender.room 2);
          ([[x04]], sender.failure 32);
          ([[x05]], sender.room 5)] = taken ++ later
         /\ sender.wire (sender.mk [x03; x04] [x01; x02])
            ++ sender.buf (sender.mk [x03; x04] [x01; x02])
            = submitted taken)
  /\ (exists sent,
         sent <> []
         /\ sender.wire (sender.mk [x03] [x01; x02]) = [] ++ sent
         /\ sent ++ sender.buf (sender.mk [x03] [x01; x02])
            = [] ++ List.concat [[x01; x02]; [x03]]).
Proof.
  split; [|split].
  - apply (proj1 (sender_keeps_order
                    [([[x01; x02]; [x03]], sender.room 2);
                     ([], sender.transient);
                     ([[x04]], sender.room 5)])).
    reflexivity.
  - apply (proj1 (proj2 (sender_keeps_order
                           [([[x01; x02]; [x03]], sender.room 2);
                            ([[x04]], sender.failure 32);
                            ([[x05]], sender.room 5)]))
             (sender.socket_error 32)).
    reflexivity.
  - apply (proj2 (proj2 (sender_keeps_order []))
             [[x01; x02]; [x03]] 2%nat sender.start).
    reflexivity.
Defined.
